(** * AI_IR_Remote: the wake-word training scripts

    A shallow embedding of the three Python scripts under
    [EiWakeWordTraining/]:

    - [capture_samples.py]: the serial reader that frames a hex-encoded WAV
      payload between two marker lines and stores it;
    - [LLMtesting/test_groq_stt.py]: the speech-to-text test client;
    - [test_voice_pipeline.py]: transcription, intent parsing and the
      simulated execution of the parsed actions.

    Python values are modelled as the interpreter has them: a [str] is a
    sequence of Unicode code points, [bytes] a sequence of octets, an [int]
    an unbounded integer and a [float] an IEEE 754 binary64 number (the
    kernel's primitive floats).  What the scripts obtain from the outside
    (the serial line, the clock, the file system, the HTTP endpoint) is an
    explicit input of the model, and what they do to the outside (printing,
    writing to the port, creating directories and files, posting a request)
    is an explicit trace of effects. *)

From Stdlib.Strings Require Import String Ascii Byte.
From Stdlib Require Import DecimalString.
From Stdlib Require Import ZArith NArith List Bool Lia.
From Stdlib Require Import Floats Uint63.
Import ListNotations.

(* ================================================================== *)
(** * Python strings *)
(* ================================================================== *)

Module PyStr.

(** A [str] is a sequence of code points. *)
Definition pystr := list N.

(** An ASCII literal of the source, as a [str]. *)
Definition py (s : string) : pystr :=
  map N_of_ascii (list_ascii_of_string s).

(** [a == b] *)
Fixpoint eqb (a b : pystr) : bool :=
  match a, b with
  | [], [] => true
  | x :: a', y :: b' => N.eqb x y && eqb a' b'
  | _, _ => false
  end.

(** [s.startswith(p)] *)
Fixpoint startswith (s p : pystr) {struct p} : bool :=
  match p, s with
  | [], _ => true
  | _ :: _, [] => false
  | c :: p', d :: s' => N.eqb c d && startswith s' p'
  end.

(** [s.endswith(p)] *)
Definition endswith (s p : pystr) : bool := startswith (rev s) (rev p).

(** [p in s] for two strings: [p] occurs in [s] as a contiguous run. *)
Fixpoint contains (p s : pystr) : bool :=
  startswith s p ||
  match s with
  | [] => false
  | _ :: s' => contains p s'
  end.







(** [s.split(sep)] for a separator of one character: the segments between
    the occurrences of [sep], in order; never the empty list. *)
Fixpoint split (sep : N) (s : pystr) : list pystr :=
  match s with
  | [] => [[]]
  | c :: s' =>
      if N.eqb c sep then [] :: split sep s'
      else match split sep s' with
           | seg :: segs => (c :: seg) :: segs
           | [] => [[c]]
           end
  end.

(** [s.replace(old, new)] for a non-empty [old]: the occurrences of [old]
    are found left to right, without overlap.  [skip] counts the characters
    of the occurrence just found that are still to be dropped. *)
Fixpoint replace_from (old new : pystr) (skip : nat) (s : pystr) : pystr :=
  match s with
  | [] => []
  | c :: s' =>
      match skip with
      | S k => replace_from old new k s'
      | O =>
          if startswith s old
          then new ++ replace_from old new (length old - 1) s'
          else c :: replace_from old new 0 s'
      end
  end.

(** With an empty [old], [new] is inserted before every character and at
    the end. *)
Definition replace (s old new : pystr) : pystr :=
  match old with
  | [] => new ++ flat_map (fun c => c :: new) s
  | _ :: _ => replace_from old new 0 s
  end.

(** The characters [str.strip()] removes: those [str.isspace()] accepts. *)
Definition isspace (c : N) : bool :=
  (((9 <=? c) && (c <=? 13)) || ((28 <=? c) && (c <=? 32))
   || (c =? 133) || (c =? 160) || (c =? 5760)
   || ((8192 <=? c) && (c <=? 8202))
   || (c =? 8232) || (c =? 8233) || (c =? 8239) || (c =? 8287)
   || (c =? 12288))%N.

Fixpoint lstrip (s : pystr) : pystr :=
  match s with
  | [] => []
  | c :: s' => if isspace c then lstrip s' else s
  end.

Fixpoint rstrip (s : pystr) : pystr :=
  match s with
  | [] => []
  | c :: s' =>
      match rstrip s' with
      | [] => if isspace c then [] else [c]
      | t => c :: t
      end
  end.

(** [s.strip()] *)
Definition strip (s : pystr) : pystr := rstrip (lstrip s).

(** Truth value of a string: non-empty. *)
Definition truthy (s : pystr) : bool :=
  match s with [] => false | _ :: _ => true end.

(** The newline character, written [\n] in the source's literals. *)
Definition nl : pystr := [10%N].

(** [str(n)] for a natural number. *)
Definition dec (n : N) : pystr := py (NilEmpty.string_of_uint (N.to_uint n)).

(** [str(z)] for an integer. *)
Definition dec_Z (z : Z) : pystr :=
  if (z <? 0)%Z then py "-" ++ dec (Z.to_N (- z)) else dec (Z.to_N z).

(** A decimal number padded with zeros to [w] digits ([%02d], [%04d]). *)
Definition zfill (w : nat) (n : N) : pystr :=
  let d := dec n in repeat 48%N (w - length d) ++ d.

End PyStr.

Import PyStr.

(* ================================================================== *)
(** * Floating-point numbers *)
(* ================================================================== *)

Module PyFloat.

Definition prec : Z := 53.
Definition emax : Z := 1024.

(** An integer as an unrounded binary number. *)
Definition exact (z : Z) : spec_float :=
  match z with
  | Z0 => S754_zero false
  | Zpos m => S754_finite false m 0
  | Zneg m => S754_finite true m 0
  end.

(** [a / b] on two [int]s, [b] not zero: the quotient of the two integers,
    rounded once to the nearest binary64 number. *)
Definition truediv (a b : Z) : float :=
  SF2Prim (SFdiv prec emax (exact a) (exact b)).

(** The order of a float and an int, which the interpreter decides on the
    exact values: [Some c] with [c] the comparison of [x] to [n], [None]
    when [x] is a NaN. *)
Definition compare_int (x : float) (n : Z) : option comparison :=
  match Prim2SF x with
  | S754_nan => None
  | S754_infinity s => Some (if s then Lt else Gt)
  | S754_zero _ => Some (Z.compare 0 n)
  | S754_finite s m e =>
      let v := if s then Zneg m else Zpos m in
      Some (if (0 <=? e)%Z then Z.compare (v * 2 ^ e) n
            else Z.compare v (n * 2 ^ (- e)))
  end.

(** [x > n] for a float and an int. *)
Definition gt_int (x : float) (n : Z) : bool :=
  match compare_int x n with Some Gt => true | _ => false end.

(** [x < n] for a float and an int. *)
Definition lt_int (x : float) (n : Z) : bool :=
  match compare_int x n with Some Lt => true | _ => false end.

(** Truth value of a float: it is not zero (a NaN is true). *)
Definition truthy (x : float) : bool := negb (PrimFloat.eqb x 0%float).

(** [n / d] rounded to the nearest integer, ties to the even one. *)
Definition round_half_even (n d : Z) : Z :=
  let q := (n / d)%Z in
  let r := (n mod d)%Z in
  if (2 * r <? d)%Z then q
  else if (d <? 2 * r)%Z then (q + 1)%Z
  else if Z.even q then q else (q + 1)%Z.

(** [f"{x:.2f}"]: the exact binary value of [x], rounded to two decimals,
    ties to even. *)
Definition format_2f (x : float) : pystr :=
  match Prim2SF x with
  | S754_nan => py "nan"
  | S754_infinity s => if s then py "-inf" else py "inf"
  | S754_zero s => (if s then py "-" else []) ++ py "0.00"
  | S754_finite s m e =>
      let num := (Z.pos m * 100)%Z in
      let h := if (0 <=? e)%Z then (num * 2 ^ e)%Z
               else round_half_even num (2 ^ (- e)) in
      (if s then py "-" else [])
        ++ dec (Z.to_N (h / 100)) ++ py "." ++ zfill 2 (Z.to_N (h mod 100))
  end.

End PyFloat.

(* ================================================================== *)
(** * Hexadecimal text and bytes *)
(* ================================================================== *)

Module Hex.

(** The value of a hexadecimal digit, upper or lower case. *)
Definition digit_value (c : N) : option N :=
  (if (48 <=? c) && (c <=? 57) then Some (c - 48)
   else if (97 <=? c) && (c <=? 102) then Some (c - 87)
   else if (65 <=? c) && (c <=? 70) then Some (c - 55)
   else None)%N.

(** ASCII whitespace, which [bytes.fromhex] skips between two bytes. *)
Definition is_ascii_space (c : N) : bool :=
  (((9 <=? c) && (c <=? 13)) || (c =? 32))%N.

Definition byte_of (top bot : N) : byte :=
  match Byte.of_N (16 * top + bot) with
  | Some b => b
  | None => x00
  end.

(** The scan of [bytes.fromhex]: whitespace is skipped in front of a byte,
    then two adjacent digits make the byte.  [None] is its ValueError. *)
Fixpoint fromhex_scan (s : pystr) : option (list byte) :=
  match s with
  | [] => Some []
  | c :: s1 =>
      if is_ascii_space c then fromhex_scan s1
      else
        match digit_value c, s1 with
        | Some top, d :: s2 =>
            match digit_value d with
            | Some bot =>
                match fromhex_scan s2 with
                | Some bs => Some (byte_of top bot :: bs)
                | None => None
                end
            | None => None
            end
        | _, _ => None
        end
  end.

(** [bytes.fromhex(s)]: a string with a character outside ASCII is refused
    before the scan. *)
Definition fromhex (s : pystr) : option (list byte) :=
  if forallb (fun c => (c <? 128)%N) s then fromhex_scan s else None.

(** The digit for a value below 16, in upper or lower case. *)
Definition digit (upper : bool) (n : N) : N :=
  (if n <? 10 then 48 + n else if upper then 55 + n else 87 + n)%N.

(** Two digits per byte, high nibble first: [b.hex()] in lower case, and
    [b.hex().upper()], which a device printing [%02X] sends. *)
Definition hex_of (upper : bool) (b : list byte) : pystr :=
  flat_map (fun x => let n := Byte.to_N x in
                     [digit upper (n / 16); digit upper (n mod 16)]%N) b.

Definition hex (b : list byte) : pystr := hex_of false b.

End Hex.

(* ================================================================== *)
(** * [os.path] on POSIX *)
(* ================================================================== *)

Module PosixPath.

(** [os.path.join(a, b)]: an absolute [b] replaces [a]; otherwise one
    separator stands between the two, none after an empty [a]. *)
Definition join (a b : pystr) : pystr :=
  if startswith b (py "/") then b
  else if negb (PyStr.truthy a) || endswith a (py "/") then a ++ b
  else a ++ py "/" ++ b.

End PosixPath.

(* ================================================================== *)
(** * [capture_samples.py] *)
(* ================================================================== *)

Module CaptureSamples.

Definition OUTPUT_DIR : pystr := py "training_samples".
Definition TIMEOUT : Z := 15.

(** The two marker literals of [capture_sample]. *)
Definition WAV_START : pystr := py "---WAV_START".
Definition WAV_END : pystr := py "---WAV_END---".

(** What [datetime.now()] returned. *)
Record datetime := {
  year : N; month : N; day : N; hour : N; minute : N; second : N
}.

(** [d.strftime("%Y%m%d_%H%M%S")] *)
Definition strftime (d : datetime) : pystr :=
  zfill 4 (year d) ++ zfill 2 (month d) ++ zfill 2 (day d) ++ py "_"
    ++ zfill 2 (hour d) ++ zfill 2 (minute d) ++ zfill 2 (second d).

(** What one [ser.readline().decode('utf-8', errors='ignore')] gave: the
    decoded text, or an exception with its message. *)
Inductive read_result :=
| ReadRaised (e : pystr)
| ReadText (text : pystr).

(** One pass through the loop body: the clock as read at the top of the
    pass, and what the read that follows it gives. *)
Record attempt := { now : float; rx : read_result }.

(** The outside of one call: the clock when the loop starts, the passes of
    the loop, the wall clock at saving time, whether [os.makedirs] and
    [open]/[write] succeed, and the interpreter's message for a refused
    hex string. *)
Record world := {
  start_time : float;
  attempts : list attempt;
  wall_clock : datetime;
  makedirs_ok : bool;
  open_ok : bool;
  fromhex_error : pystr -> pystr
}.

Inductive effect :=
| ResetInputBuffer
| SerialWrite (text : pystr)            (* ser.write(text.encode()) *)
| Print (text : pystr)
| MakeDirs (path : pystr)               (* os.makedirs(path, exist_ok=True) *)
| WriteFile (path : pystr) (data : list byte).

(** How a call ends: it returns a boolean, or an OSError of the file
    system leaves it. *)
Inductive outcome :=
| Return (b : bool)
| RaiseOSError.

(** The loop's local variables. *)
Record locals := {
  capturing : bool;
  hex_data : pystr;
  actual_label : pystr
}.

Definition initial (label : pystr) : locals :=
  {| capturing := false; hex_data := []; actual_label := label |}.

(** What a pass does to the loop: go round again, or [break]. *)
Inductive control :=
| Next (st : locals)
| Stop (st : locals).

(** [time.time() - start_time > TIMEOUT] *)
Definition deadline_passed (start t : float) : bool :=
  PyFloat.gt_int (PrimFloat.sub t start) TIMEOUT.

(** The label a start marker carries:
    [line.split(":")[1].replace("---", "").strip()] *)
Definition marker_label (line : pystr) : pystr :=
  strip (replace (nth 1 (split 58 line) []) (py "---") []).

(** The loop body from the echo on, for a non-empty stripped [line]. *)
Definition on_line (st : locals) (line : pystr) : control * list effect :=
  let echo := if capturing st then [] else [Print (py "  " ++ line)] in
  if startswith line WAV_START then
    let label := if contains (py ":") line then marker_label line
                 else actual_label st in
    (Next {| capturing := true; hex_data := hex_data st;
             actual_label := label |},
     echo ++ [Print (nl ++ py "  Receiving WAV data...")])
  else if contains WAV_END line then (Stop st, echo)
  else if capturing st then
    (Next {| capturing := true; hex_data := hex_data st ++ line;
             actual_label := actual_label st |}, echo)
  else (Next st, echo).

(** The loop body after the deadline check. *)
Definition on_read (st : locals) (r : read_result) : control * list effect :=
  match r with
  | ReadRaised e => (Next st, [Print (py "Read error: " ++ e)])
  | ReadText text =>
      let line := strip text in
      if PyStr.truthy line then on_line st line else (Next st, [])
  end.

Inductive loop_exit :=
| TimedOut
| Broke (st : locals).

Definition emit {A} (eff : list effect) (r : option (A * list effect))
  : option (A * list effect) :=
  match r with
  | Some (x, eff') => Some (x, eff ++ eff')
  | None => None
  end.

(** [while True: ...] over the passes the outside provides.  [None]: the
    passes are used up and the loop is still running. *)
Fixpoint read_loop (start : float) (st : locals) (input : list attempt)
  : option (loop_exit * list effect) :=
  match input with
  | [] => None
  | a :: rest =>
      if deadline_passed start (now a)
      then Some (TimedOut, [Print (py "ERROR: Timeout waiting for data")])
      else match on_read st (rx a) with
           | (Next st', eff) => emit eff (read_loop start st' rest)
           | (Stop st', eff) => Some (Broke st', eff)
           end
  end.

(** [(file_size - 44) / (16000 * 2)] *)
Definition duration (file_size : Z) : float :=
  PyFloat.truediv (file_size - 44) (16000 * 2).

(** The last line printed: the size and the estimated duration. *)
Definition size_line (file_size : Z) : pystr :=
  py "  Size: " ++ dec_Z file_size ++ py " bytes ("
    ++ PyFloat.format_2f (duration file_size) ++ py " seconds)".

Definition label_dir_of (label : pystr) : pystr :=
  PosixPath.join OUTPUT_DIR label.

Definition filename_of (w : world) (label : pystr) : pystr :=
  PosixPath.join (label_dir_of label)
                 (label ++ py "_" ++ strftime (wall_clock w) ++ py ".wav").

(** From "Validate data" to the end of [capture_sample]. *)
Definition save (w : world) (st : locals) : outcome * list effect :=
  if negb (PyStr.truthy (hex_data st)) then
    (Return false, [Print (py "ERROR: No audio data received")])
  else
    match Hex.fromhex (hex_data st) with
    | None =>
        (Return false,
         [Print (py "ERROR: Invalid hex data: "
                   ++ fromhex_error w (hex_data st))])
    | Some binary_data =>
        let label_dir := label_dir_of (actual_label st) in
        if negb (makedirs_ok w) then (RaiseOSError, [])
        else
          let filename := filename_of w (actual_label st) in
          if negb (open_ok w) then (RaiseOSError, [MakeDirs label_dir])
          else
            let file_size := Z.of_nat (length binary_data) in
            (Return true,
             [MakeDirs label_dir;
              WriteFile filename binary_data;
              Print (nl ++ py "  Saved: " ++ filename);
              Print (size_line file_size)])
    end.

(** [capture_sample(ser, label)] *)
Definition capture_sample (w : world) (label : pystr)
  : option (outcome * list effect) :=
  let sent :=
    [ResetInputBuffer;
     SerialWrite (label ++ nl);
     Print (nl ++ py "Sent command: " ++ label);
     Print (py "Waiting for ESP32 to record...")] in
  match read_loop (start_time w) (initial label) (attempts w) with
  | None => None
  | Some (TimedOut, eff) => Some (Return false, sent ++ eff)
  | Some (Broke st, eff) =>
      let (r, eff') := save w st in Some (r, sent ++ eff ++ eff')
  end.

End CaptureSamples.

(* ================================================================== *)
(** * Python objects and exceptions *)
(* ================================================================== *)

Module PyVal.

(** The objects a JSON document decodes to.  A [dict] is the list of its
    items in insertion order, with no key twice. *)
#[warnings="-register-all"]
Inductive pyval :=
| PNone
| PBool (b : bool)
| PInt (z : Z)
| PFloat (x : float)
| PStr (s : pystr)
| PList (items : list pyval)
| PDict (items : list (pystr * pyval)).

(** The exceptions the scripts can meet. *)
Inductive exn :=
| JSONDecodeError
| ValueError
| RecursionError
| KeyError
| IndexError
| TypeError
| AttributeError
| OSError
| RequestTimeout                (* requests.exceptions.Timeout *)
| RequestError (msg : pystr).   (* any other exception of requests *)

(** A computation that returns or raises. *)
Inductive res (A : Type) :=
| Ok (a : A)
| Err (e : exn).
Arguments Ok {A} a.
Arguments Err {A} e.

Definition bind {A B} (r : res A) (k : A -> res B) : res B :=
  match r with
  | Ok a => k a
  | Err e => Err e
  end.

(** [bool(v)] *)
Definition truthy (v : pyval) : bool :=
  match v with
  | PNone => false
  | PBool b => b
  | PInt z => negb (z =? 0)%Z
  | PFloat x => PyFloat.truthy x
  | PStr s => PyStr.truthy s
  | PList l => match l with [] => false | _ => true end
  | PDict d => match d with [] => false | _ => true end
  end.

(** The item of a dict under a key. *)
Fixpoint lookup (k : pystr) (d : list (pystr * pyval)) : option pyval :=
  match d with
  | [] => None
  | (k', v) :: d' => if PyStr.eqb k k' then Some v else lookup k d'
  end.

(** [d[k] = v] on the items of a dict: a key already there keeps its place
    and takes the new value. *)
Fixpoint store (k : pystr) (v : pyval) (d : list (pystr * pyval))
  : list (pystr * pyval) :=
  match d with
  | [] => [(k, v)]
  | (k', v') :: d' =>
      if PyStr.eqb k k' then (k, v) :: d' else (k', v') :: store k v d'
  end.



(** [v.get(k, default)] *)
Definition get (v : pyval) (k : pystr) (default : pyval) : res pyval :=
  match v with
  | PDict d => Ok (match lookup k d with Some x => x | None => default end)
  | _ => Err AttributeError
  end.

(** [v == s] for a string literal [s]. *)
Definition eq_str (v : pyval) (s : pystr) : bool :=
  match v with
  | PStr t => PyStr.eqb t s
  | _ => false
  end.

(** A piece of a printed line: literal text, or an object or exception
    whose text the interpreter renders. *)
Inductive frag :=
| Lit (s : pystr)
| Obj (v : pyval)           (* str(v) *)
| Dumps (v : pyval)         (* json.dumps(v) *)
| Exc (e : exn).            (* str(e) *)

(** [f"{v}"]: the text of [v], written out where it is plain. *)
Definition fmt (v : pyval) : frag :=
  match v with
  | PNone => Lit (py "None")
  | PBool b => Lit (if b then py "True" else py "False")
  | PInt z => Lit (dec_Z z)
  | PStr s => Lit s
  | _ => Obj v
  end.

(** What [requests.post] gives back. *)
Record response := {
  status_code : Z;
  text : pystr;
  json : res pyval            (* response.json() *)
}.

Inductive post_result :=
| PostRaised (e : exn)
| PostReturned (r : response).

End PyVal.

Import PyVal.

(* ================================================================== *)
(** * [json.loads] *)
(* ================================================================== *)

Module Json.

Definition is_ws (c : N) : bool :=
  ((c =? 32) || (c =? 9) || (c =? 10) || (c =? 13))%N.

Fixpoint skip_ws (s : pystr) : pystr :=
  match s with
  | [] => []
  | c :: s' => if is_ws c then skip_ws s' else s
  end.

Definition is_digit (c : N) : bool := ((48 <=? c) && (c <=? 57))%N.

(** The longest run of digits at the front, and what follows it. *)
Fixpoint take_digits (s : pystr) : pystr * pystr :=
  match s with
  | [] => ([], [])
  | c :: s' =>
      if is_digit c
      then let (ds, r) := take_digits s' in (c :: ds, r)
      else ([], s)
  end.

Definition digits_value (ds : pystr) : Z :=
  fold_left (fun acc c => (10 * acc + Z.of_N (c - 48))%Z) ds 0%Z.

(** [float(text)] for the digits [d], negated if [neg], times ten to the
    [e10]: rounded once, to the nearest binary64 number. *)
Definition float_of_decimal (neg : bool) (d e10 : Z) : float :=
  if (d =? 0)%Z then (if neg then (-0)%float else 0%float)
  else
    let m := if neg then (- d)%Z else d in
    if (0 <=? e10)%Z
    then SF2Prim (binary_normalize PyFloat.prec PyFloat.emax
                                   (m * 10 ^ e10) 0 false)
    else SF2Prim (SFdiv PyFloat.prec PyFloat.emax
                        (PyFloat.exact m) (PyFloat.exact (10 ^ (- e10)))).

(** The interpreter's limit on the digits of an integer literal. *)
Definition MAX_STR_DIGITS : N := 4300.

(** A number: an optional minus sign; a zero, or a digit from 1 to 9 and
    any digits; optionally a point and at least one digit; optionally [e]
    or [E], an optional sign and at least one digit.  With a fraction or
    an exponent it is a float, otherwise an int. *)
Definition scan_number (s : pystr) : res (pyval * pystr) :=
  let (neg, s1) := match s with
                   | c :: t => if (c =? 45)%N then (true, t) else (false, s)
                   | [] => (false, s)
                   end in
  match s1 with
  | [] => Err JSONDecodeError
  | c :: t =>
      if is_digit c then
        let (ds, r1) := if (c =? 48)%N then ([], t) else take_digits t in
        let ipart := c :: ds in
        let (fpart, r2) :=
          match r1 with
          | dot :: d :: t' =>
              if (dot =? 46)%N && is_digit d then take_digits (d :: t')
              else ([], r1)
          | _ => ([], r1)
          end in
        let '(epart, r3) :=
          match r2 with
          | e :: t' =>
              if ((e =? 101) || (e =? 69))%N then
                let (eneg, t'') :=
                  match t' with
                  | sg :: u =>
                      if (sg =? 45)%N then (true, u)
                      else if (sg =? 43)%N then (false, u)
                      else (false, t')
                  | [] => (false, t')
                  end in
                let (es, r) := take_digits t'' in
                match es with
                | [] => (None, r2)
                | _ :: _ =>
                    (Some (if eneg then (- digits_value es)%Z
                           else digits_value es), r)
                end
              else (None, r2)
          | [] => (None, r2)
          end in
        match fpart, epart with
        | [], None =>
            if (MAX_STR_DIGITS <? N.of_nat (length ipart))%N then Err ValueError
            else
              let v := digits_value ipart in
              Ok (PInt (if neg then (- v)%Z else v), r3)
        | _, _ =>
            let e := match epart with Some e => e | None => 0%Z end in
            Ok (PFloat (float_of_decimal neg (digits_value (ipart ++ fpart))
                                         (e - Z.of_nat (length fpart))), r3)
        end
      else Err JSONDecodeError
  end.

Definition hex4 (a b c d : N) : option N :=
  match Hex.digit_value a, Hex.digit_value b,
        Hex.digit_value c, Hex.digit_value d with
  | Some x, Some y, Some z, Some w => Some (((x * 16 + y) * 16 + z) * 16 + w)%N
  | _, _, _, _ => None
  end.

Definition simple_escape (c : N) : option N :=
  (if c =? 34 then Some 34          (* quote *)
   else if c =? 92 then Some 92     (* backslash *)
   else if c =? 47 then Some 47     (* slash *)
   else if c =? 98 then Some 8      (* b: backspace *)
   else if c =? 102 then Some 12    (* f: form feed *)
   else if c =? 110 then Some 10    (* n: line feed *)
   else if c =? 114 then Some 13    (* r: carriage return *)
   else if c =? 116 then Some 9     (* t: tab *)
   else None)%N.

Definition is_high_surrogate (c : N) : bool := ((55296 <=? c) && (c <=? 56319))%N.
Definition is_low_surrogate (c : N) : bool := ((56320 <=? c) && (c <=? 57343))%N.
Definition join_surrogates (hi lo : N) : N :=
  (65536 + (hi - 55296) * 1024 + (lo - 56320))%N.

Definition cons_char (c : N) (r : res (pystr * pystr)) : res (pystr * pystr) :=
  match r with
  | Ok (cs, rest) => Ok (c :: cs, rest)
  | Err e => Err e
  end.

(** A string, from after its opening quote: its characters, and what
    follows the closing quote. *)
Fixpoint scan_string (s : pystr) : res (pystr * pystr) :=
  match s with
  | [] => Err JSONDecodeError
  | c :: s1 =>
      if (c =? 34)%N then Ok ([], s1)
      else if (c =? 92)%N then
        match s1 with
        | [] => Err JSONDecodeError
        | e :: s2 =>
            if (e =? 117)%N then
              match s2 with
              | h1 :: h2 :: h3 :: h4 :: s3 =>
                  match hex4 h1 h2 h3 h4 with
                  | None => Err JSONDecodeError
                  | Some u =>
                      match s3 with
                      | b :: u' :: g1 :: g2 :: g3 :: g4 :: s4 =>
                          if is_high_surrogate u && (b =? 92)%N && (u' =? 117)%N
                          then
                            match hex4 g1 g2 g3 g4 with
                            | None => Err JSONDecodeError
                            | Some u2 =>
                                if is_low_surrogate u2
                                then cons_char (join_surrogates u u2)
                                               (scan_string s4)
                                else cons_char u (scan_string s3)
                            end
                          else cons_char u (scan_string s3)
                      | _ => cons_char u (scan_string s3)
                      end
                  end
              | _ => Err JSONDecodeError
              end
            else
              match simple_escape e with
              | Some ch => cons_char ch (scan_string s2)
              | None => Err JSONDecodeError
              end
        end
      else if (c <=? 31)%N then Err JSONDecodeError
      else cons_char c (scan_string s1)
  end.

Section Containers.

(** The scanner of one value, for the values inside a container. *)
Variable scan : pystr -> res (pyval * pystr).

(** The items of an array from its first value on.  Every pass consumes a
    character, so [fuel] at least the length of [s] is never used up. *)
Fixpoint array_items (fuel : nat) (s : pystr) (acc : list pyval)
  : res (pyval * pystr) :=
  match fuel with
  | O => Err JSONDecodeError
  | S fuel' =>
      match scan s with
      | Err e => Err e
      | Ok (v, r) =>
          match skip_ws r with
          | c :: r' =>
              if (c =? 93)%N then Ok (PList (rev (v :: acc)), r')
              else if (c =? 44)%N then array_items fuel' (skip_ws r') (v :: acc)
              else Err JSONDecodeError
          | [] => Err JSONDecodeError
          end
      end
  end.

(** An array, from after its opening bracket. *)
Definition scan_array (s : pystr) : res (pyval * pystr) :=
  match skip_ws s with
  | c :: r =>
      if (c =? 93)%N then Ok (PList [], r)
      else array_items (length s) (skip_ws s) []
  | [] => Err JSONDecodeError
  end.

(** The members of an object from its first key on. *)
Fixpoint object_items (fuel : nat) (s : pystr) (acc : list (pystr * pyval))
  : res (pyval * pystr) :=
  match fuel with
  | O => Err JSONDecodeError
  | S fuel' =>
      match s with
      | q :: s1 =>
          if (q =? 34)%N then
            match scan_string s1 with
            | Err e => Err e
            | Ok (key, r) =>
                match skip_ws r with
                | colon :: r1 =>
                    if (colon =? 58)%N then
                      match scan (skip_ws r1) with
                      | Err e => Err e
                      | Ok (v, r2) =>
                          match skip_ws r2 with
                          | c :: r3 =>
                              if (c =? 125)%N
                              then Ok (PDict (store key v acc), r3)
                              else if (c =? 44)%N
                              then object_items fuel' (skip_ws r3)
                                                (store key v acc)
                              else Err JSONDecodeError
                          | [] => Err JSONDecodeError
                          end
                      end
                    else Err JSONDecodeError
                | [] => Err JSONDecodeError
                end
            end
          else Err JSONDecodeError
      | [] => Err JSONDecodeError
      end
  end.

(** An object, from after its opening brace. *)
Definition scan_object (s : pystr) : res (pyval * pystr) :=
  match skip_ws s with
  | c :: r =>
      if (c =? 125)%N then Ok (PDict [], r)
      else object_items (length s) (skip_ws s) []
  | [] => Err JSONDecodeError
  end.

End Containers.

(** One JSON value at the front of [s].  [depth] is how many containers
    may still nest before the interpreter raises RecursionError. *)
Fixpoint scan_once (depth : nat) (s : pystr) : res (pyval * pystr) :=
  match s with
  | [] => Err JSONDecodeError
  | c :: r =>
      if (c =? 34)%N then
        match scan_string r with
        | Ok (cs, r') => Ok (PStr cs, r')
        | Err e => Err e
        end
      else if (c =? 123)%N then
        match depth with
        | O => Err RecursionError
        | S d => scan_object (scan_once d) r
        end
      else if (c =? 91)%N then
        match depth with
        | O => Err RecursionError
        | S d => scan_array (scan_once d) r
        end
      else if startswith s (py "null") then Ok (PNone, skipn 4 s)
      else if startswith s (py "true") then Ok (PBool true, skipn 4 s)
      else if startswith s (py "false") then Ok (PBool false, skipn 5 s)
      else if startswith s (py "NaN") then Ok (PFloat nan, skipn 3 s)
      else if startswith s (py "Infinity")
      then Ok (PFloat infinity, skipn 8 s)
      else if startswith s (py "-Infinity")
      then Ok (PFloat neg_infinity, skipn 9 s)
      else scan_number s
  end.


End Json.

(* ================================================================== *)
(** * HTTP requests *)
(* ================================================================== *)

Module Http.

(** The arguments of one [requests.post]: the URL, the Authorization
    header, the uploaded file (its name and media type) if there is one,
    the form fields ([data=]), the JSON body ([json=]) and the timeout. *)
Record request := {
  url : pystr;
  authorization : pystr;
  upload : option (pystr * pystr);
  form : list (pystr * pystr);
  body : pyval;
  timeout : Z
}.

Inductive effect :=
| Print (line : list frag)
| Post (r : request).

(** [os.path.basename(p)]: what follows the last slash. *)
Fixpoint basename (p : pystr) : pystr :=
  match p with
  | [] => []
  | c :: p' => if contains (py "/") p then basename p' else p
  end.

(** A literal of the source in which a backquote stands for the double
    quote character. *)
Definition pyq (s : string) : pystr :=
  map (fun c => if (c =? 96)%N then 34%N else c) (py s).

End Http.

Import Http.

(* ================================================================== *)
(** * [LLMtesting/test_groq_stt.py] *)
(* ================================================================== *)

Module TestGroqStt.

(** The key as the script ships it. *)
Definition GROQ_API_KEY : pystr := py "YOUR API KEY HERE".

(** The literal [transcribe_audio] compares the key with. *)
Definition PLACEHOLDER : pystr := py "YOUR_GROQ_API_KEY_HERE".

Definition GROQ_API_URL : pystr :=
  py "https://api.groq.com/openai/v1/audio/transcriptions".
Definition DEFAULT_MODEL : pystr := py "whisper-large-v3".

(** The outside of one call: whether a path exists, whether the file
    opens, and what the request gives. *)
Record world := {
  path_exists : pystr -> bool;
  open_ok : bool;
  post : post_result
}.

Definition missing_key_diagnostic : list effect :=
  [Print [Lit (py "ERROR: Please set your Groq API key!")];
   Print [Lit (py "  1. Get key from: https://console.groq.com")];
   Print [Lit (py "  2. Set GROQ_API_KEY environment variable, or")];
   Print [Lit (py "  3. Edit this file and replace YOUR_GROQ_API_KEY_HERE")]].

Definition transcription_request (key audio_path model : pystr) : request :=
  {| url := GROQ_API_URL;
     authorization := py "Bearer " ++ key;
     upload := Some (basename audio_path, py "audio/wav");
     form := [(py "model", model);
              (py "response_format", py "json");
              (py "language", py "en")];
     body := PNone;
     timeout := 30 |}.

(** [transcribe_audio(audio_path, model)] with the module's key bound to
    [key]: the value returned ([PNone] for [None]) and the effects. *)
Definition transcribe_audio_with (key : pystr) (w : world)
           (audio_path model : pystr) : pyval * list effect :=
  if PyStr.eqb key PLACEHOLDER then (PNone, missing_key_diagnostic)
  else if negb (path_exists w audio_path) then
    (PNone, [Print [Lit (py "ERROR: File not found: "); Lit audio_path]])
  else if negb (open_ok w) then
    (PNone, [Print [Lit (py "ERROR: "); Exc OSError]])
  else
    let sent := Post (transcription_request key audio_path model) in
    match post w with
    | PostRaised RequestTimeout =>
        (PNone, [sent; Print [Lit (py "ERROR: Request timed out")]])
    | PostRaised e => (PNone, [sent; Print [Lit (py "ERROR: "); Exc e]])
    | PostReturned r =>
        if (status_code r =? 200)%Z then
          match json r with
          | Ok v => (v, [sent])
          | Err e => (PNone, [sent; Print [Lit (py "ERROR: "); Exc e]])
          end
        else
          (PNone,
           [sent;
            Print [Lit (py "ERROR: API returned ");
                   Lit (dec_Z (status_code r))];
            Print [Lit (py "Response: "); Lit (text r)]])
    end.

(** [transcribe_audio] as shipped. *)
Definition transcribe_audio : world -> pystr -> pystr -> pyval * list effect :=
  transcribe_audio_with GROQ_API_KEY.

End TestGroqStt.

(* ================================================================== *)
(** * [test_voice_pipeline.py] *)
(* ================================================================== *)

Module TestVoicePipeline.



(** The outside of one call of [parse_intent]: the configured key, what
    the request gives, the two readings of the clock around it, and the
    nesting the interpreter still allows. *)
Record world := {
  api_key : pystr;
  post : post_result;
  clock_before : float;
  clock_after : float;
  recursion_depth : nat
}.






Definition error_line (e : exn) : effect :=
  Print [Lit (py "      ERROR: "); Exc e].



(** [v < n] and [v > n] for an int literal [n]: defined between numbers,
    a [bool] counting as 0 or 1; a TypeError otherwise. *)
Definition lt_int (v : pyval) (n : Z) : res bool :=
  match v with
  | PBool b => Ok ((if b then 1 else 0) <? n)%Z
  | PInt z => Ok (z <? n)%Z
  | PFloat x => Ok (PyFloat.lt_int x n)
  | _ => Err TypeError
  end.

Definition gt_int (v : pyval) (n : Z) : res bool :=
  match v with
  | PBool b => Ok (n <? (if b then 1 else 0))%Z
  | PInt z => Ok (n <? z)%Z
  | PFloat x => Ok (PyFloat.gt_int x n)
  | _ => Err TypeError
  end.

(** [min(n, v)]: [v] when [v < n], else [n]. *)
Definition min_int (n : Z) (v : pyval) : res pyval :=
  bind (lt_int v n) (fun b => Ok (if b then v else PInt n)).

(** [max(n, v)]: [v] when [v > n], else [n]. *)
Definition max_int (n : Z) (v : pyval) : res pyval :=
  bind (gt_int v n) (fun b => Ok (if b then v else PInt n)).

(** [max(16, min(30, value)) if value else 24] *)
Definition ac_temp (value : pyval) : res pyval :=
  if truthy value then bind (min_int 30 value) (max_int 16)
  else Ok (PInt 24).

(** The mis-encoded degree sign and the C that end the temperature line. *)
Definition DEGREES_C : pystr := [194; 176; 67]%N.

(** The body of the [for] loop: the line printed for one action. *)
Definition execute_action (action : pyval) : res (list frag) :=
  bind (get action (py "type") (PStr (py "unknown"))) (fun action_type =>
  bind (get action (py "value") PNone) (fun value =>
    if eq_str action_type (py "ac_on") then
      Ok [Lit (py "      -> AC: Turning ON")]
    else if eq_str action_type (py "ac_off") then
      Ok [Lit (py "      -> AC: Turning OFF")]
    else if eq_str action_type (py "ac_temp") then
      bind (ac_temp value) (fun temp =>
        Ok [Lit (py "      -> AC: Setting temperature to "); fmt temp;
            Lit DEGREES_C])
    else if eq_str action_type (py "ac_mode") then
      Ok [Lit (py "      -> AC: Setting mode to "); fmt value]
    else if eq_str action_type (py "light_on") then
      Ok [Lit (py "      -> Lights: Turning ON")]
    else if eq_str action_type (py "light_off") then
      Ok [Lit (py "      -> Lights: Turning OFF")]
    else if eq_str action_type (py "ir_send") then
      Ok [Lit (py "      -> IR: Sending signal "); fmt value]
    else
      Ok [Lit (py "      -> Unknown action: "); fmt action_type])).

(** ["actions" in v] *)
Definition has_actions (v : pyval) : res bool :=
  match v with
  | PDict d => Ok (match lookup (py "actions") d with
                   | Some _ => true | None => false end)
  | PList l => Ok (existsb (fun x => eq_str x (py "actions")) l)
  | PStr s => Ok (contains (py "actions") s)
  | _ => Err TypeError
  end.

(** The objects [for action in v] goes through. *)
Definition iterate (v : pyval) : res (list pyval) :=
  match v with
  | PList l => Ok l
  | PDict d => Ok (map (fun kv => PStr (fst kv)) d)
  | PStr s => Ok (map (fun c => PStr [c]) s)
  | _ => Err TypeError
  end.

(** How [execute_actions] ends: it returns, or an exception leaves it. *)
Inductive outcome :=
| Done
| Raised (e : exn).

(** The [for] loop: the actions in order, up to the first that raises. *)
Fixpoint run_actions (actions : list pyval) : outcome * list effect :=
  match actions with
  | [] => (Done, [])
  | action :: rest =>
      match execute_action action with
      | Err e => (Raised e, [])
      | Ok line =>
          let (o, eff) := run_actions rest in (o, Print line :: eff)
      end
  end.

(** [execute_actions(intent)] *)
Definition execute_actions (intent : pyval) : outcome * list effect :=
  let head := Print [Lit (py "[3/3] Executing actions...")] in
  let none := (Done, [head; Print [Lit (py "      No actions to execute")]]) in
  if negb (truthy intent) then none
  else
    match has_actions intent with
    | Err e => (Raised e, [head])
    | Ok false => none
    | Ok true =>
        match get intent (py "actions") (PList []) with
        | Err e => (Raised e, [head])
        | Ok actions =>
            if negb (truthy actions) then
              (Done, [head; Print [Lit (py "      No actions found")]])
            else
              match iterate actions with
              | Err e => (Raised e, [head])
              | Ok l => let (o, eff) := run_actions l in (o, head :: eff)
              end
        end
    end.

End TestVoicePipeline.

(* ================================================================== *)
(** * [capture_samples.py]: ports, batches, the session and [main] *)
(* ================================================================== *)

Module CaptureScript.

Import CaptureSamples.

(** The settings as shipped. *)
Definition SERIAL_PORT : option pystr := Some (py "COM5").
Definition BAUD_RATE : Z := 115200.

(** The module's docstring, which [--help] prints. *)
Definition DOC : pystr :=
  nl ++ flat_map (fun l => py l ++ nl)
    ["Edge Impulse Audio Sample Capture Tool";
     "";
     "Captures WAV audio samples from ESP32 via Serial and saves them";
     "for upload to Edge Impulse.";
     "";
     "Usage:";
     "    python capture_samples.py                    # Interactive mode";
     "    python capture_samples.py hey_bob            # Record one hey_bob sample";
     "    python capture_samples.py noise --count 10   # Record 10 noise samples";
     "";
     "Requirements:";
     "    pip install pyserial";
     "";
     "Setup:";
     "    1. Upload audio_capture.ino to ESP32";
     "    2. Find your COM port (e.g., COM3 on Windows, /dev/ttyUSB0 on Linux)";
     "    3. Update SERIAL_PORT below or pass as argument"
    ]%string.

(** An entry of [serial.tools.list_ports.comports()]. *)
Record port_info := {
  device : pystr;
  description : pystr;
  manufacturer : option pystr
}.

(** [s in [a, b, ...]] for a list of literals. *)
Definition member (s : pystr) (literals : list string) : bool :=
  existsb (fun x => PyStr.eqb s (py x)) literals.

(** [any(x in s for x in [a, b, ...])] *)
Definition any_in (literals : list string) (s : pystr) : bool :=
  existsb (fun x => contains (py x) s) literals.

(** What the functions around [capture_sample] do: its effects, and the
    pauses, prompts and the opening and closing of the port. *)
Inductive event :=
| Do (e : effect)
| Sleep (seconds : Z)                          (* time.sleep(seconds) *)
| Prompt (text : pystr)                        (* input(text) *)
| OpenSerial (port : pystr) (baud timeout : Z) (* serial.Serial(...) *)
| CloseSerial.                                 (* ser.close() *)

Definition say (text : pystr) : event := Do (Print text).

(** What can leave a function of the script. *)
Inductive raised :=
| KeyboardInterrupt
| EOFError
| Other (e : exn).

(** How a call ends. *)
Inductive ending (A : Type) :=
| Returns (a : A)
| Raises (e : raised).
Arguments Returns {A} a.
Arguments Raises {A} e.

Definition prepend {A E} (ev : list E) (r : option (A * list E))
  : option (A * list E) :=
  match r with
  | Some (x, ev') => Some (x, ev ++ ev')
  | None => None
  end.

(** A call of [capture_sample] as the outside lets it go: to its end in a
    world, or until Ctrl+C arrives, with the effects it had by then. *)
Inductive capture_run :=
| Completes (w : world)
| Interrupted (done : list effect).

Definition run_capture (r : capture_run) (label : pystr)
  : option (ending bool * list event) :=
  match r with
  | Interrupted done => Some (Raises KeyboardInterrupt, map Do done)
  | Completes w =>
      match capture_sample w label with
      | None => None
      | Some (Return b, eff) => Some (Returns b, map Do eff)
      | Some (RaiseOSError, eff) => Some (Raises (Other OSError), map Do eff)
      end
  end.

(** What one line typed at a prompt gives: the text, Ctrl+C, or the end of
    the input. *)
Inductive typed :=
| Line (text : pystr)
| CtrlC
| EndOfFile.

(** A sample directory as [os.path.exists] and [os.listdir] find it. *)
Inductive dir_state :=
| Missing
| Listing (names : list pystr)
| Unreadable.                     (* os.listdir raises OSError *)

(** The three counters of the session. *)
Record counts := { hey_bob : Z; noise : Z; unknown : Z }.

(** [f"{n:3d}"] *)
Definition fmt_3d (n : Z) : pystr :=
  let d := dec_Z n in repeat 32%N (3 - length d) ++ d.

(** [show_counts(counts)] *)
Definition show_counts (c : counts) : list event :=
  [say (nl ++ py "  Sample Counts:");
   say (py "    hey_bob: " ++ fmt_3d (hey_bob c) ++ py " / 50-100 recommended");
   say (py "    noise:   " ++ fmt_3d (noise c) ++ py " / 200+ recommended");
   say (py "    unknown: " ++ fmt_3d (unknown c) ++ py " / 30-50 recommended");
   say (py "    " ++ repeat 9472%N 21);
   say (py "    Total:   " ++ fmt_3d (hey_bob c + noise c + unknown c)
          ++ py " samples")].

(** [list_ports()], with what [comports()] gives. *)
Definition list_ports (ports : list port_info) : list event :=
  match ports with
  | [] => [say (py "No serial ports found!")]
  | _ :: _ =>
      [say (nl ++ py "Available serial ports:")]
        ++ map (fun port => say (py "  " ++ device port ++ py ": "
                                   ++ description port)) ports
        ++ [say []]
  end.

(** [batch_record(ser, label, count)]: the loop over [range(count)] from
    index [i] on.  Each round takes the next call of [capture_sample] and,
    when a pause follows, whether [time.sleep] comes to its end. *)
Fixpoint batch_loop (label : pystr) (count i successful : Z)
         (runs : list capture_run) (pauses : list bool)
  : option (ending Z * list event) :=
  if (count <=? i)%Z then Some (Returns successful, [])
  else
    match runs with
    | [] => None
    | r :: runs' =>
        let head := say (nl ++ py "--- Sample " ++ dec_Z (i + 1) ++ py "/"
                           ++ dec_Z count ++ py " ---") in
        let cancelled := say (nl ++ nl ++ py "Batch recording cancelled") in
        match run_capture r label with
        | None => None
        | Some (Raises KeyboardInterrupt, ev) =>
            Some (Returns successful, head :: ev ++ [cancelled])
        | Some (Raises e, ev) => Some (Raises e, head :: ev)
        | Some (Returns b, ev) =>
            let successful' :=
              if b then (successful + 1)%Z else successful in
            if (i <? count - 1)%Z then
              let pause := [say (nl ++ py "Next sample in 2 seconds...");
                            Sleep 2] in
              match pauses with
              | [] => None
              | true :: pauses' =>
                  prepend (head :: ev ++ pause)
                          (batch_loop label count (i + 1) successful'
                                      runs' pauses')
              | false :: _ =>
                  Some (Returns successful',
                        head :: ev ++ pause ++ [cancelled])
              end
            else
              prepend (head :: ev)
                      (batch_loop label count (i + 1) successful'
                                  runs' pauses)
        end
    end.

Definition batch_record (label : pystr) (count : Z)
           (runs : list capture_run) (pauses : list bool)
  : option (ending unit * list event) :=
  let head :=
    [say (nl ++ py "Batch recording " ++ dec_Z count ++ py " '" ++ label
            ++ py "' samples...");
     say (py "Press Ctrl+C to cancel" ++ nl)] in
  match batch_loop label count 0 0 runs pauses with
  | None => None
  | Some (Raises e, ev) => Some (Raises e, head ++ ev)
  | Some (Returns successful, ev) =>
      Some (Returns tt,
            head ++ ev
              ++ [say (nl ++ py "Completed: " ++ dec_Z successful ++ py "/"
                         ++ dec_Z count ++ py " samples recorded")])
  end.

(** The number of names that end in [.wav]. *)
Definition count_wavs (names : list pystr) : Z :=
  Z.of_nat (length (filter (fun f => endswith f (py ".wav")) names)).

(** The count a label starts with: the [.wav] files of its directory, if
    the directory exists. *)
Definition existing (dirs : pystr -> dir_state) (label : string)
  : ending Z :=
  match dirs (PosixPath.join OUTPUT_DIR (py label)) with
  | Missing => Returns 0%Z
  | Listing names => Returns (count_wavs names)
  | Unreadable => Raises (Other OSError)
  end.

Section Builtins.

(** [str.lower()] and [int(str)] follow the interpreter's Unicode tables,
    which are no part of the script: they are parameters.  [int_of] is
    [None] where [int] raises ValueError. *)
Variable lower : pystr -> pystr.
Variable int_of : pystr -> option Z.

Definition by_description (port : port_info) : bool :=
  any_in ["cp210"; "ch340"; "usb"; "serial"]%string
         (lower (description port)).

Definition by_manufacturer (port : port_info) : bool :=
  match manufacturer port with
  | Some m =>
      if PyStr.truthy m
      then any_in ["silicon"; "wch"; "ftdi"]%string (lower m)
      else false
  | None => false
  end.

(** The [for] loop of [find_esp32_port]: the device of the first port
    that looks like an ESP32 adapter. *)
Fixpoint first_likely (ports : list port_info) : option pystr :=
  match ports with
  | [] => None
  | port :: rest =>
      if by_description port then Some (device port)
      else if by_manufacturer port then Some (device port)
      else first_likely rest
  end.

(** [find_esp32_port()], with what [comports()] gives; [None] is
    Python's [None]. *)
Definition find_esp32_port (ports : list port_info) : option pystr :=
  match first_likely ports with
  | Some d => Some d
  | None =>
      match ports with
      | port :: _ => Some (device port)
      | [] => None
      end
  end.

(** The [while True] loop of [interactive_mode]: [keys] are the lines
    typed at the prompts and [runs] the calls of [capture_sample], in
    order.  [None]: the keys are used up and the loop is still running. *)
Fixpoint command_loop (keys : list typed) (c : counts)
         (runs : list capture_run) {struct keys}
  : option (ending counts * list event) :=
  match keys with
  | [] => None
  | key :: keys' =>
      let ask := Prompt (nl ++ py "Command (1/2/3/t/s/q): ") in
      match key with
      | CtrlC | EndOfFile => Some (Returns c, [ask])
      | Line text =>
          let cmd := lower (strip text) in
          let record (label : string) (bumped : counts) :=
            match runs with
            | [] => None
            | r :: runs' =>
                match run_capture r (py label) with
                | None => None
                | Some (Raises e, ev) => Some (Raises e, ask :: ev)
                | Some (Returns true, ev) =>
                    prepend (ask :: ev ++ show_counts bumped)
                            (command_loop keys' bumped runs')
                | Some (Returns false, ev) =>
                    prepend (ask :: ev) (command_loop keys' c runs')
                end
            end in
          if member cmd ["1"; "h"; "hey_bob"]%string then
            record "hey_bob"%string
                   {| hey_bob := hey_bob c + 1; noise := noise c;
                      unknown := unknown c |}
          else if member cmd ["2"; "n"; "noise"]%string then
            record "noise"%string
                   {| hey_bob := hey_bob c; noise := noise c + 1;
                      unknown := unknown c |}
          else if member cmd ["3"; "u"; "unknown"]%string then
            record "unknown"%string
                   {| hey_bob := hey_bob c; noise := noise c;
                      unknown := unknown c + 1 |}
          else if PyStr.eqb cmd (py "t") then
            let test :=
              [ask;
               Do (SerialWrite (py "test" ++ nl));
               say (nl ++ py "Microphone test started on ESP32");
               say (py "Press Enter to stop...");
               Prompt []] in
            match keys' with
            | [] => None
            | Line _ :: keys'' =>
                prepend (test ++ [Do (SerialWrite nl)])
                        (command_loop keys'' c runs)
            | CtrlC :: _ => Some (Raises KeyboardInterrupt, test)
            | EndOfFile :: _ => Some (Raises EOFError, test)
            end
          else if PyStr.eqb cmd (py "s") then
            prepend (ask :: show_counts c) (command_loop keys' c runs)
          else if member cmd ["q"; "quit"; "exit"]%string then
            Some (Returns c, [ask])
          else
            prepend [ask; say (py "Unknown command. Use 1, 2, 3, t, s, or q")]
                    (command_loop keys' c runs)
      end
  end.

(** The outside of a session: the sample directories, the keyboard, the
    calls of [capture_sample] and what [os.path.abspath(OUTPUT_DIR)]
    gives. *)
Record session := {
  sample_dirs : pystr -> dir_state;
  keyboard : list typed;
  captures : list capture_run;
  output_abspath : pystr
}.

(** [interactive_mode(ser)] *)
Definition interactive_mode (s : session)
  : option (ending unit * list event) :=
  let banner :=
    [say (nl ++ repeat 61%N 50);
     say (py "  Interactive Recording Mode");
     say (repeat 61%N 50);
     say (nl ++ py "Commands:");
     say (py "  1 or h  - Record 'hey_bob' sample");
     say (py "  2 or n  - Record 'noise' sample");
     say (py "  3 or u  - Record 'unknown' sample");
     say (py "  t       - Test microphone level");
     say (py "  s       - Show sample counts");
     say (py "  q       - Quit");
     say []] in
  match existing (sample_dirs s) "hey_bob",
        existing (sample_dirs s) "noise",
        existing (sample_dirs s) "unknown" with
  | Returns h, Returns n, Returns u =>
      let c := {| hey_bob := h; noise := n; unknown := u |} in
      match command_loop (keyboard s) c (captures s) with
      | None => None
      | Some (Raises e, ev) => Some (Raises e, banner ++ show_counts c ++ ev)
      | Some (Returns c', ev) =>
          Some (Returns tt,
                banner ++ show_counts c ++ ev
                  ++ [say (nl ++ py "Recording session complete!")]
                  ++ show_counts c'
                  ++ [say (nl ++ py "Samples saved to: " ++ output_abspath s);
                      say (py "Upload these folders to Edge Impulse for training.")])
      end
  | Raises e, _, _ | Returns _, Raises e, _ | Returns _, Returns _, Raises e =>
      Some (Raises e, banner)
  end.

(** What the argument loop of [main] comes to. *)
Inductive parsed :=
| Settings (label : option pystr) (count : Z) (port_override : option pystr)
| ListPorts                       (* --list: list_ports() and return *)
| Help                            (* --help: print(__doc__) and return *)
| Bad (e : exn).                  (* args[i + 1] or int(...) raised *)

(** The [while i < len(args)] loop, from the argument at [i] on. *)
Fixpoint parse_args (args : list pystr) (label : option pystr) (count : Z)
         (port_override : option pystr) : parsed :=
  match args with
  | [] => Settings label count port_override
  | arg :: rest =>
      if member arg ["--port"; "-p"]%string then
        match rest with
        | [] => Bad IndexError
        | value :: rest' => parse_args rest' label count (Some value)
        end
      else if member arg ["--count"; "-c"]%string then
        match rest with
        | [] => Bad IndexError
        | value :: rest' =>
            match int_of value with
            | Some n => parse_args rest' label n port_override
            | None => Bad ValueError
            end
        end
      else if member arg ["--list"; "-l"]%string then ListPorts
      else if member arg ["--help"; "-h"]%string then Help
      else if member arg ["hey_bob"; "noise"; "unknown"]%string then
        parse_args rest (Some arg) count port_override
      else parse_args rest label count port_override
  end.

(** The outside of [main]: what [comports()] gives when the port is looked
    for and when the ports are listed, the message of the SerialException
    if the port does not open, the pauses of a batch, and the session. *)
Record machine := {
  ports_found : list port_info;
  ports_listed : list port_info;
  serial_error : option pystr;
  pauses : list bool;
  desk : session
}.

(** The body of the [try] ... [finally] of [main], once the port is open. *)
Definition dispatch (m : machine) (label : option pystr) (count : Z)
  : option (ending unit * list event) :=
  match label with
  | Some l =>
      if PyStr.truthy l then
        if (1 <? count)%Z then
          batch_record l count (captures (desk m)) (pauses m)
        else
          match captures (desk m) with
          | [] => None
          | r :: _ =>
              match run_capture r l with
              | None => None
              | Some (Returns _, ev) => Some (Returns tt, ev)
              | Some (Raises e, ev) => Some (Raises e, ev)
              end
          end
      else interactive_mode (desk m)
  | None => interactive_mode (desk m)
  end.

(** [main()] with the module's [SERIAL_PORT] bound to [serial_port] and
    [sys.argv[1:]] to [args]. *)
Definition main_with (serial_port : option pystr) (m : machine)
           (args : list pystr) : option (ending unit * list event) :=
  match parse_args args None 1 None with
  | Bad e => Some (Raises (Other e), [])
  | ListPorts => Some (Returns tt, list_ports (ports_listed m))
  | Help => Some (Returns tt, [say DOC])
  | Settings label count port_override =>
      let configured :=
        match serial_port with
        | None => find_esp32_port (ports_found m)
        | Some _ => serial_port
        end in
      let port :=
        match port_override with
        | Some p => if PyStr.truthy p then Some p else configured
        | None => configured
        end in
      match port with
      | None | Some [] =>
          Some (Returns tt,
                [say (py "ERROR: No serial port found!");
                 say (py "Use --port to specify, or --list to see available ports")]
                  ++ list_ports (ports_listed m))
      | Some p =>
          let chosen := say (py "Using serial port: " ++ p) in
          let opening := OpenSerial p BAUD_RATE 1 in
          match serial_error m with
          | Some e =>
              Some (Returns tt,
                    [chosen; opening;
                     say (py "ERROR: Could not open serial port: " ++ e)])
          | None =>
              let opened :=
                [chosen; opening; say (py "Connected to ESP32"); Sleep 2;
                 Do ResetInputBuffer] in
              let closed :=
                [CloseSerial; say (nl ++ py "Serial connection closed")] in
              match dispatch m label count with
              | None => None
              | Some (r, ev) => Some (r, opened ++ ev ++ closed)
              end
          end
      end
  end.

End Builtins.

(** [main()] as shipped. *)
Definition main (lower : pystr -> pystr) (int_of : pystr -> option Z)
  : machine -> list pystr -> option (ending unit * list event) :=
  main_with lower int_of SERIAL_PORT.

End CaptureScript.

(* ================================================================== *)
(** * [LLMtesting/test_groq_stt.py]: a folder of recordings *)
(* ================================================================== *)

Module SttScript.

Import TestGroqStt.

(** A file [folder.glob("*.wav")] gives: its name, the path [str(wav_file)]
    and the outside of the call of [transcribe_audio] on it. *)
Record wav_file := { name : pystr; path : pystr; call : world }.

(** The outside of [transcribe_folder]: whether the folder exists, and the
    files the glob finds, in its order. *)
Record folder := { folder_exists : bool; wav_files : list wav_file }.

(** [{"file": name, "text": text}] *)
Definition text_record (name : pystr) (text : pyval) : pyval :=
  PDict [(py "file", PStr name); (py "text", text)].

(** [{"file": name, "text": None, "error": True}] *)
Definition failed_record (name : pystr) : pyval :=
  PDict [(py "file", PStr name); (py "text", PNone);
         (py "error", PBool true)].

(** [len([r for r in results if r.get('text')])] *)
Fixpoint completed (results : list pyval) : res N :=
  match results with
  | [] => Ok 0%N
  | r :: rest =>
      bind (get r (py "text") PNone) (fun text =>
      bind (completed rest) (fun k =>
        Ok (if truthy text then (k + 1)%N else k)))
  end.

(** The line of sixty [=]. *)
Definition RULE : pystr := repeat 61%N 60.

(** The [for] loop of [transcribe_folder], from the [i]-th file on. *)
Fixpoint transcribe_each (key model : pystr) (total i : N)
         (files : list wav_file) (results : list pyval)
  : res (list pyval) * list effect :=
  match files with
  | [] => (Ok results, [])
  | f :: rest =>
      let head := Print [Lit (nl ++ py "["); Lit (dec i); Lit (py "/");
                         Lit (dec total); Lit (py "] "); Lit (name f)] in
      let (result, e1) :=
        transcribe_audio_with key (call f) (path f) model in
      if truthy result then
        match get result (py "text") (PStr []) with
        | Err e => (Err e, head :: e1)
        | Ok text =>
            let (r, e2) :=
              transcribe_each key model total (i + 1) rest
                              (results ++ [text_record (name f) text]) in
            (r, head :: e1
                  ++ Print [Lit (pyq "    -> `"); fmt text; Lit (pyq "`")]
                  :: e2)
        end
      else
        let (r, e2) :=
          transcribe_each key model total (i + 1) rest
                          (results ++ [failed_record (name f)]) in
        (r, head :: e1 ++ Print [Lit (py "    -> FAILED")] :: e2)
  end.

(** [transcribe_folder(folder_path, model)] with the module's key bound to
    [key]: the list returned ([PNone] for [None]) or the exception that
    leaves the call, and the effects. *)
Definition transcribe_folder_with (key : pystr) (fd : folder)
           (folder_path model : pystr) : res pyval * list effect :=
  if negb (folder_exists fd) then
    (Ok PNone,
     [Print [Lit (py "ERROR: Folder not found: "); Lit folder_path]])
  else
    match wav_files fd with
    | [] =>
        (Ok PNone,
         [Print [Lit (py "No WAV files found in "); Lit folder_path]])
    | _ :: _ =>
        let total := N.of_nat (length (wav_files fd)) in
        let head :=
          [Print [Lit (nl ++ py "Transcribing "); Lit (dec total);
                  Lit (py " files from "); Lit folder_path; Lit nl];
           Print [Lit RULE]] in
        match transcribe_each key model total 1 (wav_files fd) [] with
        | (Err e, eff) => (Err e, head ++ eff)
        | (Ok results, eff) =>
            let rule := Print [Lit (nl ++ RULE)] in
            match completed results with
            | Err e => (Err e, head ++ eff ++ [rule])
            | Ok k =>
                (Ok (PList results),
                 head ++ eff
                   ++ [rule;
                       Print [Lit (py "Completed: "); Lit (dec k);
                              Lit (py " / "); Lit (dec total)]])
            end
        end
    end.

(** [transcribe_folder] as shipped. *)
Definition transcribe_folder
  : folder -> pystr -> pystr -> res pyval * list effect :=
  transcribe_folder_with GROQ_API_KEY.

End SttScript.

(* ================================================================== *)
(** * [test_voice_pipeline.py]: the pipeline from audio to actions *)
(* ================================================================== *)

Module PipelineScript.

Import TestVoicePipeline.

(** The key as the script ships it, and the literal [check_api_key]
    compares the key with. *)
Definition GROQ_API_KEY : pystr := py "YOUR_GROQ_API_KEY_HERE".
Definition PLACEHOLDER : pystr := py "YOUR_GROQ_API_KEY_HERE".

Definition WHISPER_URL : pystr :=
  py "https://api.groq.com/openai/v1/audio/transcriptions".
Definition WHISPER_MODEL : pystr := py "whisper-large-v3".

(** The line of [n] characters [=]. *)
Definition rule (n : nat) : pystr := repeat 61%N n.


(** The outside of one call of [transcribe_audio]: whether a path exists,
    whether the file opens, what the request gives, and the two readings
    of the clock around it. *)
Record studio := {
  path_exists : pystr -> bool;
  open_ok : bool;
  heard : post_result;
  heard_before : float;
  heard_after : float
}.

Definition whisper_request (key audio_path : pystr) : request :=
  {| url := WHISPER_URL;
     authorization := py "Bearer " ++ key;
     upload := Some (basename audio_path, py "audio/wav");
     form := [(py "model", WHISPER_MODEL); (py "language", py "en")];
     body := PNone;
     timeout := 30 |}.

(** [v.strip()]: only a string has it. *)
Definition str_strip (v : pyval) : res pystr :=
  match v with
  | PStr s => Ok (strip s)
  | _ => Err AttributeError
  end.

(** [transcribe_audio(audio_path)] with the module's key bound to [key]:
    the text returned, [None] for Python's [None], and the effects. *)
Definition transcribe_audio (key : pystr) (w : studio) (audio_path : pystr)
  : option pystr * list effect :=
  let head := Print [Lit (py "[1/3] Transcribing audio: ");
                     Lit (basename audio_path)] in
  if negb (path_exists w audio_path) then
    (None,
     [head;
      Print [Lit (py "      ERROR: File not found: "); Lit audio_path]])
  else if negb (open_ok w) then (None, [head; error_line OSError])
  else
    let sent := Post (whisper_request key audio_path) in
    match heard w with
    | PostRaised e => (None, [head; sent; error_line e])
    | PostReturned r =>
        if (status_code r =? 200)%Z then
          match bind (json r) (fun result =>
                bind (get result (py "text") (PStr [])) str_strip) with
          | Err e => (None, [head; sent; error_line e])
          | Ok text =>
              (Some text,
               [head; sent;
                Print [Lit (pyq "      Transcription: `"); Lit text;
                       Lit (pyq "`")];
                Print [Lit (py "      Time: ");
                       Lit (PyFloat.format_2f
                              (PrimFloat.sub (heard_after w)
                                             (heard_before w)));
                       Lit (py "s")]])
          end
        else
          (None,
           [head; sent;
            Print [Lit (py "      ERROR: API returned ");
                   Lit (dec_Z (status_code r))];
            Print [Lit (py "      "); Lit (PyVal.text r)]])
    end.





End PipelineScript.

(* ================================================================== *)
(** * Vocabulary of the statements *)
(* ================================================================== *)

Module CaptureSpec.

Import CaptureSamples.

(** The text before the first [sep], and the text after it. *)
Fixpoint upto (sep : N) (s : pystr) : pystr :=
  match s with
  | [] => []
  | c :: s' => if N.eqb c sep then [] else c :: upto sep s'
  end.

Fixpoint after (sep : N) (s : pystr) : pystr :=
  match s with
  | [] => []
  | c :: s' => if N.eqb c sep then s' else after sep s'
  end.

(** The segment of a line between its first colon and the next one, or
    the end of the line. *)
Definition segment_after_first_colon (line : pystr) : pystr :=
  upto 58 (after 58 line).

(** The line the loop body works on in a pass: the stripped text when it is
    not empty; none when the read raised or gave only whitespace. *)
Definition line_of (a : attempt) : option pystr :=
  match rx a with
  | ReadRaised _ => None
  | ReadText text =>
      let line := strip text in
      if PyStr.truthy line then Some line else None
  end.

(** The lines a run of passes delivers, in order. *)
Definition lines_of (l : list attempt) : list pystr :=
  flat_map (fun a => match line_of a with
                     | Some line => [line]
                     | None => []
                     end) l.

(** A pass whose clock is within the deadline. *)
Definition in_time (start : float) (a : attempt) : Prop :=
  deadline_passed start (now a) = false.

Definition is_start_marker (line : pystr) : bool :=
  startswith line WAV_START.

(** A line that ends the loop: it holds the end sentinel and is not
    taken as a start marker. *)
Definition is_end_marker (line : pystr) : bool :=
  negb (startswith line WAV_START) && contains WAV_END line.

(** A pass that delivers no marker: a failed read, an empty line, or a
    line that neither starts with the start prefix nor holds the end
    sentinel. *)
Definition quiet (a : attempt) : Prop :=
  match line_of a with
  | None => True
  | Some line => startswith line WAV_START = false
                 /\ contains WAV_END line = false
  end.

(** A pass that does not end the loop. *)
Definition goes_on (a : attempt) : Prop :=
  match line_of a with
  | None => True
  | Some line => is_end_marker line = false
  end.

Definition is_print (e : effect) : bool :=
  match e with
  | Print _ => true
  | _ => false
  end.

(** The effects on the file system, in order. *)
Definition fs_effects (eff : list effect) : list effect :=
  filter (fun e => match e with
                   | MakeDirs _ | WriteFile _ _ => true
                   | _ => false
                   end) eff.

(** The files written, in order. *)
Definition files_written (eff : list effect) : list (pystr * list byte) :=
  flat_map (fun e => match e with
                     | WriteFile p d => [(p, d)]
                     | _ => []
                     end) eff.

(** The loop's variables after a run of quiet passes delivering [ls]. *)
Definition absorb (st : locals) (ls : list pystr) : locals :=
  {| capturing := capturing st;
     hex_data := if capturing st then hex_data st ++ concat ls
                 else hex_data st;
     actual_label := actual_label st |}.

(** The loop's variables after a start marker [line]. *)
Definition started (st : locals) (line : pystr) : locals :=
  {| capturing := true;
     hex_data := hex_data st;
     actual_label := if contains (py ":") line then marker_label line
                     else actual_label st |}.

(** The characters of a hex string that are not whitespace. *)
Definition digits_of (s : pystr) : pystr :=
  filter (fun c => negb (Hex.is_ascii_space c)) s.

(** The path the layout [training_samples/<label>/<label>_<stamp>.wav]
    names. *)
Definition layout_path (label stamp : pystr) : pystr :=
  py "training_samples/" ++ label ++ py "/" ++ label ++ py "_" ++ stamp
    ++ py ".wav".

End CaptureSpec.

Import CaptureSpec.

(** Concrete runs, used to exercise the statements below. *)
Module Examples.

Import CaptureSamples.

Definition stamp : datetime :=
  {| year := 2026; month := 1; day := 2; hour := 3; minute := 4;
     second := 5 |}.

(** A pass at clock [t] that reads [text]. *)
Definition pass (t : float) (text : string) : attempt :=
  {| now := t; rx := ReadText (py text ++ nl) |}.

(** A world that starts at clock 100 and goes through [passes]. *)
Definition world_of (passes : list attempt) : world :=
  {| start_time := 100%float;
     attempts := passes;
     wall_clock := stamp;
     makedirs_ok := true;
     open_ok := true;
     fromhex_error := fun _ => py "non-hexadecimal number found" |}.

Definition boot : attempt := pass 101 "ESP32 ready".
Definition noise_pass : attempt := {| now := 102%float; rx := ReadRaised (py "device busy") |}.
Definition blank : attempt := pass 102 "   ".
Definition start_plain : attempt := pass 103 "---WAV_START---".
Definition start_hey_bob : attempt := pass 103 "---WAV_START:hey_bob---".
Definition start_abs : attempt := pass 103 "---WAV_START:/tmp/x---".
Definition finish : attempt := pass 110 "---WAV_END---".
Definition late : attempt := pass 115.5 "abcd".

(** A payload of [n] zero bytes, sent as one line. *)
Definition zeros (n : N) : attempt :=
  {| now := 104%float;
     rx := ReadText (repeat 48%N (N.to_nat (2 * n)) ++ nl) |}.

(** An end marker straight after the start marker. *)
Definition empty_run : world := world_of [start_plain; finish].

(** A payload line with a space between two bytes. *)
Definition spaced_run : world :=
  world_of [start_plain; pass 104 "ab cd"; finish].

(** A start marker that carries an absolute path as its label. *)
Definition abs_label_run : world :=
  world_of [boot; start_abs; pass 104 "00"; finish].

(** A start marker that carries an empty label. *)
Definition no_label_run : world :=
  world_of [pass 103 "---WAV_START:---"; pass 104 "00"; finish].

(** A payload of exactly the 44 bytes of a header, and one of a header
    and one second of samples. *)
Definition header_only_run : world :=
  world_of [boot; start_hey_bob; zeros 44; finish].

Definition one_second_run : world :=
  world_of [boot; start_hey_bob; zeros 20000; zeros 12044; finish].

End Examples.

Module PipelineExamples.

Import TestVoicePipeline.




(** A world of the speech-to-text script in which no file exists, and one
    in which every file exists, opens, and the request times out. *)
Definition no_file : TestGroqStt.world :=
  {| TestGroqStt.path_exists := fun _ => false;
     TestGroqStt.open_ok := true;
     TestGroqStt.post := PostRaised RequestTimeout |}.

Definition slow_server : TestGroqStt.world :=
  {| TestGroqStt.path_exists := fun _ => true;
     TestGroqStt.open_ok := true;
     TestGroqStt.post := PostRaised RequestTimeout |}.

End PipelineExamples.

(* ================================================================== *)
(** * Vocabulary of the statements about the scripts *)
(* ================================================================== *)

Module ScriptSpec.

Import CaptureSamples.
Import CaptureScript.

(** The loop's variables when a run of lines breaks the loop; none when
    the lines are used up first. *)
Fixpoint run_lines (st : locals) (lines : list pystr) : option locals :=
  match lines with
  | [] => None
  | line :: rest =>
      match fst (on_line st line) with
      | Next st' => run_lines st' rest
      | Stop st' => Some st'
      end
  end.

(** What a pass prints when it brings no marker: the complaint about a
    failed read, and the echo of a line unless the loop is capturing. *)
Definition report (capturing : bool) (a : attempt) : list effect :=
  match rx a with
  | ReadRaised e => [Print (py "Read error: " ++ e)]
  | ReadText text =>
      if PyStr.truthy (strip text) && negb capturing
      then [Print (py "  " ++ strip text)]
      else []
  end.

(** A hex digit in lower case. *)
Definition lower_hex (c : N) : N :=
  (if (65 <=? c) && (c <=? 70) then c + 32 else c)%N.


(** The effects of [capture_sample] among the events. *)
Definition effects_of (ev : list event) : list effect :=
  flat_map (fun e => match e with Do x => [x] | _ => [] end) ev.

(** The commands written to the port, and the pauses, in order. *)
Definition commands_of (eff : list effect) : list pystr :=
  flat_map (fun e => match e with SerialWrite t => [t] | _ => [] end) eff.

Definition pauses_of (ev : list event) : list Z :=
  flat_map (fun e => match e with Sleep s => [s] | _ => [] end) ev.

(** A call of [capture_sample] that Ctrl+C does not cut short. *)
Definition completes (r : capture_run) : Prop :=
  match r with
  | Completes _ => True
  | Interrupted _ => False
  end.


(** The labels the script knows. *)
Definition LABELS : list string := ["hey_bob"; "noise"; "unknown"]%string.

(** The commands the script has for the device: a label, the microphone
    test, and the empty line that stops the test. *)
Definition COMMANDS : list pystr :=
  map (fun l => py l ++ nl) (LABELS ++ ["test"; ""]%string).

(** The arguments the loop of [main] takes as options. *)
Definition is_option (arg : pystr) : bool :=
  member arg ["--port"; "-p"; "--count"; "-c"; "--list"; "-l"; "--help";
              "-h"]%string.

(** The sum of the three counters. *)
Definition total (c : counts) : Z := (hey_bob c + noise c + unknown c)%Z.

(** The requests among the effects of the HTTP scripts, in order. *)
Definition posts (eff : list Http.effect) : list request :=
  flat_map (fun e => match e with Http.Post r => [r] | _ => [] end) eff.


(** A value that is no dict. *)
Definition no_dict (v : pyval) : Prop :=
  match v with
  | PDict _ => False
  | _ => True
  end.

(** A number, or a value that is false. *)
Definition number_or_false (v : pyval) : bool :=
  match v with
  | PNone | PBool _ | PInt _ | PFloat _ => true
  | _ => negb (truthy v)
  end.

(** An action the loop of [execute_actions] can carry out: a dict whose
    value, when its type is [ac_temp], is a number or false. *)
Definition plain_action (a : pyval) : Prop :=
  match a with
  | PDict d =>
      lookup (py "type") d = Some (PStr (py "ac_temp")) ->
      number_or_false (match lookup (py "value") d with
                       | Some v => v
                       | None => PNone
                       end) = true
  | _ => False
  end.

(** The lines printed among them, in order. *)
Definition printed (eff : list Http.effect) : list (list frag) :=
  flat_map (fun e => match e with Http.Print l => [l] | _ => [] end) eff.

End ScriptSpec.

Import ScriptSpec.

(** Concrete runs of the scripts. *)
Module ScriptExamples.

Import CaptureSamples.
Import CaptureScript.
Import Examples.

(** An instance of [str.lower()] for the examples: on ASCII text, the only
    text the examples give it, it is what the interpreter computes. *)
Definition ascii_lower (s : pystr) : pystr :=
  map (fun c => if (65 <=? c) && (c <=? 90) then c + 32 else c)%N s.

(** An instance of [int(s)] for the examples: on a run of ASCII digits,
    the only numbers the examples give it, it is what the interpreter
    computes; any other text is refused here. *)
Definition ascii_int (s : pystr) : option Z :=
  match s with
  | [] => None
  | _ :: _ =>
      if forallb Json.is_digit s then Some (Json.digits_value s) else None
  end.

(** Two rounds of a batch: a capture of a header alone, which succeeds,
    and an empty one, which fails. *)
Definition two_rounds : list capture_run :=
  [Completes header_only_run; Completes empty_run].


(** A session at the keyboard: [hey_bob] holds two recordings and a text
    file, the other directories are missing. *)
Definition desk_of (keys : list typed) (runs : list capture_run) : session :=
  {| sample_dirs :=
       fun d => if PyStr.eqb d (py "training_samples/hey_bob")
                then Listing [py "a.wav"; py "notes.txt"; py "b.wav"]
                else Missing;
     keyboard := keys;
     captures := runs;
     output_abspath := py "/home/bob/training_samples" |}.

(** A machine with one adapter, on which the port opens. *)
Definition bench (keys : list typed) (runs : list capture_run) : machine :=
  {| ports_found :=
       [{| device := py "/dev/ttyUSB0";
           description := py "CP2102 USB to UART Bridge Controller";
           manufacturer := Some (py "Silicon Labs") |}];
     ports_listed := [];
     serial_error := None;
     pauses := [true];
     desk := desk_of keys runs |}.

(** A world of the speech-to-text script in which every file exists and
    opens, and the request is answered with status 200 and the body [v]. *)
Definition replying (v : pyval) : TestGroqStt.world :=
  {| TestGroqStt.path_exists := fun _ => true;
     TestGroqStt.open_ok := true;
     TestGroqStt.post :=
       PostReturned {| status_code := 200; text := []; json := Ok v |} |}.

(** The body [{"text": t}]. *)
Definition said (t : string) : pyval := PDict [(py "text", PStr (py t))].

Definition recording (n : string) (w : TestGroqStt.world)
  : SttScript.wav_file :=
  {| SttScript.name := py n;
     SttScript.path := py "samples/" ++ py n;
     SttScript.call := w |}.


(** A folder whose second recording is answered with a JSON array. *)
Definition odd_reply : SttScript.folder :=
  {| SttScript.folder_exists := true;
     SttScript.wav_files :=
       [recording "a.wav" (replying (said "hey bob"));
        recording "b.wav" (replying (PList [PStr (py "hey bob")]));
        recording "c.wav" (replying (said "noise"))] |}.

(** A studio in which the recording exists and opens, and the request is
    answered with status 200 and the body [v]. *)
Definition hearing (v : pyval) : PipelineScript.studio :=
  {| PipelineScript.path_exists := fun _ => true;
     PipelineScript.open_ok := true;
     PipelineScript.heard :=
       PostReturned {| status_code := 200; text := []; json := Ok v |};
     PipelineScript.heard_before := 1%float;
     PipelineScript.heard_after := 1.25%float |}.


End ScriptExamples.

(* ================================================================== *)
(** * Strings *)
(* ================================================================== *)

Section StringFacts.

Lemma eqb_eq (a b : pystr) : PyStr.eqb a b = true <-> a = b.
Proof.
  revert b. induction a as [|x a IH]; intros [|y b]; simpl;
    try (split; [discriminate|discriminate]); [tauto|].
  rewrite andb_true_iff, N.eqb_eq, IH. split.
  - now intros [-> ->].
  - now intros [= -> ->].
Qed.

Lemma startswith_cons (s p : pystr) (c : N) :
  startswith s (c :: p) = true ->
  exists t, s = c :: t /\ startswith t p = true.
Proof.
  destruct s as [|d t]; simpl; [discriminate|].
  intros H. apply andb_true_iff in H as [Hc Hp].
  apply N.eqb_eq in Hc. subst d. now exists t.
Qed.

Lemma startswith_head_neq (s p : pystr) (c d : N) :
  c <> d -> startswith (d :: s) (c :: p) = false.
Proof.
  intros H. simpl. apply N.eqb_neq in H. now rewrite H.
Qed.

Lemma contains_In (c : N) (p s : pystr) :
  contains (c :: p) s = true -> In c s.
Proof.
  induction s as [|d s IH]; simpl.
  - discriminate.
  - intros H. apply orb_true_iff in H as [H|H].
    + apply andb_true_iff in H as [H _]. apply N.eqb_eq in H. now left.
    + right. now apply IH.
Qed.

Lemma In_contains_char (c : N) (s : pystr) :
  In c s -> contains [c] s = true.
Proof.
  induction s as [|d s IH]; simpl; [tauto|].
  intros [->|H].
  - now rewrite N.eqb_refl.
  - rewrite (IH H). apply orb_true_r.
Qed.

Lemma contains_char_iff (c : N) (s : pystr) :
  contains [c] s = true <-> In c s.
Proof.
  split; [apply contains_In | apply In_contains_char].
Qed.

Lemma split_head (sep : N) (s : pystr) :
  exists segs, split sep s = upto sep s :: segs.
Proof.
  induction s as [|c s [segs IH]]; simpl.
  - now exists [].
  - destruct (N.eqb c sep).
    + now eexists.
    + rewrite IH. now eexists.
Qed.

Lemma split_tail (sep : N) (s : pystr) :
  In sep s -> tl (split sep s) = split sep (after sep s).
Proof.
  induction s as [|c s IH]; simpl; [tauto|].
  intros H. destruct (N.eqb c sep) eqn:E; [reflexivity|].
  destruct H as [H|H]; [subst c; now rewrite N.eqb_refl in E|].
  specialize (IH H).
  destruct (split_head sep s) as [segs Hs]. rewrite Hs in *. simpl in *.
  exact IH.
Qed.

(** The second element of [line.split(":")] is the text between the first
    colon and the next. *)
Lemma split_second (s : pystr) :
  In 58%N s -> nth 1 (split 58 s) [] = segment_after_first_colon s.
Proof.
  intros H. pose proof (split_tail 58 s H) as Ht.
  destruct (split_head 58 s) as [segs Hs]. rewrite Hs in *. simpl in Ht.
  destruct (split_head 58 (after 58 s)) as [segs' Hs'].
  simpl. rewrite Ht, Hs'. reflexivity.
Qed.

Lemma replace_from_skip (old new : pystr) (s : pystr) :
  forall k, replace_from old new k s = replace_from old new 0 (skipn k s).
Proof.
  induction s as [|c s IH]; intros k.
  - now destruct k.
  - destruct k as [|k]; [reflexivity|]. simpl. apply IH.
Qed.

(** Removing the dashes, one step at a time. *)
Lemma remove_dashes_cons (c : N) (s : pystr) :
  replace (c :: s) (py "---") []
  = if startswith (c :: s) (py "---")
    then replace (skipn 2 s) (py "---") []
    else c :: replace s (py "---") [].
Proof.
  unfold replace. change (py "---") with [45%N; 45%N; 45%N].
  cbn [replace_from]. destruct (startswith (c :: s) [45%N; 45%N; 45%N]).
  - cbn [length Nat.sub app]. apply replace_from_skip.
  - reflexivity.
Qed.

Lemma startswith_step (c d : N) (s p : pystr) :
  startswith (c :: s) (d :: p) = N.eqb d c && startswith s p.
Proof. reflexivity. Qed.

(** After [replace("---", "")] no [---] is left. *)
Lemma remove_dashes_shape (n : nat) :
  forall s, (length s <= n)%nat ->
  contains (py "---") (replace s (py "---") []) = false
  /\ (startswith s [45%N; 45%N] = false ->
      startswith (replace s (py "---") []) [45%N; 45%N] = false)
  /\ (startswith s [45%N] = false ->
      startswith (replace s (py "---") []) [45%N] = false).
Proof.
  induction n as [|n IH]; intros s Hn.
  - destruct s; [|simpl in Hn; lia]. now repeat split.
  - destruct s as [|c s']; [now repeat split|]. simpl in Hn.
    rewrite remove_dashes_cons.
    destruct (IH s' ltac:(lia)) as (H1 & H2 & H3).
    change (py "---") with [45%N; 45%N; 45%N] in *.
    rewrite (startswith_step c 45 s' [45%N; 45%N]).
    rewrite (startswith_step c 45 s' [45%N]).
    rewrite (startswith_step c 45 s' []).
    destruct (N.eqb_spec 45 c) as [<-|Hc]; cbn [andb].
    + destruct (startswith s' [45%N; 45%N]) eqn:Hdd.
      * assert (Hlen : (length (skipn 2 s') <= n)%nat)
          by (rewrite length_skipn; lia).
        destruct (IH (skipn 2 s') Hlen) as (K1 & _ & _).
        split; [exact K1|]. split; intros Hx; exfalso.
        -- destruct s' as [|d s'']; [discriminate|].
           rewrite (startswith_step d 45 s'' [45%N]) in Hdd.
           rewrite (startswith_step d 45 s'' []) in Hx.
           destruct (45 =? d)%N; discriminate.
        -- discriminate.
      * split; [|split].
        -- cbn [contains].
           rewrite (startswith_step 45 45 _ [45%N; 45%N]), N.eqb_refl.
           cbn [andb]. rewrite (H2 eq_refl), H1. reflexivity.
        -- intros Hx.
           rewrite (startswith_step 45 45 _ [45%N]), N.eqb_refl.
           cbn [andb]. now apply H3.
        -- intros Hx. discriminate.
    + assert (Hne : (45 =? c)%N = false) by now apply N.eqb_neq.
      split; [|split].
      * cbn [contains].
        rewrite (startswith_step c 45 _ [45%N; 45%N]), Hne.
        cbn [andb orb]. exact H1.
      * intros _. now rewrite (startswith_step c 45 _ [45%N]), Hne.
      * intros _. now rewrite (startswith_step c 45 _ []), Hne.
Qed.

Lemma remove_dashes_gone (s : pystr) :
  contains (py "---") (replace s (py "---") []) = false.
Proof. apply (remove_dashes_shape (length s) s (le_n _)). Qed.

Lemma startswith_app (s t p : pystr) :
  startswith s p = true -> startswith (s ++ t) p = true.
Proof.
  revert s. induction p as [|c p IH]; intros s; [reflexivity|].
  destruct s as [|d s]; simpl; [discriminate|].
  intros H. apply andb_true_iff in H as [-> H]. now rewrite IH.
Qed.

Lemma contains_app_l (p s t : pystr) :
  contains p s = true -> contains p (s ++ t) = true.
Proof.
  induction s as [|d s IH]; simpl.
  - rewrite orb_false_r. intros H. destruct p; [|discriminate].
    now destruct t.
  - intros H. apply orb_true_iff in H as [H|H].
    + change (d :: s ++ t) with ((d :: s) ++ t).
      now rewrite (startswith_app (d :: s) t p H).
    + rewrite (IH H). apply orb_true_r.
Qed.

Lemma contains_app_r (p s t : pystr) :
  contains p t = true -> contains p (s ++ t) = true.
Proof.
  intros H. induction s as [|d s IH]; [exact H|].
  simpl. rewrite IH. apply orb_true_r.
Qed.

Lemma lstrip_suffix (s : pystr) : exists t, s = t ++ lstrip s.
Proof.
  induction s as [|c s [t IH]]; [now exists []|]. simpl.
  destruct (isspace c).
  - exists (c :: t). simpl. now rewrite <- IH.
  - now exists [].
Qed.

Lemma rstrip_prefix (s : pystr) : exists t, s = rstrip s ++ t.
Proof.
  induction s as [|c s [t IH]]; [now exists []|]. simpl.
  destruct (rstrip s) as [|d r] eqn:Hr.
  - destruct (isspace c).
    + now exists (c :: s).
    + exists s. reflexivity.
  - exists t. simpl. now rewrite IH at 1.
Qed.

(** Stripping adds no occurrence. *)
Lemma contains_strip (p s : pystr) :
  contains p s = false -> contains p (strip s) = false.
Proof.
  intros H. destruct (contains p (strip s)) eqn:Hs; [|reflexivity].
  unfold strip in Hs.
  destruct (rstrip_prefix (lstrip s)) as [t Ht].
  destruct (lstrip_suffix s) as [u Hu].
  assert (contains p s = true).
  { rewrite Hu. apply contains_app_r. rewrite Ht.
    now apply contains_app_l. }
  congruence.
Qed.

End StringFacts.

(* ================================================================== *)
(** * Hexadecimal text *)
(* ================================================================== *)

Section HexFacts.

(** The two digits written for a byte read back as that byte. *)
Lemma hex_byte (upper : bool) (x : byte) :
  let n := Byte.to_N x in
  let hi := Hex.digit upper (n / 16) in
  let lo := Hex.digit upper (n mod 16) in
  Hex.is_ascii_space hi = false
  /\ Hex.digit_value hi = Some (n / 16)%N
  /\ Hex.digit_value lo = Some (n mod 16)%N
  /\ Hex.byte_of (n / 16) (n mod 16) = x
  /\ (hi <? 128)%N = true /\ (lo <? 128)%N = true.
Proof.
  destruct upper, x; vm_compute; repeat split; reflexivity.
Qed.

Lemma fromhex_scan_hex (upper : bool) (b : list byte) :
  Hex.fromhex_scan (Hex.hex_of upper b) = Some b.
Proof.
  induction b as [|x b IH]; [reflexivity|].
  destruct (hex_byte upper x) as (Hs & Hhi & Hlo & Hb & _).
  cbn zeta in *.
  change (Hex.hex_of upper (x :: b))
    with (Hex.digit upper (Byte.to_N x / 16)
          :: Hex.digit upper (Byte.to_N x mod 16) :: Hex.hex_of upper b).
  cbn [Hex.fromhex_scan]. rewrite Hs, Hhi, Hlo, IH, Hb. reflexivity.
Qed.

Lemma hex_ascii (upper : bool) (b : list byte) :
  forallb (fun c => (c <? 128)%N) (Hex.hex_of upper b) = true.
Proof.
  induction b as [|x b IH]; [reflexivity|].
  destruct (hex_byte upper x) as (_ & _ & _ & _ & H1 & H2).
  cbn zeta in *.
  change (Hex.hex_of upper (x :: b))
    with (Hex.digit upper (Byte.to_N x / 16)
          :: Hex.digit upper (Byte.to_N x mod 16) :: Hex.hex_of upper b).
  cbn [forallb]. now rewrite H1, H2, IH.
Qed.

(** Decoding inverts encoding, in either case of the digits. *)
Lemma fromhex_hex (upper : bool) (b : list byte) :
  Hex.fromhex (Hex.hex_of upper b) = Some b.
Proof.
  unfold Hex.fromhex. rewrite hex_ascii. apply fromhex_scan_hex.
Qed.

Lemma hex_chars (upper : bool) (b : list byte) (c : N) :
  In c (Hex.hex_of upper b) -> Hex.digit_value c <> None.
Proof.
  induction b as [|x b IH]; [intros []|].
  destruct (hex_byte upper x) as (_ & Hhi & Hlo & _).
  cbn zeta in *.
  change (Hex.hex_of upper (x :: b))
    with (Hex.digit upper (Byte.to_N x / 16)
          :: Hex.digit upper (Byte.to_N x mod 16) :: Hex.hex_of upper b).
  intros [<-|[<-|H]]; [congruence | congruence | now apply IH].
Qed.

Lemma hex_nonempty (upper : bool) (b : list byte) :
  b <> [] -> PyStr.truthy (Hex.hex_of upper b) = true.
Proof.
  destruct b as [|x b]; [congruence|reflexivity].
Qed.

(** What an accepted hex string looks like: its characters other than
    whitespace come in pairs, one pair per byte, and each is a digit. *)
Lemma fromhex_scan_shape (n : nat) :
  forall s bs, (length s <= n)%nat ->
  Hex.fromhex_scan s = Some bs ->
  length (digits_of s) = (2 * length bs)%nat
  /\ Forall (fun c => Hex.is_ascii_space c = true
                      \/ Hex.digit_value c <> None) s.
Proof.
  induction n as [|n IH]; intros s bs Hn H.
  - destruct s; [|simpl in Hn; lia]. injection H as <-. now split.
  - destruct s as [|c s1]; [injection H as <-; now split|].
    cbn [Hex.fromhex_scan] in H. unfold digits_of. cbn [filter].
    destruct (Hex.is_ascii_space c) eqn:Hc.
    + simpl in Hn. destruct (IH s1 bs ltac:(lia) H) as [H1 H2].
      split; [exact H1|]. constructor; [now left|exact H2].
    + destruct (Hex.digit_value c) as [top|] eqn:Htop; [|discriminate].
      destruct s1 as [|d s2]; [discriminate|].
      destruct (Hex.digit_value d) as [bot|] eqn:Hbot; [|discriminate].
      destruct (Hex.fromhex_scan s2) as [bs'|] eqn:Hs2; [|discriminate].
      injection H as <-. simpl in Hn.
      destruct (IH s2 bs' ltac:(lia) Hs2) as [H1 H2].
      assert (Hd : Hex.is_ascii_space d = false).
      { revert Hbot. unfold Hex.digit_value, Hex.is_ascii_space.
        destruct (N.leb_spec 48 d), (N.leb_spec d 57), (N.leb_spec 97 d),
          (N.leb_spec d 102), (N.leb_spec 65 d), (N.leb_spec d 70),
          (N.leb_spec 9 d), (N.leb_spec d 13), (N.eqb_spec d 32);
          simpl; try discriminate; try reflexivity; intros; lia. }
      split.
      * cbn [negb filter]. rewrite Hd. cbn [negb length].
        unfold digits_of in H1. rewrite H1. simpl. lia.
      * constructor; [right; congruence|].
        constructor; [right; congruence|exact H2].
Qed.

(** A string with an odd number of characters other than whitespace is
    refused. *)
Lemma fromhex_odd (s : pystr) :
  Nat.odd (length (digits_of s)) = true -> Hex.fromhex s = None.
Proof.
  intros Hodd. unfold Hex.fromhex.
  destruct (forallb _ s); [|reflexivity].
  destruct (Hex.fromhex_scan s) as [bs|] eqn:H; [|reflexivity].
  destruct (fromhex_scan_shape (length s) s bs (le_n _) H) as [H1 _].
  rewrite H1 in Hodd. rewrite Nat.odd_mul in Hodd. discriminate.
Qed.

(** A string with a character that is neither a digit nor whitespace is
    refused. *)
Lemma fromhex_bad_char (s : pystr) (c : N) :
  In c s -> Hex.digit_value c = None -> Hex.is_ascii_space c = false ->
  Hex.fromhex s = None.
Proof.
  intros Hin Hv Hs. unfold Hex.fromhex.
  destruct (forallb _ s); [|reflexivity].
  destruct (Hex.fromhex_scan s) as [bs|] eqn:H; [|reflexivity].
  destruct (fromhex_scan_shape (length s) s bs (le_n _) H) as [_ H2].
  rewrite Forall_forall in H2. destruct (H2 c Hin); congruence.
Qed.

End HexFacts.

(* ================================================================== *)
(** * The read loop of [capture_sample] *)
(* ================================================================== *)

Section LoopFacts.

Import CaptureSamples.

Variable start : float.

Lemma absorb_nil (st : locals) : absorb st [] = st.
Proof.
  destruct st as [c h l]. unfold absorb. simpl.
  destruct c; [now rewrite app_nil_r|reflexivity].
Qed.

Lemma absorb_app (st : locals) (l1 l2 : list pystr) :
  absorb (absorb st l1) l2 = absorb st (l1 ++ l2).
Proof.
  destruct st as [c h l]. unfold absorb. simpl.
  destruct c; [|reflexivity]. now rewrite concat_app, app_assoc.
Qed.

Lemma emit_nil {A} (r : option (A * list effect)) : emit [] r = r.
Proof. now destruct r as [[x e]|]. Qed.

Lemma emit_emit {A} (e1 e2 : list effect) (r : option (A * list effect)) :
  emit e1 (emit e2 r) = emit (e1 ++ e2) r.
Proof. destruct r as [[x e]|]; simpl; [now rewrite app_assoc|reflexivity]. Qed.

(** A quiet pass leaves the loop running and adds its line to the hex
    data when the loop is capturing. *)
Lemma on_read_quiet (st : locals) (a : attempt) :
  quiet a ->
  exists eff,
    on_read st (rx a)
    = (Next (absorb st (match line_of a with
                        | Some line => [line]
                        | None => []
                        end)), eff).
Proof.
  unfold quiet, line_of, on_read. destruct (rx a) as [e|text].
  - intros _. rewrite absorb_nil. now eexists.
  - destruct (PyStr.truthy (strip text)) eqn:Ht.
    + intros [Hs He]. unfold on_line. rewrite Hs, He.
      destruct st as [c h l]. unfold absorb. simpl.
      destruct c; simpl; rewrite ?app_nil_r; now eexists.
    + intros _. rewrite absorb_nil. now eexists.
Qed.

(** A start marker switches capturing on and settles the label. *)
Lemma on_read_start (st : locals) (a : attempt) (line : pystr) :
  line_of a = Some line -> startswith line WAV_START = true ->
  exists eff, on_read st (rx a) = (Next (started st line), eff).
Proof.
  unfold line_of, on_read. destruct (rx a) as [e|text]; [discriminate|].
  destruct (PyStr.truthy (strip text)); [|discriminate].
  intros [= <-] Hs. unfold on_line. rewrite Hs. now eexists.
Qed.

(** An end marker breaks the loop, whatever its state. *)
Lemma on_read_end (st : locals) (a : attempt) (line : pystr) :
  line_of a = Some line -> is_end_marker line = true ->
  exists eff, on_read st (rx a) = (Stop st, eff).
Proof.
  unfold line_of, on_read, is_end_marker.
  destruct (rx a) as [e|text]; [discriminate|].
  destruct (PyStr.truthy (strip text)); [|discriminate].
  intros [= <-] H. apply andb_true_iff in H as [Hs He].
  apply negb_true_iff in Hs. unfold on_line. rewrite Hs, He. now eexists.
Qed.

(** A pass that is not an end marker leaves the loop running. *)
Lemma on_read_goes_on (st : locals) (a : attempt) :
  goes_on a -> exists st' eff, on_read st (rx a) = (Next st', eff).
Proof.
  unfold goes_on, line_of, on_read, is_end_marker.
  destruct (rx a) as [e|text]; [now eexists; eexists|].
  destruct (PyStr.truthy (strip text)); [|now eexists; eexists].
  intros H. unfold on_line.
  destruct (startswith (strip text) WAV_START); [now eexists; eexists|].
  simpl in H. rewrite H.
  destruct (capturing st); now eexists; eexists.
Qed.

Lemma on_read_prints (st : locals) (r : read_result) :
  forallb is_print (snd (on_read st r)) = true.
Proof.
  unfold on_read, on_line. destruct r as [e|text]; [reflexivity|].
  destruct (PyStr.truthy (strip text)); [|reflexivity].
  destruct (startswith (strip text) WAV_START),
    (contains WAV_END (strip text)), (capturing st); reflexivity.
Qed.

(** The loop only prints. *)
Lemma read_loop_prints (input : list attempt) :
  forall st x eff,
    read_loop start st input = Some (x, eff) ->
    forallb is_print eff = true.
Proof.
  induction input as [|a rest IH]; intros st x eff; simpl; [discriminate|].
  destruct (deadline_passed start (now a)).
  - intros [= <- <-]. reflexivity.
  - pose proof (on_read_prints st (rx a)) as Hp.
    destruct (on_read st (rx a)) as [[st'|st'] e1]; simpl in Hp.
    + destruct (read_loop start st' rest) as [[x' e2]|] eqn:Hr;
        simpl; [|discriminate].
      intros [= <- <-]. rewrite forallb_app, Hp. simpl. eapply IH, Hr.
    + intros [= <- <-]. exact Hp.
Qed.

(** Quiet passes within the deadline are absorbed one after the other. *)
Lemma read_loop_quiet (pre : list attempt) :
  forall st rest,
    Forall (in_time start) pre -> Forall quiet pre ->
    exists eff,
      read_loop start st (pre ++ rest)
      = emit eff (read_loop start (absorb st (lines_of pre)) rest).
Proof.
  induction pre as [|a pre IH]; intros st rest Ht Hq.
  - exists []. simpl. now rewrite absorb_nil, emit_nil.
  - inversion_clear Ht as [|? ? Ha Ht']. inversion_clear Hq as [|? ? Hqa Hq'].
    destruct (on_read_quiet st a Hqa) as [e1 H1].
    destruct (IH (absorb st (match line_of a with
                             | Some line => [line] | None => [] end))
                 rest Ht' Hq') as [e2 H2].
    exists (e1 ++ e2). simpl. rewrite Ha, H1, H2, emit_emit, absorb_app.
    reflexivity.
Qed.

(** Passes within the deadline that are not end markers keep the loop
    running. *)
Lemma read_loop_goes_on (pre : list attempt) :
  forall st rest,
    Forall (in_time start) pre -> Forall goes_on pre ->
    exists st' eff,
      read_loop start st (pre ++ rest) = emit eff (read_loop start st' rest).
Proof.
  induction pre as [|a pre IH]; intros st rest Ht Hg.
  - exists st, []. simpl. now rewrite emit_nil.
  - inversion_clear Ht as [|? ? Ha Ht']. inversion_clear Hg as [|? ? Hga Hg'].
    destruct (on_read_goes_on st a Hga) as (st1 & e1 & H1).
    destruct (IH st1 rest Ht' Hg') as (st' & e2 & H2).
    exists st', (e1 ++ e2). simpl. now rewrite Ha, H1, H2, emit_emit.
Qed.

Lemma read_loop_start (a : attempt) (line : pystr) :
  forall st rest,
    in_time start a -> line_of a = Some line ->
    startswith line WAV_START = true ->
    exists eff,
      read_loop start st (a :: rest)
      = emit eff (read_loop start (started st line) rest).
Proof.
  intros st rest Ha Hl Hs. destruct (on_read_start st a line Hl Hs) as [e H].
  exists e. simpl. now rewrite Ha, H.
Qed.

Lemma read_loop_end (a : attempt) (line : pystr) :
  forall st rest,
    in_time start a -> line_of a = Some line ->
    is_end_marker line = true ->
    exists eff, read_loop start st (a :: rest) = Some (Broke st, eff).
Proof.
  intros st rest Ha Hl He. destruct (on_read_end st a line Hl He) as [e H].
  exists e. simpl. now rewrite Ha, H.
Qed.

(** The framed run: quiet passes, a start marker, quiet passes, an end
    marker.  The loop breaks with the payload lines, and only them, in the
    hex data, and with the label the start marker settles. *)
Lemma read_loop_framed (label : pystr)
      (decoys payload rest : list attempt) (s f : attempt) (sl fl : pystr) :
  Forall (in_time start) (decoys ++ s :: payload ++ [f]) ->
  Forall quiet decoys ->
  line_of s = Some sl -> startswith sl WAV_START = true ->
  Forall quiet payload ->
  line_of f = Some fl -> is_end_marker fl = true ->
  exists eff,
    read_loop start (initial label) (decoys ++ s :: payload ++ f :: rest)
    = Some (Broke (absorb (started (initial label) sl) (lines_of payload)),
            eff).
Proof.
  intros Ht Hd Hsl Hs Hp Hfl Hf.
  apply Forall_app in Ht as [Ht1 Ht2].
  inversion_clear Ht2 as [|? ? Hts Ht3].
  apply Forall_app in Ht3 as [Ht3 Ht4].
  inversion_clear Ht4 as [|? ? Htf _].
  destruct (read_loop_quiet decoys (initial label)
                            (s :: payload ++ f :: rest) Ht1 Hd) as [e1 H1].
  rewrite H1. unfold absorb at 1. cbn [capturing initial hex_data actual_label].
  fold (initial label).
  destruct (read_loop_start s sl (initial label) (payload ++ f :: rest)
                            Hts Hsl Hs) as [e2 H2].
  rewrite H2.
  destruct (read_loop_quiet payload (started (initial label) sl)
                            (f :: rest) Ht3 Hp) as [e3 H3].
  rewrite H3.
  destruct (read_loop_end f fl
                          (absorb (started (initial label) sl)
                                  (lines_of payload)) rest
                          Htf Hfl Hf) as [e4 H4].
  rewrite H4. simpl. now eexists.
Qed.

End LoopFacts.

Section EffectFacts.

Import CaptureSamples.

Lemma fs_effects_app (e1 e2 : list effect) :
  fs_effects (e1 ++ e2) = fs_effects e1 ++ fs_effects e2.
Proof. apply filter_app. Qed.

Lemma fs_effects_prints (eff : list effect) :
  forallb is_print eff = true -> fs_effects eff = [].
Proof.
  induction eff as [|e eff IH]; [reflexivity|]. simpl.
  destruct e; simpl; try discriminate. exact IH.
Qed.

Lemma files_written_app (e1 e2 : list effect) :
  files_written (e1 ++ e2) = files_written e1 ++ files_written e2.
Proof. apply flat_map_app. Qed.

Lemma files_written_prints (eff : list effect) :
  forallb is_print eff = true -> files_written eff = [].
Proof.
  induction eff as [|e eff IH]; [reflexivity|]. simpl.
  destruct e; simpl; try discriminate. exact IH.
Qed.

(** How a call ends once the loop has broken. *)
Lemma capture_sample_broke (w : world) (label : pystr) (st : locals)
      (eff : list effect) :
  read_loop (start_time w) (initial label) (attempts w)
  = Some (Broke st, eff) ->
  exists sent,
    forallb is_print (tl (tl sent)) = true
    /\ fs_effects sent = [] /\ files_written sent = []
    /\ capture_sample w label
       = Some (fst (save w st), sent ++ snd (save w st)).
Proof.
  intros H. unfold capture_sample. rewrite H.
  destruct (save w st) as [r eff'] eqn:Hsave. simpl.
  pose proof (read_loop_prints _ _ _ _ _ H) as Hp.
  eexists (_ :: _ :: _ :: _ :: eff). repeat split.
  - simpl. exact Hp.
  - simpl. now apply fs_effects_prints.
  - simpl. now apply files_written_prints.
Qed.

End EffectFacts.

(* ================================================================== *)
(** * [capture_sample]: framing, timeout and decoding *)
(* ================================================================== *)

(** Closes the side conditions of a statement applied to a concrete run. *)
Ltac run :=
  repeat (apply Forall_cons || apply Forall_nil);
  vm_compute; try reflexivity; auto.

Section CaptureTheorems.

Import CaptureSamples.

Lemma WAV_START_head : WAV_START = 45%N :: py "--WAV_START".
Proof. reflexivity. Qed.

Lemma WAV_END_head : WAV_END = 45%N :: py "--WAV_END---".
Proof. reflexivity. Qed.

(** A non-empty line of hex digits is no marker. *)
Lemma hex_line_quiet (line : pystr) :
  PyStr.truthy line = true ->
  (forall c, In c line -> Hex.digit_value c <> None) ->
  startswith line WAV_START = false /\ contains WAV_END line = false.
Proof.
  intros Hne Hd. split.
  - destruct line as [|c t]; [discriminate|].
    rewrite WAV_START_head. apply startswith_head_neq.
    intros <-. now apply (Hd 45%N (or_introl eq_refl)).
  - destruct (contains WAV_END line) eqn:H; [|reflexivity].
    rewrite WAV_END_head in H. apply contains_In in H.
    now apply Hd in H.
Qed.

Lemma line_of_In (a : attempt) (l : list attempt) (line : pystr) :
  In a l -> line_of a = Some line ->
  PyStr.truthy line = true /\ In line (lines_of l).
Proof.
  intros Hin Hl. split.
  - unfold line_of in Hl. destruct (rx a) as [e|text]; [discriminate|].
    destruct (PyStr.truthy (strip text)) eqn:Ht; [|discriminate].
    now injection Hl as <-.
  - unfold lines_of. apply in_flat_map. exists a. split; [exact Hin|].
    rewrite Hl. now left.
Qed.

(** Passes whose lines make up a hex text are quiet. *)
Lemma hex_payload_quiet (upper : bool) (b : list byte)
      (payload : list attempt) :
  concat (lines_of payload) = Hex.hex_of upper b -> Forall quiet payload.
Proof.
  intros Hc. apply Forall_forall. intros a Hin. unfold quiet.
  destruct (line_of a) as [line|] eqn:Hl; [|exact I].
  destruct (line_of_In a payload line Hin Hl) as [Hne Hline].
  apply hex_line_quiet; [exact Hne|].
  intros c Hcl. apply (hex_chars upper b). rewrite <- Hc.
  apply in_concat. now exists line.
Qed.

(** C1, as the claim states it, fails: a run in which the end sentinel comes
    first.  No line of it starts with the start prefix, and the loop breaks
    on the second line with [capturing] still false. *)
Lemma end_marker_first_breaks_loop :
  forallb (fun line => negb (is_start_marker line))
          (lines_of [Examples.boot; Examples.finish]) = true
  /\ read_loop 100 (initial (py "noise")) [Examples.boot; Examples.finish]
     = Some (Broke (initial (py "noise")),
             [Print (py "  ESP32 ready"); Print (py "  ---WAV_END---")])
  /\ capturing (initial (py "noise")) = false.
Proof. repeat split; vm_compute; reflexivity. Qed.

(** C1, amended: an end-marker line that arrives before any start marker
    breaks the loop at once, with [capturing] false and no hex data; the call
    then reports that no audio data was received, returns False and leaves
    the file system alone. *)
Theorem end_marker_before_start_fails
        (w : world) (label : pystr)
        (decoys rest : list attempt) (f : attempt) (fl : pystr) :
  attempts w = decoys ++ f :: rest ->
  Forall (in_time (start_time w)) (decoys ++ [f]) ->
  Forall quiet decoys ->
  line_of f = Some fl -> is_end_marker fl = true ->
  (exists eff,
      read_loop (start_time w) (initial label) (attempts w)
      = Some (Broke (initial label), eff))
  /\ capturing (initial label) = false
  /\ hex_data (initial label) = []
  /\ exists eff,
      capture_sample w label
      = Some (Return false,
              eff ++ [Print (py "ERROR: No audio data received")])
      /\ fs_effects (eff ++ [Print (py "ERROR: No audio data received")])
         = [].
Proof.
  intros Hw Ht Hq Hfl Hf.
  apply Forall_app in Ht as [Ht1 Ht2]. inversion_clear Ht2 as [|? ? Htf _].
  assert (Hloop : exists eff,
             read_loop (start_time w) (initial label) (attempts w)
             = Some (Broke (initial label), eff)).
  { rewrite Hw.
    destruct (read_loop_quiet (start_time w) decoys (initial label)
                              (f :: rest) Ht1 Hq) as [e1 H1].
    rewrite H1. change (absorb (initial label) (lines_of decoys))
      with (initial label).
    destruct (read_loop_end (start_time w) f fl (initial label) rest
                            Htf Hfl Hf) as [e2 H2].
    rewrite H2. simpl. now eexists. }
  split; [exact Hloop|]. split; [reflexivity|]. split; [reflexivity|].
  destruct Hloop as [eff Hloop].
  destruct (capture_sample_broke w label _ _ Hloop)
    as (sent & _ & Hfs & _ & Hc).
  exists sent. split; [exact Hc|].
  rewrite fs_effects_app, Hfs. reflexivity.
Qed.

Lemma end_marker_before_start_fails_witness :
  exists eff,
    capture_sample (Examples.world_of [Examples.boot; Examples.finish])
                   (py "noise")
    = Some (Return false,
            eff ++ [Print (py "ERROR: No audio data received")]).
Proof.
  destruct (end_marker_before_start_fails
              (Examples.world_of [Examples.boot; Examples.finish])
              (py "noise") [Examples.boot] [] Examples.finish
              (py "---WAV_END---"))
    as (_ & _ & _ & eff & H & _); [run .. |].
  exists eff. exact H.
Defined.

(** C2: in a run of decoy passes, a start marker, payload passes and an end
    marker, all within the deadline, the loop breaks while capturing and the
    hex data is the concatenation, with nothing in between, of the lines
    delivered strictly between the two markers. *)
Theorem payload_is_lines_between_markers
        (start : float) (label : pystr)
        (decoys payload rest : list attempt) (s f : attempt)
        (sl fl : pystr) :
  Forall (in_time start) (decoys ++ s :: payload ++ [f]) ->
  Forall quiet decoys ->
  line_of s = Some sl -> is_start_marker sl = true ->
  Forall quiet payload ->
  line_of f = Some fl -> is_end_marker fl = true ->
  exists st eff,
    read_loop start (initial label) (decoys ++ s :: payload ++ f :: rest)
    = Some (Broke st, eff)
    /\ capturing st = true
    /\ hex_data st = concat (lines_of payload).
Proof.
  intros Ht Hd Hsl Hs Hp Hfl Hf.
  destruct (read_loop_framed start label decoys payload rest s f sl fl
                             Ht Hd Hsl Hs Hp Hfl Hf) as [eff H].
  eexists. exists eff. split; [exact H|]. split; reflexivity.
Qed.

Lemma payload_is_lines_between_markers_witness :
  exists st eff,
    read_loop 100 (initial (py "noise"))
              [Examples.boot; Examples.noise_pass; Examples.start_hey_bob;
               Examples.pass 104 "0a1B"; Examples.blank;
               Examples.pass 105 "ff"; Examples.finish; Examples.boot]
    = Some (Broke st, eff)
    /\ capturing st = true
    /\ hex_data st = py "0a1Bff".
Proof.
  destruct (payload_is_lines_between_markers
              100 (py "noise")
              [Examples.boot; Examples.noise_pass]
              [Examples.pass 104 "0a1B"; Examples.blank;
               Examples.pass 105 "ff"]
              [Examples.boot]
              Examples.start_hey_bob Examples.finish
              (py "---WAV_START:hey_bob---") (py "---WAV_END---"))
    as (st & eff & H & Hc & Hh); [run .. |].
  exists st, eff. repeat split; assumption.
Defined.

(** The three ways the part after the loop ends. *)
Lemma save_empty (w : world) (st : locals) :
  hex_data st = [] ->
  save w st = (Return false, [Print (py "ERROR: No audio data received")]).
Proof. intros H. unfold save. now rewrite H. Qed.

Lemma save_invalid (w : world) (st : locals) :
  PyStr.truthy (hex_data st) = true -> Hex.fromhex (hex_data st) = None ->
  save w st
  = (Return false,
     [Print (py "ERROR: Invalid hex data: "
               ++ fromhex_error w (hex_data st))]).
Proof. intros Ht H. unfold save. now rewrite Ht, H. Qed.

Lemma save_ok (w : world) (st : locals) (data : list byte) :
  PyStr.truthy (hex_data st) = true ->
  Hex.fromhex (hex_data st) = Some data ->
  makedirs_ok w = true -> open_ok w = true ->
  save w st
  = (Return true,
     [MakeDirs (label_dir_of (actual_label st));
      WriteFile (filename_of w (actual_label st)) data;
      Print (nl ++ py "  Saved: " ++ filename_of w (actual_label st));
      Print (size_line (Z.of_nat (length data)))]).
Proof. intros Ht H Hm Ho. unfold save. now rewrite Ht, H, Hm, Ho. Qed.

(** A file is written only from a non-empty hex string that decodes. *)
Lemma save_writes (w : world) (st : locals) (p : pystr) (d : list byte) :
  In (WriteFile p d) (snd (save w st)) ->
  PyStr.truthy (hex_data st) = true /\ Hex.fromhex (hex_data st) = Some d.
Proof.
  unfold save. destruct (PyStr.truthy (hex_data st)); simpl.
  - destruct (Hex.fromhex (hex_data st)) as [data|]; simpl.
    + destruct (makedirs_ok w); simpl; [|tauto].
      destruct (open_ok w); simpl.
      * intros [H|[H|[H|[H|[]]]]]; try discriminate.
        injection H as _ <-. now split.
      * intros [H|[]]; discriminate.
    + intros [H|[]]; discriminate.
  - intros [H|[]]; discriminate.
Qed.

(** C3, as the claim states it, fails for the empty byte string: its hex text
    is empty and decodes to it, but the call refuses an empty payload and
    writes no file. *)
Lemma empty_payload_writes_nothing :
  concat (lines_of []) = Hex.hex []
  /\ Hex.fromhex (Hex.hex []) = Some []
  /\ option_map fst
       (capture_sample
          (Examples.world_of [Examples.start_plain; Examples.finish])
          (py "noise"))
     = Some (Return false)
  /\ option_map (fun r => files_written (snd r))
       (capture_sample
          (Examples.world_of [Examples.start_plain; Examples.finish])
          (py "noise"))
     = Some [].
Proof. repeat split; vm_compute; reflexivity. Qed.

(** C3, amended: for every byte string, however its hex text (in either
    case of the digits) is cut into the lines delivered between the two
    markers, the loop accumulates that text and [bytes.fromhex] gives the
    bytes back; when the byte string is not empty and the file system
    accepts the write, the call returns True and the one file it writes
    holds exactly these bytes. *)
Theorem hex_round_trip
        (w : world) (label : pystr) (upper : bool) (b : list byte)
        (decoys payload rest : list attempt) (s f : attempt)
        (sl fl : pystr) :
  attempts w = decoys ++ s :: payload ++ f :: rest ->
  Forall (in_time (start_time w)) (decoys ++ s :: payload ++ [f]) ->
  Forall quiet decoys ->
  line_of s = Some sl -> is_start_marker sl = true ->
  concat (lines_of payload) = Hex.hex_of upper b ->
  line_of f = Some fl -> is_end_marker fl = true ->
  exists st eff,
    read_loop (start_time w) (initial label) (attempts w)
    = Some (Broke st, eff)
    /\ hex_data st = Hex.hex_of upper b
    /\ Hex.fromhex (hex_data st) = Some b
    /\ (b <> [] -> makedirs_ok w = true -> open_ok w = true ->
        exists eff',
          capture_sample w label = Some (Return true, eff')
          /\ files_written eff' = [(filename_of w (actual_label st), b)]).
Proof.
  intros Hw Ht Hd Hsl Hs Hc Hfl Hf.
  pose proof (hex_payload_quiet upper b payload Hc) as Hp.
  destruct (read_loop_framed (start_time w) label decoys payload rest
                             s f sl fl Ht Hd Hsl Hs Hp Hfl Hf) as [eff H].
  rewrite <- Hw in H.
  eexists. exists eff. split; [exact H|].
  assert (Hh : hex_data (absorb (started (initial label) sl)
                                (lines_of payload)) = Hex.hex_of upper b)
    by (simpl; exact Hc).
  split; [exact Hh|]. split; [rewrite Hh; apply fromhex_hex|].
  intros Hb Hm Ho.
  destruct (capture_sample_broke w label _ _ H)
    as (sent & _ & _ & Hfw & Hcs).
  rewrite (save_ok w _ b) in Hcs;
    [| rewrite Hh; now apply hex_nonempty
     | rewrite Hh; apply fromhex_hex | exact Hm | exact Ho].
  eexists. split; [exact Hcs|].
  rewrite files_written_app, Hfw. reflexivity.
Qed.

Lemma hex_round_trip_witness :
  exists eff,
    capture_sample
      (Examples.world_of
         [Examples.boot; Examples.start_hey_bob; Examples.pass 104 "0A1";
          Examples.noise_pass; Examples.pass 105 "BFF"; Examples.finish])
      (py "noise")
    = Some (Return true, eff)
    /\ files_written eff
       = [(py "training_samples/hey_bob/hey_bob_20260102_030405.wav",
           [x0a; x1b; xff])].
Proof.
  destruct (hex_round_trip
              (Examples.world_of
                 [Examples.boot; Examples.start_hey_bob;
                  Examples.pass 104 "0A1"; Examples.noise_pass;
                  Examples.pass 105 "BFF"; Examples.finish])
              (py "noise") true [x0a; x1b; xff]
              [Examples.boot]
              [Examples.pass 104 "0A1"; Examples.noise_pass;
               Examples.pass 105 "BFF"]
              [] Examples.start_hey_bob Examples.finish
              (py "---WAV_START:hey_bob---") (py "---WAV_END---"))
    as (st & eff & Hloop & _ & _ & Hfile); [run .. |].
  destruct Hfile as (eff' & Hc & Hf); [discriminate | reflexivity ..|].
  exists eff'. split; [exact Hc|].
  rewrite Hf. vm_compute in Hloop. injection Hloop as <- _. reflexivity.
Defined.

(** C4: the deadline is TIMEOUT = 15 seconds after the clock reading taken
    when the loop starts, and it is checked once in every pass, before the
    read: a pass whose reading is past it ends the loop whatever the read
    would give, and a pass whose reading is within it is carried out.  So
    when no earlier pass (each within the deadline) was an end marker and
    the reading of a pass is past the deadline, the call prints the timeout
    error last, returns False and leaves the file system alone. *)
Theorem timeout_fails
        (w : world) (label : pystr)
        (pre rest : list attempt) (a : attempt) :
  attempts w = pre ++ a :: rest ->
  Forall (in_time (start_time w)) pre ->
  Forall goes_on pre ->
  deadline_passed (start_time w) (now a) = true ->
  TIMEOUT = 15%Z
  /\ (forall st p others,
        read_loop (start_time w) st (p :: others)
        = if PyFloat.gt_int (PrimFloat.sub (now p) (start_time w)) TIMEOUT
          then Some (TimedOut, [Print (py "ERROR: Timeout waiting for data")])
          else match on_read st (rx p) with
               | (Next st', eff) =>
                   emit eff (read_loop (start_time w) st' others)
               | (Stop st', eff) => Some (Broke st', eff)
               end)
  /\ exists eff,
      capture_sample w label
      = Some (Return false,
              eff ++ [Print (py "ERROR: Timeout waiting for data")])
      /\ fs_effects (eff ++ [Print (py "ERROR: Timeout waiting for data")])
         = []
      /\ files_written
           (eff ++ [Print (py "ERROR: Timeout waiting for data")])
         = [].
Proof.
  intros Hw Ht Hg Ha. split; [reflexivity|]. split; [reflexivity|].
  destruct (read_loop_goes_on (start_time w) pre (initial label)
                              (a :: rest) Ht Hg) as (st' & e1 & H1).
  assert (H2 : read_loop (start_time w) st' (a :: rest)
               = Some (TimedOut,
                       [Print (py "ERROR: Timeout waiting for data")]))
    by (simpl; now rewrite Ha).
  rewrite H2 in H1. simpl in H1. rewrite <- Hw in H1.
  pose proof (read_loop_prints _ _ _ _ _ H1) as Hp.
  unfold capture_sample. rewrite H1.
  eexists (_ :: _ :: _ :: _ :: e1). split; [reflexivity|].
  split; simpl.
  - now apply fs_effects_prints.
  - now apply files_written_prints.
Qed.

Lemma timeout_fails_witness :
  exists eff,
    capture_sample
      (Examples.world_of
         [Examples.boot; Examples.start_hey_bob; Examples.pass 104 "0A1";
          Examples.late; Examples.finish])
      (py "noise")
    = Some (Return false,
            eff ++ [Print (py "ERROR: Timeout waiting for data")]).
Proof.
  destruct (timeout_fails
              (Examples.world_of
                 [Examples.boot; Examples.start_hey_bob;
                  Examples.pass 104 "0A1"; Examples.late; Examples.finish])
              (py "noise")
              [Examples.boot; Examples.start_hey_bob;
               Examples.pass 104 "0A1"]
              [Examples.finish] Examples.late)
    as (_ & _ & eff & H & _); [run .. |].
  exists eff. exact H.
Defined.

(** C5, as the claim states it, fails: a payload line with a space between
    two bytes gives a hex string of odd length that holds a character which
    is no hex digit, and yet it decodes and the file is written. *)
Lemma spaced_hex_is_written :
  option_map fst
    (read_loop 100 (initial (py "noise")) (attempts Examples.spaced_run))
  = Some (Broke {| capturing := true; hex_data := py "ab cd";
                   actual_label := py "noise" |})
  /\ Nat.odd (length (py "ab cd")) = true
  /\ In 32%N (py "ab cd") /\ Hex.digit_value 32 = None
  /\ option_map fst (capture_sample Examples.spaced_run (py "noise"))
     = Some (Return true)
  /\ option_map (fun r => files_written (snd r))
       (capture_sample Examples.spaced_run (py "noise"))
     = Some [(py "training_samples/noise/noise_20260102_030405.wav",
              [xab; xcd])].
Proof.
  repeat split; try (vm_compute; reflexivity).
  vm_compute. tauto.
Qed.

(** C5, amended: once the loop has broken, the call returns False and
    leaves the file system alone whenever the hex string is empty, or has an
    odd number of characters other than ASCII whitespace (so whenever it has
    odd length and no whitespace), or holds a character that is neither a
    hex digit nor ASCII whitespace; and a file is written only from a
    non-empty hex string that [bytes.fromhex] decodes, with the decoded
    bytes as its content. *)
Theorem decode_validation
        (w : world) (label : pystr) (st : locals) (eff : list effect) :
  read_loop (start_time w) (initial label) (attempts w)
  = Some (Broke st, eff) ->
  (hex_data st = []
   \/ Nat.odd (length (digits_of (hex_data st))) = true
   \/ (Nat.odd (length (hex_data st)) = true
       /\ existsb Hex.is_ascii_space (hex_data st) = false)
   \/ (exists c, In c (hex_data st) /\ Hex.digit_value c = None
                 /\ Hex.is_ascii_space c = false) ->
   exists eff',
     capture_sample w label = Some (Return false, eff')
     /\ fs_effects eff' = [])
  /\ (forall r eff' p d,
         capture_sample w label = Some (r, eff') ->
         In (WriteFile p d) eff' ->
         PyStr.truthy (hex_data st) = true
         /\ Hex.fromhex (hex_data st) = Some d).
Proof.
  intros Hloop.
  destruct (capture_sample_broke w label st eff Hloop)
    as (sent & Hsp & Hfs & Hfw & Hc).
  split.
  - intros Hbad.
    assert (Hsave : exists msg, save w st = (Return false, [Print msg])).
    { destruct (hex_data st) as [|c0 t] eqn:Hh.
      - eexists. now apply save_empty.
      - assert (Hnone : Hex.fromhex (hex_data st) = None).
        { rewrite Hh.
          destruct Hbad as [Hbad|[Hbad|[Hbad|Hbad]]].
          + discriminate.
          + now apply fromhex_odd.
          + destruct Hbad as (Hodd & Hns).
            apply fromhex_odd. unfold digits_of.
            replace (filter (fun c => negb (Hex.is_ascii_space c)) (c0 :: t))
              with (c0 :: t); [exact Hodd|].
            symmetry. apply forallb_filter_id. apply forallb_forall.
            intros c Hin.
            destruct (Hex.is_ascii_space c) eqn:Hc0; [|reflexivity].
            assert (existsb Hex.is_ascii_space (c0 :: t) = true)
              by (apply existsb_exists; now exists c).
            congruence.
          + destruct Hbad as (c & Hin & Hv & Hs).
            now apply (fromhex_bad_char (c0 :: t) c). }
        eexists. apply save_invalid; [now rewrite Hh|exact Hnone]. }
    destruct Hsave as [msg Hsave]. rewrite Hsave in Hc. simpl in Hc.
    eexists. split; [exact Hc|].
    rewrite fs_effects_app, Hfs. reflexivity.
  - intros r eff' p d Hcs Hin. rewrite Hc in Hcs. injection Hcs as _ <-.
    apply in_app_or in Hin as [Hin|Hin].
    + exfalso.
      assert (In (p, d) (files_written sent)).
      { unfold files_written. apply in_flat_map.
        exists (WriteFile p d). split; [exact Hin|now left]. }
      rewrite Hfw in H. exact H.
    + now apply (save_writes w st p d).
Qed.

Lemma decode_validation_witness :
  exists eff',
    capture_sample
      (Examples.world_of [Examples.start_plain; Examples.pass 104 "abc";
                          Examples.pass 105 "xy"; Examples.finish])
      (py "noise")
    = Some (Return false, eff')
    /\ fs_effects eff' = [].
Proof.
  destruct (decode_validation
              (Examples.world_of
                 [Examples.start_plain; Examples.pass 104 "abc";
                  Examples.pass 105 "xy"; Examples.finish])
              (py "noise")
              {| capturing := true; hex_data := py "abcxy";
                 actual_label := py "noise" |}
              [Print (py "  ---WAV_START---");
               Print (nl ++ py "  Receiving WAV data...")])
    as [Hfail _]; [run|].
  apply Hfail. right. left. vm_compute. reflexivity.
Defined.

(** The layout of the spec is what the two joins give for a label that is
    not empty and neither starts nor ends with a slash. *)
Lemma filename_layout (w : world) (label : pystr) :
  PyStr.truthy label = true ->
  startswith label (py "/") = false ->
  endswith label (py "/") = false ->
  filename_of w label = layout_path label (strftime (wall_clock w)).
Proof.
  intros Hne Hs He. unfold filename_of, label_dir_of, layout_path.
  destruct label as [|c t]; [discriminate|].
  assert (Hc : (47 =? c)%N = false).
  { simpl in Hs. now rewrite andb_true_r in Hs. }
  unfold PosixPath.join at 2. rewrite Hs.
  change (negb (PyStr.truthy OUTPUT_DIR) || endswith OUTPUT_DIR (py "/"))
    with false. cbn iota.
  unfold PosixPath.join.
  change (startswith ((c :: t) ++ py "_" ++ strftime (wall_clock w)
                                ++ py ".wav") (py "/"))
    with ((47 =? c)%N && true). rewrite Hc. cbn [andb].
  assert (Hend : endswith (OUTPUT_DIR ++ py "/" ++ c :: t) (py "/") = false).
  { unfold endswith in *. rewrite !rev_app_distr.
    destruct (rev (c :: t)) as [|d r] eqn:Hr.
    - apply (f_equal (@length N)) in Hr. rewrite length_rev in Hr.
      discriminate.
    - simpl in *. exact He. }
  rewrite Hend.
  change (PyStr.truthy (OUTPUT_DIR ++ py "/" ++ c :: t)) with true.
  cbn [negb orb]. change (py "training_samples/") with (OUTPUT_DIR ++ py "/").
  now rewrite <- !app_assoc.
Qed.

Lemma save_true (w : world) (st : locals) :
  fst (save w st) = Return true ->
  exists data,
    snd (save w st)
    = [MakeDirs (label_dir_of (actual_label st));
       WriteFile (filename_of w (actual_label st)) data;
       Print (nl ++ py "  Saved: " ++ filename_of w (actual_label st));
       Print (size_line (Z.of_nat (length data)))].
Proof.
  unfold save. destruct (PyStr.truthy (hex_data st)); simpl; [|discriminate].
  destruct (Hex.fromhex (hex_data st)) as [data|]; simpl; [|discriminate].
  destruct (makedirs_ok w); simpl; [|discriminate].
  destruct (open_ok w); simpl; [|discriminate].
  intros _. now exists data.
Qed.

(** C6, as the claim states it, fails: a start marker whose label is an
    absolute path.  The label in effect is that path, and the file is
    written next to it, outside [training_samples]. *)
Lemma absolute_label_leaves_layout :
  option_map (fun r => match fst r with
                       | Broke st => actual_label st
                       | TimedOut => []
                       end)
    (read_loop 100 (initial (py "noise")) (attempts Examples.abs_label_run))
  = Some (py "/tmp/x")
  /\ option_map (fun r => files_written (snd r))
       (capture_sample Examples.abs_label_run (py "noise"))
     = Some [(py "/tmp/x_20260102_030405.wav", [x00])]
  /\ layout_path (py "/tmp/x") (strftime Examples.stamp)
     = py "training_samples//tmp/x//tmp/x_20260102_030405.wav".
Proof. repeat split; vm_compute; reflexivity. Qed.

(** C6, amended: a start marker with a colon sets the label to the segment
    after its first colon, with every [---] removed and the surrounding
    whitespace stripped; one without a colon leaves the label as it is.  So
    in a framed run the label in effect when the loop breaks is that text,
    or else the requested label; a successful call then writes one file, at
    [os.path.join(os.path.join("training_samples", label), label + "_" +
    stamp + ".wav")], which is [training_samples/<label>/<label>_<stamp>.wav]
    when the label is not empty and neither starts nor ends with a slash. *)
Theorem effective_label_and_path
        (w : world) (label : pystr)
        (decoys payload rest : list attempt) (s f : attempt)
        (sl fl : pystr) :
  line_of s = Some sl -> is_start_marker sl = true ->
  attempts w = decoys ++ s :: payload ++ f :: rest ->
  Forall (in_time (start_time w)) (decoys ++ s :: payload ++ [f]) ->
  Forall quiet decoys -> Forall quiet payload ->
  line_of f = Some fl -> is_end_marker fl = true ->
  (forall st0,
      exists eff,
        on_read st0 (rx s)
        = (Next {| capturing := true;
                   hex_data := hex_data st0;
                   actual_label :=
                     if contains (py ":") sl
                     then strip (replace (segment_after_first_colon sl)
                                         (py "---") [])
                     else actual_label st0 |}, eff))
  /\ contains (py "---")
              (strip (replace (segment_after_first_colon sl) (py "---") []))
     = false
  /\ exists st eff,
    read_loop (start_time w) (initial label) (attempts w)
    = Some (Broke st, eff)
    /\ actual_label st
       = (if contains (py ":") sl
          then strip (replace (segment_after_first_colon sl) (py "---") [])
          else label)
    /\ (forall eff',
          capture_sample w label = Some (Return true, eff') ->
          exists data,
            files_written eff'
            = [(PosixPath.join
                  (PosixPath.join OUTPUT_DIR (actual_label st))
                  (actual_label st ++ py "_" ++ strftime (wall_clock w)
                     ++ py ".wav"), data)])
    /\ (PyStr.truthy (actual_label st) = true ->
        startswith (actual_label st) (py "/") = false ->
        endswith (actual_label st) (py "/") = false ->
        PosixPath.join
          (PosixPath.join OUTPUT_DIR (actual_label st))
          (actual_label st ++ py "_" ++ strftime (wall_clock w) ++ py ".wav")
        = layout_path (actual_label st) (strftime (wall_clock w))).
Proof.
  intros Hsl Hs Hw Ht Hd Hp Hfl Hf.
  assert (Hlabel : forall st0,
             actual_label (started st0 sl)
             = if contains (py ":") sl
               then strip (replace (segment_after_first_colon sl)
                                   (py "---") [])
               else actual_label st0).
  { intros st0. cbn [actual_label started].
    destruct (contains (py ":") sl) eqn:Hcolon; [|reflexivity].
    unfold marker_label. rewrite split_second; [reflexivity|].
    now apply contains_char_iff. }
  split; [|split].
  - intros st0. destruct (on_read_start st0 s sl Hsl Hs) as [eff H].
    exists eff. rewrite H, <- Hlabel. reflexivity.
  - apply contains_strip, remove_dashes_gone.
  - destruct (read_loop_framed (start_time w) label decoys payload rest
                               s f sl fl Ht Hd Hsl Hs Hp Hfl Hf) as [eff H].
    rewrite <- Hw in H. eexists. exists eff. split; [exact H|].
    split; [|split].
    + cbn [actual_label absorb]. apply (Hlabel (initial label)).
    + intros eff' Hcs.
      destruct (capture_sample_broke w label _ _ H)
        as (sent & _ & _ & Hfw & Hc).
      rewrite Hc in Hcs. injection Hcs as Hr <-.
      destruct (save_true w _ Hr) as [data Hsave].
      exists data. rewrite files_written_app, Hfw, Hsave. reflexivity.
    + intros Hne Hst Hen. now apply (filename_layout w).
Qed.

Lemma effective_label_and_path_witness :
  exists st eff,
    read_loop 100 (initial (py "noise"))
              (attempts Examples.header_only_run)
    = Some (Broke st, eff)
    /\ actual_label st = py "hey_bob"
    /\ PosixPath.join
         (PosixPath.join OUTPUT_DIR (actual_label st))
         (actual_label st ++ py "_" ++ strftime Examples.stamp ++ py ".wav")
       = py "training_samples/hey_bob/hey_bob_20260102_030405.wav".
Proof.
  destruct (effective_label_and_path
              Examples.header_only_run (py "noise")
              [Examples.boot] [Examples.zeros 44] []
              Examples.start_hey_bob Examples.finish
              (py "---WAV_START:hey_bob---") (py "---WAV_END---"))
    as (_ & _ & st & eff & H & Hl & _ & Hpath); [run .. |].
  exists st, eff. split; [exact H|]. split; [rewrite Hl; reflexivity|].
  transitivity (layout_path (actual_label st)
                            (strftime (wall_clock Examples.header_only_run))).
  - apply Hpath; rewrite Hl; reflexivity.
  - rewrite Hl. reflexivity.
Defined.



(** The same on a whole run: a header and one second of samples, sent in
    two lines. *)
Lemma one_second_report :
  option_map (fun r => (fst r, last (snd r) ResetInputBuffer,
                        map (fun f => N.of_nat (length (snd f)))
                            (files_written (snd r))))
             (capture_sample Examples.one_second_run (py "noise"))
  = Some (Return true, Print (py "  Size: 32044 bytes (1.00 seconds)"),
          [32044%N]).
Proof. vm_compute. reflexivity. Qed.

End CaptureTheorems.

(* ================================================================== *)
(** * [transcribe_audio] of the speech-to-text script *)
(* ================================================================== *)

Section TranscribeTheorems.

Import TestGroqStt.

(** C9, as the claim states it, fails: with the shipped key and a path that
    does not exist, the call reports the missing file and returns None; no
    request is issued. *)
Lemma missing_file_sends_nothing :
  transcribe_audio PipelineExamples.no_file (py "missing.wav") DEFAULT_MODEL
  = (PNone,
     [Print [Lit (py "ERROR: File not found: "); Lit (py "missing.wav")]]).
Proof. reflexivity. Qed.

(** C9, amended: the shipped key differs from the literal the check
    compares it with, so for every path the call prints no line of the
    missing-key diagnostic; a path that does not exist is reported and
    nothing is sent; for a path that exists and opens, the first effect is
    the request, with the shipped placeholder as its bearer token. *)
Theorem shipped_key_passes_check
        (w : world) (audio_path model : pystr) :
  GROQ_API_KEY <> PLACEHOLDER
  /\ PyStr.eqb GROQ_API_KEY PLACEHOLDER = false
  /\ (forall e, In e missing_key_diagnostic ->
                ~ In e (snd (transcribe_audio w audio_path model)))
  /\ (path_exists w audio_path = false ->
      transcribe_audio w audio_path model
      = (PNone,
         [Print [Lit (py "ERROR: File not found: "); Lit audio_path]]))
  /\ (path_exists w audio_path = true -> open_ok w = true ->
      exists rest,
        snd (transcribe_audio w audio_path model)
        = Post (transcription_request GROQ_API_KEY audio_path model) :: rest
        /\ authorization
             (transcription_request GROQ_API_KEY audio_path model)
           = py "Bearer YOUR API KEY HERE").
Proof.
  split; [intros H; apply eqb_eq in H; discriminate|].
  split; [reflexivity|]. split; [|split].
  - intros e He Hin.
    unfold transcribe_audio, transcribe_audio_with in Hin.
    change (PyStr.eqb GROQ_API_KEY PLACEHOLDER) with false in Hin.
    cbn iota in Hin.
    assert (Hshape : forall l, In e l ->
               Forall (fun e' => match e' with
                                 | Post _ => True
                                 | Print [Lit _] => e' = Print [Lit (py "ERROR: Request timed out")]
                                 | Print _ => True
                                 end) l -> False).
    { intros l Hl Hall. rewrite Forall_forall in Hall.
      specialize (Hall e Hl).
      destruct He as [<-|[<-|[<-|[<-|[]]]]]; vm_compute in Hall;
        discriminate. }
    destruct (path_exists w audio_path); cbn [negb] in Hin;
      [|eapply Hshape; [exact Hin|repeat constructor]].
    destruct (open_ok w); cbn [negb] in Hin;
      [|eapply Hshape; [exact Hin|repeat constructor]].
    destruct (post w) as [ex|r].
    + destruct ex; eapply Hshape; try exact Hin; repeat constructor.
    + destruct (status_code r =? 200)%Z;
        [destruct (json r)|]; eapply Hshape; try exact Hin;
        repeat constructor.
  - intros Hp. unfold transcribe_audio, transcribe_audio_with.
    change (PyStr.eqb GROQ_API_KEY PLACEHOLDER) with false.
    now rewrite Hp.
  - intros Hp Ho. unfold transcribe_audio, transcribe_audio_with.
    change (PyStr.eqb GROQ_API_KEY PLACEHOLDER) with false.
    rewrite Hp, Ho. cbn [negb].
    destruct (post w) as [ex|r].
    + destruct ex; eexists; split; reflexivity.
    + destruct (status_code r =? 200)%Z; [destruct (json r)|];
        eexists; split; reflexivity.
Qed.

Lemma shipped_key_passes_check_witness :
  snd (transcribe_audio PipelineExamples.slow_server (py "clips/a.wav")
                        DEFAULT_MODEL)
  = [Post (transcription_request GROQ_API_KEY (py "clips/a.wav")
                                 DEFAULT_MODEL);
     Print [Lit (py "ERROR: Request timed out")]].
Proof.
  destruct (shipped_key_passes_check PipelineExamples.slow_server
              (py "clips/a.wav") DEFAULT_MODEL)
    as (_ & _ & _ & _ & Hsend).
  destruct Hsend as (rest & H & _); [reflexivity ..|].
  rewrite H. vm_compute in H. injection H as <-. reflexivity.
Defined.

End TranscribeTheorems.

(* ================================================================== *)
(** * Searching and slicing *)
(* ================================================================== *)

Section SearchFacts.










End SearchFacts.

(* ================================================================== *)
(** * [parse_intent] and [execute_actions] *)
(* ================================================================== *)

Section PipelineTheorems.

Import TestVoicePipeline.











(** The loop goes through the actions that execute and prints a line for
    each. *)
Lemma run_actions_app (before rest : list pyval) (lines : list (list frag)) :
  Forall2 (fun a l => execute_action a = Ok l) before lines ->
  run_actions (before ++ rest)
  = (fst (run_actions rest), map Print lines ++ snd (run_actions rest)).
Proof.
  induction 1 as [|a l before lines Ha _ IH]; simpl.
  - now destruct (run_actions rest).
  - rewrite Ha, IH. reflexivity.
Qed.

Lemma execute_actions_runs (intent : list (pystr * pyval)) (l : list pyval) :
  lookup (py "actions") intent = Some (PList l) -> l <> [] ->
  execute_actions (PDict intent)
  = (fst (run_actions l),
     Print [Lit (py "[3/3] Executing actions...")] :: snd (run_actions l)).
Proof.
  intros Hl Hne. unfold execute_actions.
  destruct intent as [|kv intent]; [discriminate|].
  cbn [truthy negb has_actions get]. rewrite Hl.
  destruct l as [|a l]; [contradiction|].
  cbn [truthy negb iterate]. now destruct (run_actions (a :: l)).
Qed.




End PipelineTheorems.

(* ================================================================== *)
(** * The JSON scanner consumes its input *)
(* ================================================================== *)

Section ScannerFacts.

Lemma skip_ws_length (s : pystr) :
  (length (Json.skip_ws s) <= length s)%nat.
Proof.
  induction s as [|c s IH]; simpl; [lia|].
  destruct (Json.is_ws c); simpl; lia.
Qed.

Lemma take_digits_length (s : pystr) :
  (length (snd (Json.take_digits s)) <= length s)%nat.
Proof.
  induction s as [|c s IH]; simpl; [lia|].
  destruct (Json.is_digit c); [|simpl; lia].
  destruct (Json.take_digits s) as [ds r]. simpl in *. lia.
Qed.

Lemma scan_string_shorter (s : pystr) :
  forall cs r, Json.scan_string s = Ok (cs, r) ->
               (length r < length s)%nat.
Proof.
  assert (Hcons : forall c (x : res (pystr * pystr)) cs r,
             Json.cons_char c x = Ok (cs, r) ->
             exists cs', x = Ok (cs', r)).
  { intros c [[cs' r']|e] cs r; simpl; [|discriminate].
    intros [= _ <-]. now eexists. }
  assert (Hn : forall n s, (length s <= n)%nat ->
             forall cs r, Json.scan_string s = Ok (cs, r) ->
                          (length r < length s)%nat).
  { clear s. induction n as [|n IH]; intros s Hlen cs r.
    - destruct s; [discriminate|simpl in Hlen; lia].
    - destruct s as [|c s1]; [discriminate|]. cbn [Json.scan_string].
      simpl in Hlen.
      destruct (c =? 34)%N; [intros [= _ <-]; simpl; lia|].
      destruct (c =? 92)%N.
      + destruct s1 as [|e s2]; [discriminate|].
        destruct (e =? 117)%N.
        * destruct s2 as [|h1 [|h2 [|h3 [|h4 s3]]]]; try discriminate.
          destruct (Json.hex4 h1 h2 h3 h4) as [u|]; [|discriminate].
          assert (Hs3 : forall cs r,
                     Json.cons_char u (Json.scan_string s3) = Ok (cs, r) ->
                     (length r < length (c :: e :: h1 :: h2 :: h3 :: h4 :: s3))%nat).
          { intros cs0 r0 H. apply Hcons in H as [cs' H].
            apply IH in H; simpl in *; lia. }
          destruct s3 as [|b [|u' [|g1 [|g2 [|g3 [|g4 s4]]]]]];
            try (apply Hs3).
          destruct (Json.is_high_surrogate u && (b =? 92)%N && (u' =? 117)%N);
            [|apply Hs3].
          destruct (Json.hex4 g1 g2 g3 g4) as [u2|]; [|discriminate].
          destruct (Json.is_low_surrogate u2); [|apply Hs3].
          intros H. apply Hcons in H as [cs' H].
          apply IH in H; simpl in *; lia.
        * destruct (Json.simple_escape e) as [ch|]; [|discriminate].
          intros H. apply Hcons in H as [cs' H].
          apply IH in H; simpl in *; lia.
      + destruct (c <=? 31)%N; [discriminate|].
        intros H. apply Hcons in H as [cs' H].
        apply IH in H; simpl in *; lia. }
  apply (Hn (length s)). lia.
Qed.

Lemma scan_number_shorter (s : pystr) :
  forall v r, Json.scan_number s = Ok (v, r) -> (length r < length s)%nat.
Proof.
  intros v r. unfold Json.scan_number.
  set (signed := match s with
                 | c :: t => if (c =? 45)%N then (true, t) else (false, s)
                 | [] => (false, s)
                 end).
  assert (Hs1 : (length (snd signed) <= length s)%nat).
  { subst signed. destruct s as [|c t]; simpl; [lia|].
    destruct (c =? 45)%N; simpl; lia. }
  destruct signed as [neg s1]. simpl in Hs1.
  destruct s1 as [|c t]; [discriminate|].
  destruct (Json.is_digit c); [|discriminate].
  set (ip := if (c =? 48)%N then ([], t) else Json.take_digits t).
  assert (Hr1 : (length (snd ip) <= length t)%nat).
  { subst ip. destruct (c =? 48)%N; [simpl; lia|apply take_digits_length]. }
  destruct ip as [ds r1]. simpl in Hr1.
  set (fp := match r1 with
             | dot :: d :: t' =>
                 if (dot =? 46)%N && Json.is_digit d
                 then Json.take_digits (d :: t') else ([], r1)
             | _ => ([], r1)
             end).
  assert (Hr2 : (length (snd fp) <= length r1)%nat).
  { subst fp. destruct r1 as [|dot [|d t']]; try (simpl; lia).
    destruct ((dot =? 46)%N && Json.is_digit d); [|simpl; lia].
    pose proof (take_digits_length (d :: t')) as Hx.
    cbn [length] in *. eapply Nat.le_trans; [exact Hx|lia]. }
  destruct fp as [fpart r2]. simpl in Hr2.
  match goal with
  | |- (let '(epart, r3) := ?E in _) = _ -> _ => set (ep := E)
  end.
  assert (Hr3 : (length (snd ep) <= length r2)%nat).
  { subst ep. destruct r2 as [|e t']; simpl; [lia|].
    destruct ((e =? 101) || (e =? 69))%N; [|simpl; lia].
    set (sg := match t' with
               | sg :: u =>
                   if (sg =? 45)%N then (true, u)
                   else if (sg =? 43)%N then (false, u) else (false, t')
               | [] => (false, t')
               end).
    assert (Hsg : (length (snd sg) <= length t')%nat).
    { subst sg. destruct t' as [|x u]; simpl; [lia|].
      destruct (x =? 45)%N; [simpl; lia|].
      destruct (x =? 43)%N; simpl; lia. }
    destruct sg as [eneg t'']. simpl in Hsg.
    pose proof (take_digits_length t'') as Htd.
    destruct (Json.take_digits t'') as [es r']. simpl in Htd.
    destruct es; simpl; lia. }
  destruct ep as [epart r3]. simpl in Hr3. simpl in *.
  destruct fpart, epart;
    try (intros [= _ <-]; lia).
  destruct (Json.MAX_STR_DIGITS <? _)%N; [discriminate|].
  intros [= _ <-]. lia.
Qed.

Section Containers.

Variable scan : pystr -> res (pyval * pystr).
Hypothesis scan_shorter :
  forall s v r, scan s = Ok (v, r) -> (length r < length s)%nat.
Hypothesis scan_nil : scan [] = Err JSONDecodeError.

(** More fuel than the length of the input changes nothing. *)
Lemma array_items_fuel (f1 : nat) :
  forall f2 s acc,
    (length s <= f1)%nat -> (length s <= f2)%nat ->
    Json.array_items scan f1 s acc = Json.array_items scan f2 s acc.
Proof.
  induction f1 as [|f1 IH]; intros f2 s acc H1 H2.
  - destruct s; [|simpl in H1; lia].
    destruct f2; simpl; [reflexivity|]. now rewrite scan_nil.
  - destruct f2 as [|f2].
    + destruct s; [|simpl in H2; lia]. simpl. now rewrite scan_nil.
    + simpl. destruct (scan s) as [[v r]|e] eqn:Hs; [|reflexivity].
      apply scan_shorter in Hs.
      pose proof (skip_ws_length r) as Hr.
      destruct (Json.skip_ws r) as [|c r']; [reflexivity|].
      destruct (c =? 93)%N; [reflexivity|].
      destruct (c =? 44)%N; [|reflexivity].
      pose proof (skip_ws_length r'). simpl in Hr.
      apply IH; lia.
Qed.

Lemma array_items_shorter (fuel : nat) :
  forall s acc v r,
    Json.array_items scan fuel s acc = Ok (v, r) ->
    (length r < length s)%nat.
Proof.
  induction fuel as [|fuel IH]; intros s acc v r; simpl; [discriminate|].
  destruct (scan s) as [[v0 r0]|e] eqn:Hs; [|discriminate].
  apply scan_shorter in Hs. pose proof (skip_ws_length r0) as Hr.
  destruct (Json.skip_ws r0) as [|c r']; [discriminate|]. simpl in Hr.
  destruct (c =? 93)%N; [intros [= _ <-]; lia|].
  destruct (c =? 44)%N; [|discriminate].
  intros H. apply IH in H. pose proof (skip_ws_length r'). lia.
Qed.

Lemma object_items_fuel (f1 : nat) :
  forall f2 s acc,
    (length s <= f1)%nat -> (length s <= f2)%nat ->
    Json.object_items scan f1 s acc = Json.object_items scan f2 s acc.
Proof.
  induction f1 as [|f1 IH]; intros f2 s acc H1 H2.
  - destruct s; [|simpl in H1; lia]. now destruct f2.
  - destruct f2 as [|f2].
    + destruct s; [|simpl in H2; lia]. reflexivity.
    + simpl. destruct s as [|q s1]; [reflexivity|].
      destruct (q =? 34)%N; [|reflexivity].
      destruct (Json.scan_string s1) as [[key r]|e] eqn:Hk; [|reflexivity].
      apply scan_string_shorter in Hk.
      pose proof (skip_ws_length r) as Hr.
      destruct (Json.skip_ws r) as [|colon r1]; [reflexivity|].
      destruct (colon =? 58)%N; [|reflexivity].
      pose proof (skip_ws_length r1) as Hr1.
      destruct (scan (Json.skip_ws r1)) as [[v r2]|e] eqn:Hv; [|reflexivity].
      apply scan_shorter in Hv.
      pose proof (skip_ws_length r2) as Hr2.
      destruct (Json.skip_ws r2) as [|c r3]; [reflexivity|].
      destruct (c =? 125)%N; [reflexivity|].
      destruct (c =? 44)%N; [|reflexivity].
      pose proof (skip_ws_length r3). simpl in *.
      apply IH; lia.
Qed.

Lemma object_items_shorter (fuel : nat) :
  forall s acc v r,
    Json.object_items scan fuel s acc = Ok (v, r) ->
    (length r < length s)%nat.
Proof.
  induction fuel as [|fuel IH]; intros s acc v r; simpl; [discriminate|].
  destruct s as [|q s1]; [discriminate|].
  destruct (q =? 34)%N; [|discriminate].
  destruct (Json.scan_string s1) as [[key r0]|e] eqn:Hk; [|discriminate].
  apply scan_string_shorter in Hk.
  pose proof (skip_ws_length r0) as Hr.
  destruct (Json.skip_ws r0) as [|colon r1]; [discriminate|].
  destruct (colon =? 58)%N; [|discriminate].
  pose proof (skip_ws_length r1) as Hr1.
  destruct (scan (Json.skip_ws r1)) as [[v0 r2]|e] eqn:Hv; [|discriminate].
  apply scan_shorter in Hv.
  pose proof (skip_ws_length r2) as Hr2.
  destruct (Json.skip_ws r2) as [|c r3]; [discriminate|]. simpl in *.
  destruct (c =? 125)%N; [intros [= _ <-]; lia|].
  destruct (c =? 44)%N; [|discriminate].
  intros H. apply IH in H. pose proof (skip_ws_length r3). lia.
Qed.

End Containers.

Lemma skipn_shorter (n : nat) (c : N) (t : pystr) :
  (length (skipn (S n) (c :: t)) < length (c :: t))%nat.
Proof. simpl. rewrite length_skipn. lia. Qed.

Lemma ok_rest (v v' : pyval) (r r' : pystr) :
  @Ok (pyval * pystr) (v, r) = Ok (v', r') -> r' = r.
Proof. now intros [= _ <-]. Qed.

Lemma scan_atom_shorter (c : N) (t : pystr) (v : pyval) (r : pystr) :
  (if startswith (c :: t) (py "null") then Ok (PNone, skipn 4 (c :: t))
   else if startswith (c :: t) (py "true")
   then Ok (PBool true, skipn 4 (c :: t))
   else if startswith (c :: t) (py "false")
   then Ok (PBool false, skipn 5 (c :: t))
   else if startswith (c :: t) (py "NaN")
   then Ok (PFloat nan, skipn 3 (c :: t))
   else if startswith (c :: t) (py "Infinity")
   then Ok (PFloat infinity, skipn 8 (c :: t))
   else if startswith (c :: t) (py "-Infinity")
   then Ok (PFloat neg_infinity, skipn 9 (c :: t))
   else Json.scan_number (c :: t)) = Ok (v, r) ->
  (length r < length (c :: t))%nat.
Proof.
  repeat match goal with
         | |- context [if startswith ?a ?b then _ else _] =>
             destruct (startswith a b);
             [intros H; apply ok_rest in H; subst r; apply skipn_shorter|]
         end.
  apply scan_number_shorter.
Qed.

(** A scanned value leaves strictly less input than it was given. *)
Lemma scan_once_shorter (depth : nat) :
  forall s v r, Json.scan_once depth s = Ok (v, r) ->
                (length r < length s)%nat.
Proof.
  induction depth as [|d IH]; intros s v r H;
    (destruct s as [|c t]; [discriminate|]); cbn [Json.scan_once] in H;
    (destruct (c =? 34)%N;
     [destruct (Json.scan_string t) as [[cs r']|e] eqn:Hs; [|discriminate];
      apply scan_string_shorter in Hs; injection H as _ <-; simpl; lia|]);
    (destruct (c =? 123)%N; [|destruct (c =? 91)%N]);
    try discriminate; try (now apply (scan_atom_shorter c t v r)).
  - unfold Json.scan_object in H. pose proof (skip_ws_length t) as Ht.
    destruct (Json.skip_ws t) as [|c' r']; [discriminate|]. simpl in Ht.
    destruct (c' =? 125)%N; [injection H as _ <-; simpl; lia|].
    apply (object_items_shorter (Json.scan_once d) IH) in H.
    simpl in *. lia.
  - unfold Json.scan_array in H. pose proof (skip_ws_length t) as Ht.
    destruct (Json.skip_ws t) as [|c' r']; [discriminate|]. simpl in Ht.
    destruct (c' =? 93)%N; [injection H as _ <-; simpl; lia|].
    apply (array_items_shorter (Json.scan_once d) IH) in H.
    simpl in *. lia.
Qed.

(** The fuel [scan_array] and [scan_object] give their loops is enough:
    any larger amount gives the same result. *)
Lemma container_fuel_is_enough (depth fuel : nat) (s : pystr) :
  (length s <= fuel)%nat ->
  Json.array_items (Json.scan_once depth) fuel (Json.skip_ws s) []
  = Json.array_items (Json.scan_once depth) (length s) (Json.skip_ws s) []
  /\ Json.object_items (Json.scan_once depth) fuel (Json.skip_ws s) []
     = Json.object_items (Json.scan_once depth) (length s) (Json.skip_ws s) [].
Proof.
  intros H. pose proof (skip_ws_length s).
  split.
  - apply array_items_fuel;
      [apply scan_once_shorter | now destruct depth | lia | lia].
  - apply object_items_fuel; [apply scan_once_shorter | lia | lia].
Qed.

End ScannerFacts.

(* ================================================================== *)
(** * [capture_sample]: what the loop reads, prints and writes *)
(* ================================================================== *)

Section LoopLines.

Import CaptureSamples.

Variable start : float.

Lemma emit_fst {A} (e : list effect) (r : option (A * list effect)) :
  option_map fst (emit e r) = option_map fst r.
Proof. now destruct r as [[x e']|]. Qed.

Lemma emit_snd {A} (e : list effect) (r : option (A * list effect)) :
  option_map snd (emit e r) = option_map (app e) (option_map snd r).
Proof. now destruct r as [[x e']|]. Qed.

(** Within the deadline, the loop goes through the non-empty stripped
    lines, one after the other. *)
Lemma read_loop_lines (l : list attempt) :
  forall st,
    Forall (in_time start) l ->
    option_map fst (read_loop start st l)
    = option_map Broke (run_lines st (lines_of l)).
Proof.
  induction l as [|a l IH]; intros st Ht; [reflexivity|].
  inversion_clear Ht as [|? ? Ha Ht'].
  cbn [read_loop]. rewrite Ha.
  unfold lines_of. cbn [flat_map]. fold (lines_of l).
  unfold line_of, on_read. destruct (rx a) as [e|text].
  - rewrite emit_fst. now apply IH.
  - destruct (PyStr.truthy (strip text)).
    + cbn [app run_lines].
      destruct (on_line st (strip text)) as [[st'|st'] eff]; cbn [fst].
      * rewrite emit_fst. now apply IH.
      * reflexivity.
    + rewrite emit_fst. now apply IH.
Qed.

(** X1: Within the deadline, how the loop of [capture_sample] ends is
    settled by the sequence of non-empty stripped lines alone: passes
    whose read raised or gave only whitespace, and the clock readings, make
    no difference to the loop's variables at the break. *)
Theorem lines_settle_the_loop (st : locals) (l1 l2 : list attempt) :
  Forall (in_time start) l1 -> Forall (in_time start) l2 ->
  lines_of l1 = lines_of l2 ->
  option_map fst (read_loop start st l1)
  = option_map fst (read_loop start st l2).
Proof.
  intros H1 H2 Hl.
  now rewrite (read_loop_lines l1 st H1), (read_loop_lines l2 st H2), Hl.
Qed.

End LoopLines.

Section StripFacts.

Lemma lstrip_head (s : pystr) (c : N) (t : pystr) :
  lstrip s = c :: t -> isspace c = false.
Proof.
  induction s as [|a s IH]; simpl; [discriminate|].
  destruct (isspace a) eqn:Ha; [exact IH|].
  now intros [= <- _].
Qed.

Lemma rstrip_head (s : pystr) (c : N) (t : pystr) :
  rstrip s = c :: t -> exists t', s = c :: t'.
Proof.
  destruct s as [|a s]; simpl; [discriminate|].
  destruct (rstrip s) as [|d r].
  - destruct (isspace a); [discriminate|]. intros [= <- _]. now eexists.
  - intros [= <- _]. now eexists.
Qed.

(** A stripped text does not begin with whitespace. *)
Lemma strip_head (s : pystr) (c : N) (t : pystr) :
  strip s = c :: t -> isspace c = false.
Proof.
  unfold strip. intros H. destruct (rstrip_head _ _ _ H) as [t' Ht].
  exact (lstrip_head s c t' Ht).
Qed.

Lemma lstrip_fixed (s : pystr) :
  (forall c t, s = c :: t -> isspace c = false) -> lstrip s = s.
Proof.
  destruct s as [|c t]; [reflexivity|]. intros H. simpl.
  now rewrite (H c t eq_refl).
Qed.

Lemma rstrip_rstrip (s : pystr) : rstrip (rstrip s) = rstrip s.
Proof.
  induction s as [|a s IH]; [reflexivity|]. cbn [rstrip].
  destruct (rstrip s) as [|d r] eqn:Hr.
  - destruct (isspace a) eqn:Ha; [reflexivity|]. simpl. now rewrite Ha.
  - change (rstrip (a :: d :: r))
      with (match rstrip (d :: r) with
            | [] => if isspace a then [] else [a]
            | x :: y => a :: x :: y
            end).
    now rewrite IH.
Qed.

(** Stripping twice is stripping once. *)
Lemma strip_strip (s : pystr) : strip (strip s) = strip s.
Proof.
  unfold strip at 1. rewrite lstrip_fixed.
  - unfold strip. apply rstrip_rstrip.
  - intros c t. apply strip_head.
Qed.

Lemma In_strip (c : N) (s : pystr) : In c (strip s) -> In c s.
Proof.
  intros H. unfold strip in H.
  destruct (rstrip_prefix (lstrip s)) as [t Ht].
  destruct (lstrip_suffix s) as [u Hu].
  rewrite Hu. apply in_or_app. right. rewrite Ht. apply in_or_app. now left.
Qed.

Lemma In_replace_from (c : N) (old : pystr) (s : pystr) :
  forall k, In c (replace_from old [] k s) -> In c s.
Proof.
  induction s as [|a s IH]; intros k; [now destruct k|].
  destruct k as [|k]; cbn [replace_from].
  - destruct (startswith (a :: s) old).
    + cbn [app]. intros H. right. exact (IH _ H).
    + intros [->|H]; [now left|right; exact (IH _ H)].
  - intros H. right. exact (IH _ H).
Qed.

(** No segment of a split holds the separator. *)
Lemma split_segments (sep : N) (s : pystr) (seg : pystr) :
  In seg (split sep s) -> ~ In sep seg.
Proof.
  revert seg. induction s as [|c s IH]; intros seg; simpl.
  - intros [<-|[]]. tauto.
  - destruct (N.eqb_spec c sep) as [->|Hc].
    + intros [<-|H]; [tauto|now apply IH].
    + destruct (split sep s) as [|seg0 segs] eqn:Hs.
      * intros [<-|[]]. intros [H|[]]. congruence.
      * intros [<-|H].
        -- intros [H|H]; [congruence|].
           apply (IH seg0); [now left|exact H].
        -- apply IH. now right.
Qed.

End StripFacts.

Section CaptureFacts.

Import CaptureSamples.

(** X2: The label a start marker carries never holds three dashes in a
    row nor a colon, and has no whitespace at either end: it is the text
    between the first colon and the next, with every [---] removed, and
    stripped. *)
Theorem marker_label_is_clean (line : pystr) :
  contains (py "---") (marker_label line) = false
  /\ contains (py ":") (marker_label line) = false
  /\ strip (marker_label line) = marker_label line.
Proof.
  unfold marker_label. split; [|split].
  - apply contains_strip, remove_dashes_gone.
  - destruct (contains (py ":") _) eqn:H; [|reflexivity]. exfalso.
    apply contains_In, In_strip in H.
    change (py "---") with [45%N; 45%N; 45%N] in H.
    apply In_replace_from in H.
    destruct (nth_in_or_default 1 (split 58 line) []) as [Hin|Hd].
    + exact (split_segments 58 line _ Hin H).
    + rewrite Hd in H. exact H.
  - apply strip_strip.
Qed.

(** What a call that ended did, in order: it emptied the input buffer,
    wrote the command, printed, and then either gave up at the deadline or
    went on to save what the loop left. *)
Lemma capture_sample_shape (w : world) (label : pystr) (r : outcome)
      (eff : list effect) :
  capture_sample w label = Some (r, eff) ->
  exists prints tail,
    eff = ResetInputBuffer :: SerialWrite (label ++ nl) :: prints ++ tail
    /\ forallb is_print prints = true
    /\ ((r = Return false /\ tail = [])
        \/ exists st eff0,
             read_loop (start_time w) (initial label) (attempts w)
             = Some (Broke st, eff0)
             /\ save w st = (r, tail)).
Proof.
  unfold capture_sample.
  destruct (read_loop (start_time w) (initial label) (attempts w))
    as [[[|st] eff0]|] eqn:Hl; [| |discriminate].
  - intros [= <- <-].
    exists (Print (nl ++ py "Sent command: " ++ label)
            :: Print (py "Waiting for ESP32 to record...") :: eff0), [].
    split; [now rewrite app_nil_r|]. split; [|now left].
    simpl. exact (read_loop_prints _ _ _ _ _ Hl).
  - destruct (save w st) as [r' tail] eqn:Hs. intros [= <- <-].
    exists (Print (nl ++ py "Sent command: " ++ label)
            :: Print (py "Waiting for ESP32 to record...") :: eff0), tail.
    split; [reflexivity|]. split.
    + simpl. exact (read_loop_prints _ _ _ _ _ Hl).
    + right. now exists st, eff0.
Qed.

(** How the saving ends, and what it does to the file system. *)
Lemma save_cases (w : world) (st : locals) (r : outcome)
      (tail : list effect) :
  save w st = (r, tail) ->
  match r with
  | Return true =>
      exists data,
        PyStr.truthy (hex_data st) = true
        /\ Hex.fromhex (hex_data st) = Some data
        /\ fs_effects tail
           = [MakeDirs (label_dir_of (actual_label st));
              WriteFile (filename_of w (actual_label st)) data]
  | Return false => fs_effects tail = []
  | RaiseOSError =>
      fs_effects tail = []
      \/ fs_effects tail = [MakeDirs (label_dir_of (actual_label st))]
  end.
Proof.
  unfold save. destruct (PyStr.truthy (hex_data st)) eqn:Ht; cbn [negb].
  - destruct (Hex.fromhex (hex_data st)) as [data|] eqn:Hh.
    + destruct (makedirs_ok w); cbn [negb].
      * destruct (open_ok w); cbn [negb]; intros [= <- <-].
        -- now exists data.
        -- now right.
      * intros [= <- <-]. now left.
    + now intros [= <- <-].
  - now intros [= <- <-].
Qed.



End CaptureFacts.

Section WrittenFile.

Import CaptureSamples.

Lemma ascii_space_isspace (c : N) :
  Hex.is_ascii_space c = true -> isspace c = true.
Proof.
  unfold Hex.is_ascii_space, isspace. intros H.
  apply orb_true_iff in H as [H|H].
  - now rewrite H.
  - apply N.eqb_eq in H. now subst c.
Qed.

(** The digit written for the value of a digit is that digit in lower
    case. *)
Lemma digit_lower (c v : N) :
  Hex.digit_value c = Some v ->
  Hex.digit false v = lower_hex c /\ (v < 16)%N.
Proof.
  unfold Hex.digit_value, Hex.digit, lower_hex.
  destruct (N.leb_spec 48 c), (N.leb_spec c 57), (N.leb_spec 97 c),
    (N.leb_spec c 102), (N.leb_spec 65 c), (N.leb_spec c 70);
    cbn [andb]; intros [= <-];
    repeat match goal with
           | |- context [N.ltb ?a ?b] => destruct (N.ltb_spec a b)
           end; lia.
Qed.

Lemma byte_of_value (top bot : N) :
  (top < 16)%N -> (bot < 16)%N ->
  Byte.to_N (Hex.byte_of top bot) = (16 * top + bot)%N.
Proof.
  intros Ht Hb. unfold Hex.byte_of.
  destruct (Byte.of_N (16 * top + bot)) as [b|] eqn:H.
  - now apply Byte.to_of_N.
  - apply Byte.of_N_None_iff in H. lia.
Qed.

(** Encoding what was decoded gives the digits back, in lower case and
    without the whitespace. *)
Lemma hex_fromhex_scan (n : nat) :
  forall s bs, (length s <= n)%nat ->
  Hex.fromhex_scan s = Some bs ->
  Hex.hex bs = map lower_hex (digits_of s).
Proof.
  induction n as [|n IH]; intros s bs Hn H.
  - destruct s; [|simpl in Hn; lia]. now injection H as <-.
  - destruct s as [|c s1]; [now injection H as <-|].
    cbn [Hex.fromhex_scan] in H. unfold digits_of. cbn [filter].
    destruct (Hex.is_ascii_space c) eqn:Hc.
    + simpl in Hn. cbn [negb]. apply IH; [lia|exact H].
    + destruct (Hex.digit_value c) as [top|] eqn:Htop; [|discriminate].
      destruct s1 as [|d s2]; [discriminate|].
      destruct (Hex.digit_value d) as [bot|] eqn:Hbot; [|discriminate].
      destruct (Hex.fromhex_scan s2) as [bs'|] eqn:Hs2; [|discriminate].
      injection H as <-. simpl in Hn.
      destruct (digit_lower c top Htop) as [Hlc Ht].
      destruct (digit_lower d bot Hbot) as [Hld Hb].
      assert (Hd : Hex.is_ascii_space d = false).
      { destruct (Hex.is_ascii_space d) eqn:Hsd; [|reflexivity].
        revert Hbot Hsd. unfold Hex.digit_value, Hex.is_ascii_space.
        destruct (N.leb_spec 48 d), (N.leb_spec d 57), (N.leb_spec 97 d),
          (N.leb_spec d 102), (N.leb_spec 65 d), (N.leb_spec d 70),
          (N.leb_spec 9 d), (N.leb_spec d 13), (N.eqb_spec d 32);
          simpl; try discriminate; intros; lia. }
      cbn [negb filter]. rewrite Hd. cbn [negb map].
      unfold Hex.hex, Hex.hex_of. cbn [flat_map app].
      rewrite (byte_of_value top bot Ht Hb).
      replace ((16 * top + bot) / 16)%N with top
        by (apply N.div_unique with bot; lia).
      replace ((16 * top + bot) mod 16)%N with bot
        by (apply N.mod_unique with top; lia).
      rewrite Hlc, Hld. do 2 f_equal.
      apply (IH s2 bs'); [lia|exact Hs2].
Qed.

(** The hex data never begins with whitespace: it is made of stripped,
    non-empty lines. *)
Lemma on_read_head (st : locals) (r : read_result) :
  (forall c t, hex_data st = c :: t -> isspace c = false) ->
  forall st',
    fst (on_read st r) = Next st' \/ fst (on_read st r) = Stop st' ->
    forall c t, hex_data st' = c :: t -> isspace c = false.
Proof.
  intros Hst st'. unfold on_read. destruct r as [e|text].
  - cbn [fst]. intros [[= <-]|H]; [exact Hst|discriminate].
  - destruct (PyStr.truthy (strip text)) eqn:Ht.
    + unfold on_line.
      destruct (startswith (strip text) WAV_START).
      * cbn [fst]. intros [[= <-]|H]; [exact Hst|discriminate].
      * destruct (contains WAV_END (strip text)).
        -- cbn [fst]. intros [H|[= <-]]; [discriminate|exact Hst].
        -- destruct (capturing st).
           ++ cbn [fst]. intros [[= <-]|H]; [|discriminate].
              cbn [hex_data]. intros c t.
              destruct (hex_data st) as [|d u] eqn:Hh.
              ** cbn [app]. apply strip_head.
              ** cbn [app]. intros [= <- _]. exact (Hst d u eq_refl).
           ++ cbn [fst]. intros [[= <-]|H]; [exact Hst|discriminate].
    + cbn [fst]. intros [[= <-]|H]; [exact Hst|discriminate].
Qed.

Lemma read_loop_head (start : float) (l : list attempt) :
  forall st st' eff,
    (forall c t, hex_data st = c :: t -> isspace c = false) ->
    read_loop start st l = Some (Broke st', eff) ->
    forall c t, hex_data st' = c :: t -> isspace c = false.
Proof.
  induction l as [|a l IH]; intros st st' eff Hst; cbn [read_loop];
    [discriminate|].
  destruct (deadline_passed start (now a)); [discriminate|].
  pose proof (on_read_head st (rx a) Hst) as Hn.
  destruct (on_read st (rx a)) as [[st1|st1] e1]; cbn [fst] in Hn.
  - destruct (read_loop start st1 l) as [[x e2]|] eqn:Hr;
      cbn [emit]; [|discriminate].
    intros [= -> _]. apply (IH st1 st' e2); [|exact Hr].
    apply Hn. now left.
  - intros [= <- _]. apply Hn. now right.
Qed.

Lemma files_written_fs (eff : list effect) :
  files_written (fs_effects eff) = files_written eff.
Proof.
  induction eff as [|e eff IH]; [reflexivity|].
  destruct e; simpl; try exact IH. now rewrite IH.
Qed.

(** X4: The file a successful call writes is never empty, and it holds
    exactly the bytes the received digits denote: encoding it in
    hexadecimal gives the hex data the loop gathered, in lower case and
    without its whitespace. *)
Theorem written_file_is_the_digits (w : world) (label : pystr)
        (eff : list effect) :
  capture_sample w label = Some (Return true, eff) ->
  exists st eff0 data,
    read_loop (start_time w) (initial label) (attempts w)
    = Some (Broke st, eff0)
    /\ files_written eff = [(filename_of w (actual_label st), data)]
    /\ data <> []
    /\ Hex.hex data = map lower_hex (digits_of (hex_data st)).
Proof.
  intros H.
  destruct (capture_sample_shape w label _ eff H)
    as (prints & tail & -> & Hp & Hc).
  destruct Hc as [[[=] _]|(st & eff0 & Hl & Hs)].
  destruct (save_cases w st _ tail Hs) as (data & Ht & Hh & Hf).
  exists st, eff0, data. split; [exact Hl|]. split; [|split].
  - change (ResetInputBuffer :: SerialWrite (label ++ nl) :: prints ++ tail)
      with ([ResetInputBuffer; SerialWrite (label ++ nl)] ++ prints ++ tail).
    rewrite !files_written_app, (files_written_prints prints Hp).
    rewrite <- (files_written_fs tail), Hf. reflexivity.
  - assert (Hhead : forall c t, hex_data st = c :: t -> isspace c = false).
    { apply (read_loop_head (start_time w) (attempts w) (initial label)
                            st eff0); [discriminate|exact Hl]. }
    destruct (hex_data st) as [|c t] eqn:Hd; [discriminate|].
    specialize (Hhead c t eq_refl).
    unfold Hex.fromhex in Hh.
    destruct (forallb _ (c :: t)); [|discriminate].
    cbn [Hex.fromhex_scan] in Hh.
    destruct (Hex.is_ascii_space c) eqn:Hc.
    + apply ascii_space_isspace in Hc. congruence.
    + destruct (Hex.digit_value c); [|discriminate].
      destruct t as [|d u]; [discriminate|].
      destruct (Hex.digit_value d); [|discriminate].
      destruct (Hex.fromhex_scan u); [|discriminate].
      injection Hh as <-. discriminate.
  - unfold Hex.fromhex in Hh.
    destruct (forallb _ (hex_data st)); [|discriminate].
    exact (hex_fromhex_scan _ _ _ (le_n _) Hh).
Qed.

Lemma written_file_is_the_digits_witness :
  exists eff data,
    capture_sample Examples.spaced_run (py "noise") = Some (Return true, eff)
    /\ map snd (files_written eff) = [data]
    /\ Hex.hex data = py "abcd".
Proof.
  destruct (capture_sample Examples.spaced_run (py "noise"))
    as [[r eff]|] eqn:H; [|vm_compute in H; discriminate].
  assert (Hr : r = Return true)
    by (vm_compute in H; now injection H as <- _).
  subst r.
  destruct (written_file_is_the_digits _ _ _ H)
    as (st & eff0 & data & Hl & Hf & _ & Hx).
  exists eff, data. split; [reflexivity|]. split; [now rewrite Hf|].
  rewrite Hx. vm_compute in Hl. injection Hl as <- _. reflexivity.
Defined.

End WrittenFile.

Section LoopOutput.

Import CaptureSamples.

Variable start : float.

(** A quiet pass prints its report and nothing else. *)
Lemma on_read_quiet_report (st : locals) (a : attempt) :
  quiet a ->
  on_read st (rx a)
  = (Next (absorb st (match line_of a with
                      | Some line => [line]
                      | None => []
                      end)), report (capturing st) a).
Proof.
  unfold quiet, line_of, on_read, report. destruct (rx a) as [e|text].
  - intros _. now rewrite absorb_nil.
  - destruct (PyStr.truthy (strip text)) eqn:Ht.
    + intros [Hs He]. unfold on_line. rewrite Hs, He.
      destruct st as [c h l]. unfold absorb. simpl.
      destruct c; simpl; now rewrite ?app_nil_r.
    + intros _. now rewrite absorb_nil.
Qed.

Lemma absorb_capturing (st : locals) (ls : list pystr) :
  capturing (absorb st ls) = capturing st.
Proof. reflexivity. Qed.

Lemma read_loop_quiet_report (pre : list attempt) :
  forall st rest,
    Forall (in_time start) pre -> Forall quiet pre ->
    read_loop start st (pre ++ rest)
    = emit (flat_map (report (capturing st)) pre)
           (read_loop start (absorb st (lines_of pre)) rest).
Proof.
  induction pre as [|a pre IH]; intros st rest Ht Hq.
  - simpl. now rewrite absorb_nil, emit_nil.
  - inversion_clear Ht as [|? ? Ha Ht']. inversion_clear Hq as [|? ? Hqa Hq'].
    cbn [app read_loop flat_map]. rewrite Ha, (on_read_quiet_report st a Hqa).
    rewrite (IH _ rest Ht' Hq'), emit_emit, absorb_app, absorb_capturing.
    reflexivity.
Qed.

Lemma on_read_start_report (st : locals) (a : attempt) (line : pystr) :
  line_of a = Some line -> startswith line WAV_START = true ->
  on_read st (rx a)
  = (Next (started st line),
     (if capturing st then [] else [Print (py "  " ++ line)])
       ++ [Print (nl ++ py "  Receiving WAV data...")]).
Proof.
  unfold line_of, on_read. destruct (rx a) as [e|text]; [discriminate|].
  destruct (PyStr.truthy (strip text)); [|discriminate].
  intros [= <-] Hs. unfold on_line. now rewrite Hs.
Qed.

Lemma on_read_end_report (st : locals) (a : attempt) (line : pystr) :
  line_of a = Some line -> is_end_marker line = true ->
  on_read st (rx a)
  = (Stop st, if capturing st then [] else [Print (py "  " ++ line)]).
Proof.
  unfold line_of, on_read, is_end_marker.
  destruct (rx a) as [e|text]; [discriminate|].
  destruct (PyStr.truthy (strip text)); [|discriminate].
  intros [= <-] H. apply andb_true_iff in H as [Hs He].
  apply negb_true_iff in Hs. unfold on_line. now rewrite Hs, He.
Qed.

(** X5: What the loop prints in a framed run: every line before the start
    marker is echoed behind two spaces, the start marker too, then the
    notice that data is coming; of the payload and the end marker nothing
    is printed, only the complaints about failed reads. *)
Theorem payload_is_not_echoed (label : pystr)
        (decoys payload rest : list attempt) (s f : attempt)
        (sl fl : pystr) :
  Forall (in_time start) (decoys ++ s :: payload ++ [f]) ->
  Forall quiet decoys ->
  line_of s = Some sl -> startswith sl WAV_START = true ->
  Forall quiet payload ->
  line_of f = Some fl -> is_end_marker fl = true ->
  option_map snd
    (read_loop start (initial label) (decoys ++ s :: payload ++ f :: rest))
  = Some (flat_map (report false) decoys
            ++ [Print (py "  " ++ sl);
                Print (nl ++ py "  Receiving WAV data...")]
            ++ flat_map (report true) payload).
Proof.
  intros Ht Hd Hsl Hs Hp Hfl Hf.
  apply Forall_app in Ht as [Ht1 Ht2].
  inversion_clear Ht2 as [|? ? Hts Ht3].
  apply Forall_app in Ht3 as [Ht3 Ht4].
  inversion_clear Ht4 as [|? ? Htf _].
  rewrite (read_loop_quiet_report decoys (initial label) _ Ht1 Hd).
  cbn [read_loop]. rewrite Hts, (on_read_start_report _ s sl Hsl Hs).
  rewrite absorb_capturing. cbn [capturing initial].
  rewrite (read_loop_quiet_report payload _ (f :: rest) Ht3 Hp).
  cbn [read_loop]. rewrite Htf, (on_read_end_report _ f fl Hfl Hf).
  rewrite absorb_capturing. cbn [capturing started emit option_map snd].
  now rewrite !app_nil_r.
Qed.

End LoopOutput.

Lemma payload_is_not_echoed_witness :
  option_map snd
    (CaptureSamples.read_loop
       100%float (CaptureSamples.initial (py "noise"))
       [Examples.boot; Examples.noise_pass; Examples.start_hey_bob;
        Examples.pass 104 "0A1"; Examples.noise_pass;
        Examples.pass 105 "BFF"; Examples.finish; Examples.boot])
  = Some [CaptureSamples.Print (py "  ESP32 ready");
          CaptureSamples.Print (py "Read error: device busy");
          CaptureSamples.Print (py "  ---WAV_START:hey_bob---");
          CaptureSamples.Print (nl ++ py "  Receiving WAV data...");
          CaptureSamples.Print (py "Read error: device busy")].
Proof.
  refine (payload_is_not_echoed
            100%float (py "noise") [Examples.boot; Examples.noise_pass]
            [Examples.pass 104 "0A1"; Examples.noise_pass;
             Examples.pass 105 "BFF"]
            [Examples.boot] Examples.start_hey_bob Examples.finish
            (py "---WAV_START:hey_bob---") (py "---WAV_END---")
            _ _ _ _ _ _ _); run.
Defined.

Lemma lines_settle_the_loop_witness :
  option_map fst
    (CaptureSamples.read_loop
       100%float (CaptureSamples.initial (py "noise"))
       [Examples.boot; Examples.noise_pass; Examples.blank;
        Examples.start_plain; Examples.noise_pass; Examples.pass 104 "00";
        Examples.blank; Examples.finish])
  = option_map fst
      (CaptureSamples.read_loop
         100%float (CaptureSamples.initial (py "noise"))
         [Examples.pass 114 "ESP32 ready"; Examples.pass 114 "---WAV_START---";
          Examples.pass 114.5 "  00  "; Examples.pass 115 "---WAV_END---"]).
Proof.
  apply lines_settle_the_loop; run.
Defined.

Section LoopComposition.

Import CaptureSamples.

Variable start : float.

(** X6: A second start marker does not empty the hex data: what was
    gathered after the first one stays in front of what follows, and the
    label is the one the later marker carries, or else the one in effect
    before it. *)
Theorem second_start_keeps_data (label : pystr)
        (decoys first second rest : list attempt) (s1 s2 f : attempt)
        (sl1 sl2 fl : pystr) :
  Forall (in_time start) (decoys ++ s1 :: first ++ s2 :: second ++ [f]) ->
  Forall quiet decoys ->
  line_of s1 = Some sl1 -> startswith sl1 WAV_START = true ->
  Forall quiet first ->
  line_of s2 = Some sl2 -> startswith sl2 WAV_START = true ->
  Forall quiet second ->
  line_of f = Some fl -> is_end_marker fl = true ->
  option_map fst
    (read_loop start (initial label)
               (decoys ++ s1 :: first ++ s2 :: second ++ f :: rest))
  = Some (Broke {| capturing := true;
                   hex_data := concat (lines_of first)
                                 ++ concat (lines_of second);
                   actual_label :=
                     if contains (py ":") sl2 then marker_label sl2
                     else if contains (py ":") sl1 then marker_label sl1
                     else label |}).
Proof.
  intros Ht Hd Hsl1 Hs1 Hp1 Hsl2 Hs2 Hp2 Hfl Hf.
  apply Forall_app in Ht as [Ht1 Ht].
  inversion_clear Ht as [|? ? Hts1 Ht2].
  apply Forall_app in Ht2 as [Ht2 Ht].
  inversion_clear Ht as [|? ? Hts2 Ht3].
  apply Forall_app in Ht3 as [Ht3 Ht].
  inversion_clear Ht as [|? ? Htf _].
  rewrite (read_loop_quiet_report start decoys (initial label) _ Ht1 Hd).
  rewrite emit_fst. cbn [read_loop].
  rewrite Hts1, (on_read_start_report _ s1 sl1 Hsl1 Hs1), emit_fst.
  rewrite (read_loop_quiet_report start first _ _ Ht2 Hp1), emit_fst.
  cbn [read_loop].
  rewrite Hts2, (on_read_start_report _ s2 sl2 Hsl2 Hs2), emit_fst.
  rewrite (read_loop_quiet_report start second _ (f :: rest) Ht3 Hp2).
  rewrite emit_fst. cbn [read_loop].
  rewrite Htf, (on_read_end_report _ f fl Hfl Hf).
  cbn [option_map fst]. unfold absorb, started.
  cbn [capturing hex_data actual_label initial app].
  reflexivity.
Qed.


End LoopComposition.

Lemma second_start_keeps_data_witness :
  option_map fst
    (CaptureSamples.read_loop
       100%float (CaptureSamples.initial (py "noise"))
       [Examples.boot; Examples.start_hey_bob; Examples.pass 104 "0A1";
        Examples.start_plain; Examples.pass 105 "BFF"; Examples.finish])
  = Some (CaptureSamples.Broke
            {| CaptureSamples.capturing := true;
               CaptureSamples.hex_data := py "0A1BFF";
               CaptureSamples.actual_label := py "hey_bob" |}).
Proof.
  refine (second_start_keeps_data
            100%float (py "noise") [Examples.boot]
            [Examples.pass 104 "0A1"] [Examples.pass 105 "BFF"] []
            Examples.start_hey_bob Examples.start_plain Examples.finish
            (py "---WAV_START:hey_bob---") (py "---WAV_START---")
            (py "---WAV_END---") _ _ _ _ _ _ _ _ _ _); run.
Defined.

Section LaterInput.

Import CaptureSamples.



End LaterInput.

(* ================================================================== *)
(** * [batch_record]: rounds, pauses and the count it reports *)
(* ================================================================== *)

Section BatchFacts.

Import CaptureSamples.
Import CaptureScript.

Lemma effects_of_app (e1 e2 : list event) :
  effects_of (e1 ++ e2) = effects_of e1 ++ effects_of e2.
Proof. apply flat_map_app. Qed.

Lemma effects_of_Do (eff : list effect) : effects_of (map Do eff) = eff.
Proof.
  induction eff as [|e eff IH]; [reflexivity|]. simpl. now rewrite IH.
Qed.

Lemma pauses_of_app (e1 e2 : list event) :
  pauses_of (e1 ++ e2) = pauses_of e1 ++ pauses_of e2.
Proof. apply flat_map_app. Qed.

Lemma pauses_of_Do (eff : list effect) : pauses_of (map Do eff) = [].
Proof. induction eff as [|e eff IH]; [reflexivity|exact IH]. Qed.

Lemma commands_of_app (e1 e2 : list effect) :
  commands_of (e1 ++ e2) = commands_of e1 ++ commands_of e2.
Proof. apply flat_map_app. Qed.

Lemma commands_of_prints (eff : list effect) :
  forallb is_print eff = true -> commands_of eff = [].
Proof.
  induction eff as [|e eff IH]; [reflexivity|]. simpl.
  destruct e; simpl; try discriminate. exact IH.
Qed.

(** A call that ended wrote its command once, and wrote one file if it
    returned True, none otherwise. *)
Lemma capture_sample_traffic (w : world) (label : pystr) (r : outcome)
      (eff : list effect) :
  capture_sample w label = Some (r, eff) ->
  commands_of eff = [label ++ nl]
  /\ length (files_written eff)
     = match r with Return true => 1 | _ => 0 end.
Proof.
  intros H.
  destruct (capture_sample_shape w label r eff H)
    as (prints & tail & -> & Hp & Hc).
  change (ResetInputBuffer :: SerialWrite (label ++ nl) :: prints ++ tail)
    with ([ResetInputBuffer; SerialWrite (label ++ nl)] ++ prints ++ tail).
  rewrite !commands_of_app, !files_written_app.
  rewrite (commands_of_prints prints Hp), (files_written_prints prints Hp).
  cbn [commands_of files_written flat_map app].
  destruct Hc as [[-> ->]|(st & eff0 & _ & Hs)]; [now split|].
  revert Hs. unfold save.
  destruct (PyStr.truthy (hex_data st)); cbn [negb];
    [|intros [= <- <-]; now split].
  destruct (Hex.fromhex (hex_data st)) as [data|];
    [|intros [= <- <-]; now split].
  destruct (makedirs_ok w); cbn [negb]; [|intros [= <- <-]; now split].
  destruct (open_ok w); cbn [negb]; intros [= <- <-]; now split.
Qed.

Lemma run_capture_traffic (r : capture_run) (label : pystr) (b : bool)
      (ev : list event) :
  completes r ->
  run_capture r label = Some (Returns b, ev) ->
  commands_of (effects_of ev) = [label ++ nl]
  /\ length (files_written (effects_of ev)) = (if b then 1 else 0)
  /\ pauses_of ev = [].
Proof.
  destruct r as [w|done]; [intros _|intros []]. unfold run_capture.
  destruct (capture_sample w label) as [[[b'|] eff]|] eqn:H;
    [|discriminate|discriminate].
  intros [= <- <-]. rewrite effects_of_Do, pauses_of_Do.
  destruct (capture_sample_traffic w label _ eff H) as [H1 H2].
  repeat split; [exact H1|]. rewrite H2. now destruct b'.
Qed.

(** The loop of a batch that no Ctrl+C cuts inside a call: the successes
    it counts are the files it wrote. *)
Lemma batch_loop_files (label : pystr) (count : Z)
      (runs : list capture_run) :
  forall i successful pauses k ev,
    Forall completes runs ->
    batch_loop label count i successful runs pauses = Some (Returns k, ev) ->
    k = (successful
         + Z.of_nat (length (files_written (effects_of ev))))%Z.
Proof.
  induction runs as [|r runs IH]; intros i s pauses k ev Hc;
    cbn [batch_loop]; destruct (count <=? i)%Z;
    try (intros [= <- <-]; simpl; lia).
  inversion_clear Hc as [|? ? Hr Hc'].
  destruct (run_capture r label) as [[[b|e] ev1]|] eqn:H1; [| |discriminate].
  - destruct (run_capture_traffic r label b ev1 Hr H1) as (_ & Hf & _).
    set (s' := if b then (s + 1)%Z else s).
    assert (Hs' : s' = (s + Z.of_nat (length (files_written
                                                 (effects_of ev1))))%Z)
      by (rewrite Hf; subst s'; destruct b; simpl; lia).
    destruct (i <? count - 1)%Z.
    + destruct pauses as [|[|] pauses']; [discriminate| |].
      * destruct (batch_loop label count (i + 1) s' runs pauses')
          as [[[k'|e'] ev2]|] eqn:H2; cbn [prepend]; try discriminate.
        intros [= <- <-]. apply (IH _ _ _ _ _ Hc') in H2.
        change (say ?x :: ?l) with ([say x] ++ l).
        rewrite !effects_of_app, !files_written_app, !length_app.
        simpl. lia.
      * intros [= <- <-].
        change (say ?x :: ?l) with ([say x] ++ l).
        rewrite !effects_of_app, !files_written_app, !length_app.
        simpl. lia.
    + destruct (batch_loop label count (i + 1) s' runs pauses)
        as [[[k'|e'] ev2]|] eqn:H2; cbn [prepend]; try discriminate.
      intros [= <- <-]. apply (IH _ _ _ _ _ Hc') in H2.
      change (say ?x :: ?l) with ([say x] ++ l).
      rewrite !effects_of_app, !files_written_app, !length_app.
      simpl. lia.
  - destruct r as [w|done]; [|destruct Hr].
    unfold run_capture in H1.
    destruct (capture_sample w label) as [[[b'|] eff]|];
      try discriminate. injection H1 as <- <-. discriminate.
Qed.

(** A batch that returns: two lines of heading, the rounds, and the line
    that reports the successes. *)
Lemma batch_record_returns (label : pystr) (count : Z)
      (runs : list capture_run) (pauses : list bool) (ev : list event) :
  batch_record label count runs pauses = Some (Returns tt, ev) ->
  exists a b k ev0,
    batch_loop label count 0 0 runs pauses = Some (Returns k, ev0)
    /\ ev = [say a; say b] ++ ev0
              ++ [say (nl ++ py "Completed: " ++ dec_Z k ++ py "/"
                         ++ dec_Z count ++ py " samples recorded")].
Proof.
  unfold batch_record.
  destruct (batch_loop label count 0 0 runs pauses)
    as [[[k|e] ev0]|]; [|discriminate|discriminate].
  intros H. do 2 eexists. exists k, ev0. split; [reflexivity|].
  injection H as <-. reflexivity.
Qed.

(** X8: When no Ctrl+C cuts a call short, the number of samples a batch
    reports in its last line is the number of files it wrote. *)
Theorem batch_reports_the_files_written (label : pystr) (count : Z)
        (runs : list capture_run) (pauses : list bool) (ev : list event) :
  Forall completes runs ->
  batch_record label count runs pauses = Some (Returns tt, ev) ->
  last ev CloseSerial
  = say (nl ++ py "Completed: "
           ++ dec_Z (Z.of_nat (length (files_written (effects_of ev))))
           ++ py "/" ++ dec_Z count ++ py " samples recorded").
Proof.
  intros Hc H.
  destruct (batch_record_returns _ _ _ _ _ H) as (a & b & k & ev0 & Hl & ->).
  apply (batch_loop_files _ _ _ _ _ _ _ _ Hc) in Hl.
  rewrite (app_assoc [say a; say b]), last_last.
  rewrite !effects_of_app, !files_written_app, !length_app.
  cbn [effects_of files_written flat_map say app length].
  rewrite Nat.add_0_r. cbn [Nat.add]. subst k. reflexivity.
Qed.

(** The loop of a batch that nothing cuts short: one command per round
    from [i] to [count], and a pause after each round but the last. *)
Lemma batch_loop_rounds (label : pystr) (count : Z)
      (runs : list capture_run) :
  forall i successful pauses k ev,
    Forall completes runs -> Forall (fun p => p = true) pauses ->
    batch_loop label count i successful runs pauses = Some (Returns k, ev) ->
    commands_of (effects_of ev)
    = repeat (label ++ nl) (Z.to_nat (count - i))
    /\ pauses_of ev = repeat 2%Z (Z.to_nat (count - 1 - i)).
Proof.
  induction runs as [|r runs IH]; intros i s pauses k ev Hc Hp;
    cbn [batch_loop]; destruct (Z.leb_spec count i) as [Hi|Hi];
    try (intros [= <- <-];
         replace (Z.to_nat (count - i)) with 0%nat by lia;
         replace (Z.to_nat (count - 1 - i)) with 0%nat by lia;
         now split).
  inversion_clear Hc as [|? ? Hr Hc'].
  destruct (run_capture r label) as [[[b|e] ev1]|] eqn:H1; [| |discriminate].
  - destruct (run_capture_traffic r label b ev1 Hr H1) as (Hcmd & _ & Hz).
    set (s' := if b then (s + 1)%Z else s).
    replace (Z.to_nat (count - i)) with (S (Z.to_nat (count - (i + 1))))
      by lia.
    destruct (Z.ltb_spec i (count - 1)) as [Hlt|Hge].
    + replace (Z.to_nat (count - 1 - i))
        with (S (Z.to_nat (count - 1 - (i + 1)))) by lia.
      destruct pauses as [|p pauses']; [discriminate|].
      inversion_clear Hp as [|? ? Hp1 Hp']. subst p.
      destruct (batch_loop label count (i + 1) s' runs pauses')
        as [[[k'|e'] ev2]|] eqn:H2; cbn [prepend]; try discriminate.
      intros [= <- <-].
      destruct (IH _ _ _ _ _ Hc' Hp' H2) as [I1 I2].
      change (say ?x :: ?l) with ([say x] ++ l).
      rewrite !effects_of_app, !commands_of_app, !pauses_of_app.
      rewrite Hcmd, Hz, I1, I2. now split.
    + replace (Z.to_nat (count - 1 - i)) with 0%nat by lia.
      destruct (batch_loop label count (i + 1) s' runs pauses)
        as [[[k'|e'] ev2]|] eqn:H2; cbn [prepend]; try discriminate.
      intros [= <- <-].
      destruct (IH _ _ _ _ _ Hc' Hp H2) as [I1 I2].
      replace (Z.to_nat (count - 1 - (i + 1))) with 0%nat in I2 by lia.
      change (say ?x :: ?l) with ([say x] ++ l).
      rewrite !effects_of_app, !commands_of_app, !pauses_of_app.
      rewrite Hcmd, Hz, I1, I2. now split.
  - destruct r as [w|done]; [|destruct Hr].
    unfold run_capture in H1.
    destruct (capture_sample w label) as [[[b'|] eff]|];
      try discriminate. injection H1 as <- <-. discriminate.
Qed.

(** X9: A batch that nothing cuts short sends the label [count] times,
    once per round, and pauses for two seconds after every round but the
    last; a count of zero or less sends nothing. *)
Theorem batch_makes_count_captures (label : pystr) (count : Z)
        (runs : list capture_run) (pauses : list bool) (ev : list event) :
  Forall completes runs -> Forall (fun p => p = true) pauses ->
  batch_record label count runs pauses = Some (Returns tt, ev) ->
  commands_of (effects_of ev) = repeat (label ++ nl) (Z.to_nat count)
  /\ pauses_of ev = repeat 2%Z (Z.to_nat (count - 1)).
Proof.
  intros Hc Hp H.
  destruct (batch_record_returns _ _ _ _ _ H) as (a & b & k & ev0 & Hl & ->).
  destruct (batch_loop_rounds _ _ _ _ _ _ _ _ Hc Hp Hl) as [H1 H2].
  rewrite Z.sub_0_r in H1, H2.
  rewrite !effects_of_app, !commands_of_app, !pauses_of_app, H1, H2.
  cbn [effects_of commands_of pauses_of flat_map say app].
  now rewrite !app_nil_r.
Qed.



End BatchFacts.

Lemma batch_reports_the_files_written_witness :
  option_map (fun x => last (snd x) CaptureScript.CloseSerial)
             (CaptureScript.batch_record (py "noise") 2
                                         ScriptExamples.two_rounds [true])
  = Some (CaptureScript.say (nl ++ py "Completed: 1/2 samples recorded")).
Proof.
  destruct (CaptureScript.batch_record (py "noise") 2
                                       ScriptExamples.two_rounds [true])
    as [[[[]|e] ev]|] eqn:H; try (vm_compute in H; discriminate).
  cbn [option_map snd].
  rewrite (batch_reports_the_files_written
             (py "noise") 2 ScriptExamples.two_rounds [true] ev
             ltac:(repeat constructor) H).
  vm_compute in H. injection H as <-. reflexivity.
Defined.

Lemma batch_makes_count_captures_witness :
  option_map (fun x => (commands_of (effects_of (snd x)), pauses_of (snd x)))
             (CaptureScript.batch_record (py "noise") 2
                                         ScriptExamples.two_rounds [true])
  = Some ([py "noise" ++ nl; py "noise" ++ nl], [2%Z]).
Proof.
  destruct (CaptureScript.batch_record (py "noise") 2
                                       ScriptExamples.two_rounds [true])
    as [[[[]|e] ev]|] eqn:H; try (vm_compute in H; discriminate).
  cbn [option_map snd].
  destruct (batch_makes_count_captures
              (py "noise") 2 ScriptExamples.two_rounds [true] ev
              ltac:(repeat constructor) ltac:(repeat constructor) H)
    as [-> ->].
  reflexivity.
Defined.


(* ================================================================== *)
(** * [find_esp32_port] *)
(* ================================================================== *)

Section PortFacts.

Import CaptureScript.

Variable lower : pystr -> pystr.




End PortFacts.

(* ================================================================== *)
(** * The session and [main] of [capture_samples.py] *)
(* ================================================================== *)

Section SessionFacts.

Import CaptureSamples.
Import CaptureScript.

Variable lower : pystr -> pystr.
Variable int_of : pystr -> option Z.

Lemma member_known (s : pystr) :
  member s LABELS = true ->
  s = py "hey_bob" \/ s = py "noise" \/ s = py "unknown".
Proof.
  unfold member, LABELS. cbn [existsb]. rewrite !orb_true_iff.
  intros [H|[H|[H|H]]]; [| | |discriminate];
    apply eqb_eq in H; tauto.
Qed.

(** The label the argument loop settles is one the script knows. *)
Lemma parse_args_label_bounded (n : nat) :
  forall args label count po label' count' po',
    (length args <= n)%nat ->
    (forall l, label = Some l -> member l LABELS = true) ->
    parse_args int_of args label count po = Settings label' count' po' ->
    forall l, label' = Some l -> member l LABELS = true.
Proof.
  induction n as [|n IH]; intros args label count po label' count' po' Hn Hl.
  - destruct args; [|simpl in Hn; lia].
    cbn [parse_args]. now intros [= <- _ _].
  - destruct args as [|arg rest]; [cbn [parse_args]; now intros [= <- _ _]|].
    simpl in Hn. cbn [parse_args].
    destruct (member arg ["--port"; "-p"]%string).
    { destruct rest as [|v rest']; [discriminate|]. simpl in Hn.
      apply IH; [lia|exact Hl]. }
    destruct (member arg ["--count"; "-c"]%string).
    { destruct rest as [|v rest']; [discriminate|]. simpl in Hn.
      destruct (int_of v); [|discriminate].
      apply IH; [lia|exact Hl]. }
    destruct (member arg ["--list"; "-l"]%string); [discriminate|].
    destruct (member arg ["--help"; "-h"]%string); [discriminate|].
    destruct (member arg ["hey_bob"; "noise"; "unknown"]%string) eqn:Hm.
    + apply IH; [lia|]. now intros l [= <-].
    + apply IH; [lia|exact Hl].
Qed.

Lemma parse_args_label (args : list pystr) (label' : option pystr)
      (count' : Z) (po' : option pystr) :
  parse_args int_of args None 1 None = Settings label' count' po' ->
  forall l, label' = Some l -> member l LABELS = true.
Proof.
  apply (parse_args_label_bounded (length args)); [apply le_n|discriminate].
Qed.

Section Invariant.

(** A property of events that the printing, the prompts, the pauses, the
    two commands of the microphone test and the calls of [capture_sample]
    have. *)
Variable P : event -> Prop.
Variable ok : capture_run -> Prop.
Hypothesis P_say : forall t, P (say t).
Hypothesis P_prompt : forall t, P (Prompt t).
Hypothesis P_sleep : forall z, P (Sleep z).
Hypothesis P_test : P (Do (SerialWrite (py "test" ++ nl))).
Hypothesis P_stop : P (Do (SerialWrite nl)).
Hypothesis P_capture :
  forall r label x ev,
    ok r -> member label LABELS = true ->
    run_capture r label = Some (x, ev) -> Forall P ev.

Ltac parts :=
  repeat first [apply Forall_nil | apply Forall_cons
               | apply Forall_app; split];
  eauto.

Lemma show_counts_all (c : counts) : Forall P (show_counts c).
Proof. unfold show_counts. parts. Qed.

Lemma list_ports_all (ports : list port_info) : Forall P (list_ports ports).
Proof.
  unfold list_ports. destruct ports as [|p ports]; [parts|].
  apply Forall_cons; [apply P_say|]. apply Forall_app. split; [|parts].
  apply Forall_forall. intros e He. apply in_map_iff in He as (q & <- & _).
  apply P_say.
Qed.

Lemma batch_loop_all (label : pystr) (count : Z) (runs : list capture_run) :
  forall i successful pauses x ev,
    Forall ok runs -> member label LABELS = true ->
    batch_loop label count i successful runs pauses = Some (x, ev) ->
    Forall P ev.
Proof.
  induction runs as [|r runs IH]; intros i s pauses x ev Hok Hl;
    cbn [batch_loop]; destruct (count <=? i)%Z;
    try (intros [= <- <-]; constructor).
  inversion_clear Hok as [|? ? Hr Hok'].
  destruct (run_capture r label) as [[y ev1]|] eqn:H1; [|discriminate].
  pose proof (P_capture r label y ev1 Hr Hl H1) as Hev1.
  destruct y as [b|e].
  - destruct (i <? count - 1)%Z.
    + destruct pauses as [|[|] pauses']; [discriminate| |].
      * destruct (batch_loop label count (i + 1)
                             (if b then (s + 1)%Z else s) runs pauses')
          as [[y ev2]|] eqn:H2; cbn [prepend]; [|discriminate].
        intros [= <- <-]. pose proof (IH _ _ _ _ _ Hok' Hl H2). parts.
      * intros [= <- <-]. parts.
    + destruct (batch_loop label count (i + 1)
                           (if b then (s + 1)%Z else s) runs pauses)
        as [[y ev2]|] eqn:H2; cbn [prepend]; [|discriminate].
      intros [= <- <-]. pose proof (IH _ _ _ _ _ Hok' Hl H2). parts.
  - destruct e; intros [= <- <-]; parts.
Qed.

Lemma batch_record_all (label : pystr) (count : Z)
      (runs : list capture_run) (pauses : list bool)
      (x : ending unit) (ev : list event) :
  Forall ok runs -> member label LABELS = true ->
  batch_record label count runs pauses = Some (x, ev) -> Forall P ev.
Proof.
  intros Hok Hl. unfold batch_record.
  destruct (batch_loop label count 0 0 runs pauses) as [[y ev0]|] eqn:H;
    [|discriminate].
  pose proof (batch_loop_all _ _ _ _ _ _ _ _ Hok Hl H).
  destruct y; intros [= <- <-]; parts.
Qed.

Lemma command_loop_all (n : nat) :
  forall keys c runs x ev,
    (length keys <= n)%nat -> Forall ok runs ->
    command_loop lower keys c runs = Some (x, ev) -> Forall P ev.
Proof.
  induction n as [|n IH]; intros keys c runs x ev Hn Hok.
  - destruct keys; [discriminate|simpl in Hn; lia].
  - destruct keys as [|key keys']; [discriminate|]. simpl in Hn.
    cbn [command_loop].
    destruct key as [text| |]; try (intros [= <- <-]; parts).
    assert (Hrec : forall label bumped,
               member (py label) LABELS = true ->
               match runs with
               | [] => None
               | r :: runs' =>
                   match run_capture r (py label) with
                   | None => None
                   | Some (Raises e, ev) =>
                       Some (Raises e,
                             Prompt (nl ++ py "Command (1/2/3/t/s/q): ")
                               :: ev)
                   | Some (Returns true, ev) =>
                       prepend (Prompt (nl ++ py "Command (1/2/3/t/s/q): ")
                                  :: ev ++ show_counts bumped)
                               (command_loop lower keys' bumped runs')
                   | Some (Returns false, ev) =>
                       prepend (Prompt (nl ++ py "Command (1/2/3/t/s/q): ")
                                  :: ev)
                               (command_loop lower keys' c runs')
                   end
               end = Some (x, ev) -> Forall P ev).
    { intros label bumped Hl. destruct runs as [|r runs']; [discriminate|].
      inversion_clear Hok as [|? ? Hr Hok'].
      destruct (run_capture r (py label)) as [[y ev1]|] eqn:H1;
        [|discriminate].
      pose proof (P_capture r (py label) y ev1 Hr Hl H1) as Hev1.
      destruct y as [[|]|e].
      - destruct (command_loop lower keys' bumped runs') as [[y ev2]|] eqn:H2;
          cbn [prepend]; [|discriminate].
        intros [= <- <-].
        pose proof (IH keys' _ _ _ _ ltac:(lia) Hok' H2).
        pose proof (show_counts_all bumped). parts.
      - destruct (command_loop lower keys' c runs') as [[y ev2]|] eqn:H2;
          cbn [prepend]; [|discriminate].
        intros [= <- <-].
        pose proof (IH keys' _ _ _ _ ltac:(lia) Hok' H2). parts.
      - intros [= <- <-]. parts. }
    destruct (member (lower (strip text)) ["1"; "h"; "hey_bob"]%string);
      [now apply Hrec|].
    destruct (member (lower (strip text)) ["2"; "n"; "noise"]%string);
      [now apply Hrec|].
    destruct (member (lower (strip text)) ["3"; "u"; "unknown"]%string);
      [now apply Hrec|].
    clear Hrec.
    destruct (PyStr.eqb (lower (strip text)) (py "t")).
    { destruct keys' as [|[t2| |] keys'']; [discriminate| | |].
      - destruct (command_loop lower keys'' c runs) as [[y ev2]|] eqn:H2;
          cbn [prepend]; [|discriminate].
        intros [= <- <-]. simpl in Hn.
        pose proof (IH keys'' _ _ _ _ ltac:(lia) Hok H2). parts.
      - intros [= <- <-]. parts.
      - intros [= <- <-]. parts. }
    destruct (PyStr.eqb (lower (strip text)) (py "s")).
    { destruct (command_loop lower keys' c runs) as [[y ev2]|] eqn:H2;
        cbn [prepend]; [|discriminate].
      intros [= <- <-].
      pose proof (IH keys' _ _ _ _ ltac:(lia) Hok H2).
      pose proof (show_counts_all c). parts. }
    destruct (member (lower (strip text)) ["q"; "quit"; "exit"]%string).
    { intros [= <- <-]. parts. }
    destruct (command_loop lower keys' c runs) as [[y ev2]|] eqn:H2;
      cbn [prepend]; [|discriminate].
    intros [= <- <-].
    pose proof (IH keys' _ _ _ _ ltac:(lia) Hok H2). parts.
Qed.

Lemma interactive_mode_all (s : session) (x : ending unit)
      (ev : list event) :
  Forall ok (captures s) ->
  interactive_mode lower s = Some (x, ev) -> Forall P ev.
Proof.
  intros Hok. unfold interactive_mode.
  destruct (existing (sample_dirs s) "hey_bob") as [h|e1];
    [|intros [= <- <-]; parts].
  destruct (existing (sample_dirs s) "noise") as [n|e2];
    [|intros [= <- <-]; parts].
  destruct (existing (sample_dirs s) "unknown") as [u|e3];
    [|intros [= <- <-]; parts].
  destruct (command_loop lower (keyboard s) _ (captures s))
    as [[y ev0]|] eqn:H; [|discriminate].
  pose proof (command_loop_all _ _ _ _ _ _ (le_n _) Hok H) as H0.
  pose proof (show_counts_all {| hey_bob := h; noise := n; unknown := u |}).
  destruct y as [c'|e]; intros [= <- <-].
  - pose proof (show_counts_all c'). parts.
  - parts.
Qed.

Lemma dispatch_all (m : machine) (label : option pystr) (count : Z)
      (x : ending unit) (ev : list event) :
  Forall ok (captures (desk m)) ->
  (forall l, label = Some l -> member l LABELS = true) ->
  dispatch lower m label count = Some (x, ev) -> Forall P ev.
Proof.
  intros Hok Hl. unfold dispatch.
  destruct label as [l|]; [|apply interactive_mode_all; exact Hok].
  destruct (PyStr.truthy l); [|apply interactive_mode_all; exact Hok].
  specialize (Hl l eq_refl).
  destruct (1 <? count)%Z; [now apply batch_record_all|].
  destruct (captures (desk m)) as [|r runs]; [discriminate|].
  inversion_clear Hok as [|? ? Hr _].
  destruct (run_capture r l) as [[y ev1]|] eqn:H1; [|discriminate].
  pose proof (P_capture r l y ev1 Hr Hl H1).
  destruct y; now intros [= <- <-].
Qed.

End Invariant.

Lemma some_pair_snd {A B} (a a' : A) (b b' : B) :
  Some (a, b) = Some (a', b') -> b' = b.
Proof. now intros [= _ <-]. Qed.

Lemma last_any {A} (x : A) (l : list A) (d d' : A) :
  last (x :: l) d = last (x :: l) d'.
Proof.
  revert x. induction l as [|y l IH]; intros x; [reflexivity|].
  change (last (x :: y :: l) d) with (last (y :: l) d).
  change (last (x :: y :: l) d') with (last (y :: l) d'). apply IH.
Qed.

(** X12: Among arguments that are no options, the last one that is a
    label the script knows is the label recorded, and the other words are
    passed over: the count and the port stay as they were. *)
Theorem last_label_wins (args : list pystr) :
  forall label count po,
    Forall (fun a => is_option a = false) args ->
    parse_args int_of args label count po
    = Settings (last (map Some (filter (fun a => member a LABELS) args))
                     label)
               count po.
Proof.
  induction args as [|arg args IH]; intros label count po Hall;
    [reflexivity|].
  inversion_clear Hall as [|? ? Ha Hall'].
  unfold is_option, member in Ha. cbn [existsb] in Ha.
  repeat (apply orb_false_iff in Ha; destruct Ha as [?H Ha]).
  cbn [parse_args]. unfold member at 1 2 3 4. cbn [existsb].
  rewrite H, H0, H1, H2, H3, H4, H5, H6. cbn [orb].
  cbn [filter]. fold LABELS.
  destruct (member arg LABELS) eqn:Hm.
  - rewrite (IH _ _ _ Hall'). cbn [map].
    destruct (map Some (filter (fun a => member a LABELS) args))
      as [|o l]; [reflexivity|].
    change (last (Some arg :: o :: l) label) with (last (o :: l) label).
    f_equal. apply last_any.
  - apply (IH _ _ _ Hall').
Qed.




Lemma run_capture_commands (r : capture_run) (label : pystr)
      (x : ending bool) (ev : list event) :
  completes r ->
  run_capture r label = Some (x, ev) ->
  commands_of (effects_of ev) = [label ++ nl].
Proof.
  destruct r as [w|done]; [intros _|intros []]. unfold run_capture.
  destruct (capture_sample w label) as [[[b|] eff]|] eqn:H;
    [| |discriminate]; intros [= _ <-]; rewrite effects_of_Do;
    exact (proj1 (capture_sample_traffic w label _ eff H)).
Qed.

Lemma known_is_truthy (l : pystr) :
  member l LABELS = true -> PyStr.truthy l = true.
Proof. intros H. destruct (member_known l H) as [->|[->| ->]]; reflexivity. Qed.

(** X14: With a label among the arguments and a count of one or less,
    zero and negative counts included, [main] as shipped records once:
    the label is sent to the device one time. *)
Theorem count_below_two_records_once
        (m : machine) (args : list pystr) (l : pystr) (count : Z)
        (po : option pystr) (e : ending unit) (ev : list event) :
  parse_args int_of args None 1 None = Settings (Some l) count po ->
  (count <= 1)%Z ->
  serial_error m = None ->
  Forall completes (captures (desk m)) ->
  main lower int_of m args = Some (e, ev) ->
  commands_of (effects_of ev) = [l ++ nl].
Proof.
  intros Hparse Hcount Hs Hok. unfold main, main_with. rewrite Hparse, Hs.
  pose proof (known_is_truthy l (parse_args_label args _ _ _ Hparse l eq_refl))
    as Hl.
  assert (Hd : forall ev0 r,
             dispatch lower m (Some l) count = Some (r, ev0) ->
             commands_of (effects_of ev0) = [l ++ nl]).
  { intros ev0 r. unfold dispatch. rewrite Hl.
    destruct (Z.ltb_spec 1 count) as [H|_]; [lia|].
    destruct (captures (desk m)) as [|c runs]; [discriminate|].
    inversion_clear Hok as [|? ? Hc _].
    destruct (run_capture c l) as [[y ev1]|] eqn:H1; [|discriminate].
    pose proof (run_capture_commands c l y ev1 Hc H1).
    destruct y; now intros [= _ <-]. }
  assert (Hgo : forall p,
             match dispatch lower m (Some l) count with
             | Some (r, ev0) =>
                 Some (r,
                       [say (py "Using serial port: " ++ p);
                        OpenSerial p BAUD_RATE 1;
                        say (py "Connected to ESP32"); Sleep 2;
                        Do ResetInputBuffer]
                         ++ ev0
                         ++ [CloseSerial;
                             say (nl ++ py "Serial connection closed")])
             | None => None
             end = Some (e, ev) ->
             commands_of (effects_of ev) = [l ++ nl]).
  { intros p.
    destruct (dispatch lower m (Some l) count) as [[r ev0]|] eqn:H0;
      [|discriminate].
    intros [= _ <-].
    match goal with
    | |- context [?a :: ?b :: ?c :: ?d :: ?f :: ev0 ++ ?t] =>
        change (a :: b :: c :: d :: f :: ev0 ++ t)
          with ([a; b; c; d; f] ++ ev0 ++ t)
    end.
    rewrite !effects_of_app, !commands_of_app, (Hd ev0 r eq_refl).
    reflexivity. }
  unfold SERIAL_PORT.
  destruct po as [[|c p]|]; cbn [PyStr.truthy]; apply Hgo.
Qed.

Lemma sends_known (eff : list effect) (label : pystr) :
  commands_of eff = [label ++ nl] -> member label LABELS = true ->
  Forall (fun e => match e with
                   | Do (SerialWrite t) => In t COMMANDS
                   | _ => True
                   end) (map Do eff).
Proof.
  intros Hc Hl.
  assert (Hin : In (label ++ nl) COMMANDS).
  { destruct (member_known label Hl) as [->|[->| ->]]; vm_compute; tauto. }
  assert (Hall : Forall (fun t => In t COMMANDS) (commands_of eff))
    by (rewrite Hc; now constructor).
  clear Hc. induction eff as [|x eff IH]; [constructor|].
  destruct x; cbn [commands_of flat_map app] in Hall;
    try (constructor; [exact I|now apply IH]).
  inversion_clear Hall as [|? ? H1 H2]. constructor; [exact H1|now apply IH].
Qed.

Lemma commands_known (ev : list event) :
  Forall (fun e => match e with
                   | Do (SerialWrite t) => In t COMMANDS
                   | _ => True
                   end) ev ->
  Forall (fun t => In t COMMANDS) (commands_of (effects_of ev)).
Proof.
  induction ev as [|x ev IH]; [constructor|].
  intros H. inversion_clear H as [|? ? H1 H2].
  destruct x as [[]| | | |]; cbn [effects_of commands_of flat_map app];
    try (now apply IH).
  constructor; [exact H1|now apply IH].
Qed.

(** X15: When no Ctrl+C cuts a call of [capture_sample] short, everything
    [main] writes to the device is one of five commands: the three labels,
    [test], and the empty line that stops the test; each with its newline.
    No argument and no line typed at the prompt is passed on to the
    device. *)
Theorem only_known_commands_are_sent
        (serial_port : option pystr) (m : machine) (args : list pystr)
        (e : ending unit) (ev : list event) :
  Forall completes (captures (desk m)) ->
  main_with lower int_of serial_port m args = Some (e, ev) ->
  Forall (fun t => In t COMMANDS) (commands_of (effects_of ev)).
Proof.
  intros Hok H. apply commands_known. revert H.
  set (P := fun e => match e with
                     | Do (SerialWrite t) => In t COMMANDS
                     | _ => True
                     end).
  assert (P_say : forall t, P (say t)) by (intros; exact I).
  assert (P_capture : forall r label x ev,
             completes r -> member label LABELS = true ->
             run_capture r label = Some (x, ev) -> Forall P ev).
  { intros [w|done] label x ev1 Hc Hl; [|destruct Hc]. unfold run_capture.
    destruct (capture_sample w label) as [[[b|] eff]|] eqn:H;
      [| |discriminate]; intros [= _ <-];
      exact (sends_known eff label
               (proj1 (capture_sample_traffic w label _ eff H)) Hl). }
  unfold main_with.
  destruct (parse_args int_of args None 1 None)
    as [label count po| | |x] eqn:Hparse.
  - set (port := match po with
                 | Some p => if PyStr.truthy p then Some p else _
                 | None => _
                 end).
    assert (Hlist : Forall P (list_ports (ports_listed m)))
      by (apply list_ports_all; exact P_say).
    destruct port as [[|c p]|].
    + intros [= <- <-]. repeat constructor. exact Hlist.
    + destruct (serial_error m) as [msg|] eqn:Hs.
      * intros [= <- <-]. repeat constructor.
      * destruct (dispatch lower m label count) as [[r ev0]|] eqn:Hd;
          [|discriminate].
        intros [= <- <-]. repeat constructor.
        apply Forall_app. split; [|repeat constructor].
        refine (dispatch_all P completes P_say _ _ _ _ P_capture
                             m label count r ev0 Hok _ Hd);
          try (intros; exact I); try (vm_compute; tauto).
        exact (parse_args_label args label count po Hparse).
    + intros [= <- <-]. repeat constructor. exact Hlist.
  - intros [= <- <-]. apply list_ports_all; exact P_say.
  - intros [= <- <-]. repeat constructor.
  - intros [= <- <-]. constructor.
Qed.

(** Splits the events in front of a list into single ones. *)
Ltac unroll :=
  repeat match goal with
         | |- context [effects_of (?x :: ?l)] =>
             lazymatch l with
             | [] => fail
             | _ => change (effects_of (x :: l))
                      with (effects_of ([x] ++ l))
             end
         end.

(** The loop of a session that no Ctrl+C cuts inside a call: the counters
    go up by the files written. *)
Lemma command_loop_total (n : nat) :
  forall keys c runs c' ev,
    (length keys <= n)%nat -> Forall completes runs ->
    command_loop lower keys c runs = Some (Returns c', ev) ->
    total c' = (total c
                + Z.of_nat (length (files_written (effects_of ev))))%Z.
Proof.
  induction n as [|n IH]; intros keys c runs c' ev Hn Hok.
  - destruct keys; [discriminate|simpl in Hn; lia].
  - destruct keys as [|key keys']; [discriminate|]. simpl in Hn.
    cbn [command_loop].
    destruct key as [text| |]; try (intros [= <- <-]; simpl; lia).
    assert (Hshow : forall x, files_written (effects_of (show_counts x)) = [])
      by reflexivity.
    assert (Hrec : forall label bumped,
               total bumped = (total c + 1)%Z ->
               match runs with
               | [] => None
               | r :: runs' =>
                   match run_capture r (py label) with
                   | None => None
                   | Some (Raises e, ev) =>
                       Some (Raises e,
                             Prompt (nl ++ py "Command (1/2/3/t/s/q): ")
                               :: ev)
                   | Some (Returns true, ev) =>
                       prepend (Prompt (nl ++ py "Command (1/2/3/t/s/q): ")
                                  :: ev ++ show_counts bumped)
                               (command_loop lower keys' bumped runs')
                   | Some (Returns false, ev) =>
                       prepend (Prompt (nl ++ py "Command (1/2/3/t/s/q): ")
                                  :: ev)
                               (command_loop lower keys' c runs')
                   end
               end = Some (Returns c', ev) ->
               total c' = (total c + Z.of_nat (length (files_written
                                                        (effects_of ev))))%Z).
    { intros label bumped Hb. destruct runs as [|r runs']; [discriminate|].
      inversion_clear Hok as [|? ? Hr Hok'].
      destruct (run_capture r (py label)) as [[[b|e] ev1]|] eqn:H1;
        [| |discriminate]; [|discriminate].
      destruct (run_capture_traffic r (py label) b ev1 Hr H1) as (_ & Hf & _).
      destruct b.
      - destruct (command_loop lower keys' bumped runs')
          as [[[c2|e2] ev2]|] eqn:H2; cbn [prepend]; try discriminate.
        intros [= <- <-].
        pose proof (IH keys' _ _ _ _ ltac:(lia) Hok' H2) as Hi.
        unroll.
        rewrite !effects_of_app, !files_written_app, !length_app, Hshow, Hf.
        simpl. lia.
      - destruct (command_loop lower keys' c runs')
          as [[[c2|e2] ev2]|] eqn:H2; cbn [prepend]; try discriminate.
        intros [= <- <-].
        pose proof (IH keys' _ _ _ _ ltac:(lia) Hok' H2) as Hi.
        unroll.
        rewrite !effects_of_app, !files_written_app, !length_app, Hf.
        simpl. lia. }
    destruct (member (lower (strip text)) ["1"; "h"; "hey_bob"]%string);
      [apply Hrec; unfold total; simpl; lia|].
    destruct (member (lower (strip text)) ["2"; "n"; "noise"]%string);
      [apply Hrec; unfold total; simpl; lia|].
    destruct (member (lower (strip text)) ["3"; "u"; "unknown"]%string);
      [apply Hrec; unfold total; simpl; lia|].
    clear Hrec.
    destruct (PyStr.eqb (lower (strip text)) (py "t")).
    { destruct keys' as [|[t2| |] keys'']; try discriminate.
      destruct (command_loop lower keys'' c runs)
        as [[[c2|e2] ev2]|] eqn:H2; cbn [prepend]; try discriminate.
      intros [= <- <-]. simpl in Hn.
      pose proof (IH keys'' _ _ _ _ ltac:(lia) Hok H2) as Hi.
      unroll.
      rewrite !effects_of_app, !files_written_app, !length_app.
      simpl. lia. }
    destruct (PyStr.eqb (lower (strip text)) (py "s")).
    { destruct (command_loop lower keys' c runs)
        as [[[c2|e2] ev2]|] eqn:H2; cbn [prepend]; try discriminate.
      intros [= <- <-].
      pose proof (IH keys' _ _ _ _ ltac:(lia) Hok H2) as Hi.
      unroll.
      rewrite !effects_of_app, !files_written_app, !length_app, ?Hshow.
      simpl. lia. }
    destruct (member (lower (strip text)) ["q"; "quit"; "exit"]%string).
    { intros [= <- <-]. simpl. lia. }
    destruct (command_loop lower keys' c runs)
      as [[[c2|e2] ev2]|] eqn:H2; cbn [prepend]; try discriminate.
    intros [= <- <-].
    pose proof (IH keys' _ _ _ _ ltac:(lia) Hok H2) as Hi.
    unroll. rewrite !effects_of_app, !files_written_app, !length_app.
    simpl. lia.
Qed.

(** X16: When no Ctrl+C cuts a call short, the total a session shows in
    its closing summary is the number of [.wav] files it found in the
    three sample directories when it started, plus the number of files it
    wrote. *)
Theorem session_total_counts_files (s : session) (h n u : Z)
        (ev : list event) :
  existing (sample_dirs s) "hey_bob" = Returns h ->
  existing (sample_dirs s) "noise" = Returns n ->
  existing (sample_dirs s) "unknown" = Returns u ->
  Forall completes (captures s) ->
  interactive_mode lower s = Some (Returns tt, ev) ->
  nth_error (rev ev) 2
  = Some (say (py "    Total:   "
                 ++ fmt_3d (h + n + u
                            + Z.of_nat (length (files_written
                                                  (effects_of ev))))
                 ++ py " samples")).
Proof.
  intros Hh Hn Hu Hok. unfold interactive_mode. rewrite Hh, Hn, Hu.
  destruct (command_loop lower (keyboard s) _ (captures s))
    as [[[c'|e] ev0]|] eqn:H; [|discriminate|discriminate].
  pose proof (command_loop_total _ _ _ _ _ _ (le_n _) Hok H) as Ht.
  unfold total in Ht. cbn [hey_bob noise unknown] in Ht.
  intros H0. apply some_pair_snd in H0.
  assert (Hlen : length (files_written (effects_of ev))
                 = length (files_written (effects_of ev0))).
  { rewrite H0.
    assert (Hf : forall x, files_written (effects_of (show_counts x)) = [])
      by reflexivity.
    rewrite !effects_of_app, !files_written_app, !length_app, !Hf.
    simpl. lia. }
  rewrite Hlen, <- Ht, H0, !rev_app_distr. reflexivity.
Qed.

End SessionFacts.


Lemma count_below_two_records_once_witness :
  option_map (fun x => commands_of (effects_of (snd x)))
             (CaptureScript.main
                ScriptExamples.ascii_lower ScriptExamples.ascii_int
                (ScriptExamples.bench [] ScriptExamples.two_rounds)
                [py "hey_bob"; py "--count"; py "0"])
  = Some [py "hey_bob" ++ nl].
Proof.
  destruct (CaptureScript.main
              ScriptExamples.ascii_lower ScriptExamples.ascii_int
              (ScriptExamples.bench [] ScriptExamples.two_rounds)
              [py "hey_bob"; py "--count"; py "0"])
    as [[e ev]|] eqn:H; [|vm_compute in H; discriminate].
  cbn [option_map snd]. f_equal.
  apply (count_below_two_records_once
           ScriptExamples.ascii_lower ScriptExamples.ascii_int
           (ScriptExamples.bench [] ScriptExamples.two_rounds)
           [py "hey_bob"; py "--count"; py "0"] (py "hey_bob") 0 None e ev);
    [reflexivity | lia | reflexivity | repeat constructor | exact H].
Defined.

Lemma only_known_commands_are_sent_witness :
  exists ev,
    option_map snd
      (CaptureScript.main_with
         ScriptExamples.ascii_lower ScriptExamples.ascii_int None
         (ScriptExamples.bench
            [CaptureScript.Line (py "H"); CaptureScript.Line (py " t ");
             CaptureScript.Line (py "stop"); CaptureScript.Line (py "rm -rf");
             CaptureScript.Line (py "q")]
            ScriptExamples.two_rounds)
         [py "--port"; py ""; py "reboot"])
    = Some ev
    /\ commands_of (effects_of ev) = [py "hey_bob" ++ nl; py "test" ++ nl; nl]
    /\ Forall (fun t => In t COMMANDS) (commands_of (effects_of ev)).
Proof.
  destruct (CaptureScript.main_with
              ScriptExamples.ascii_lower ScriptExamples.ascii_int None
              (ScriptExamples.bench
                 [CaptureScript.Line (py "H"); CaptureScript.Line (py " t ");
                  CaptureScript.Line (py "stop");
                  CaptureScript.Line (py "rm -rf");
                  CaptureScript.Line (py "q")]
                 ScriptExamples.two_rounds)
              [py "--port"; py ""; py "reboot"])
    as [[e ev]|] eqn:H; [|vm_compute in H; discriminate].
  exists ev. split; [reflexivity|]. split.
  - vm_compute in H. injection H as _ <-. reflexivity.
  - apply only_known_commands_are_sent with (2 := H). repeat constructor.
Defined.

Lemma session_total_counts_files_witness :
  option_map (fun x => nth_error (rev (snd x)) 2)
             (CaptureScript.interactive_mode
                ScriptExamples.ascii_lower
                (ScriptExamples.desk_of
                   [CaptureScript.Line (py "1"); CaptureScript.Line (py " N ");
                    CaptureScript.Line (py "s"); CaptureScript.EndOfFile]
                   ScriptExamples.two_rounds))
  = Some (Some (CaptureScript.say (py "    Total:     3 samples"))).
Proof.
  destruct (CaptureScript.interactive_mode
              ScriptExamples.ascii_lower
              (ScriptExamples.desk_of
                 [CaptureScript.Line (py "1"); CaptureScript.Line (py " N ");
                  CaptureScript.Line (py "s"); CaptureScript.EndOfFile]
                 ScriptExamples.two_rounds))
    as [[[[]|e] ev]|] eqn:H; try (vm_compute in H; discriminate).
  cbn [option_map snd]. f_equal.
  rewrite (session_total_counts_files
             ScriptExamples.ascii_lower
             (ScriptExamples.desk_of
                [CaptureScript.Line (py "1"); CaptureScript.Line (py " N ");
                 CaptureScript.Line (py "s"); CaptureScript.EndOfFile]
                ScriptExamples.two_rounds)
             2 0 0 ev
             eq_refl eq_refl eq_refl ltac:(repeat constructor) H).
  vm_compute in H. injection H as <-. reflexivity.
Defined.

(* ================================================================== *)
(** * [test_groq_stt.py]: one recording, and a folder of them *)
(* ================================================================== *)

Section SttFacts.

Import TestGroqStt.
Import SttScript.


Lemma posts_app (e1 e2 : list Http.effect) :
  posts (e1 ++ e2) = posts e1 ++ posts e2.
Proof. apply flat_map_app. Qed.

Lemma printed_app (e1 e2 : list Http.effect) :
  printed (e1 ++ e2) = printed e1 ++ printed e2.
Proof. apply flat_map_app. Qed.

(** X17: [transcribe_audio] sends at most one request, and a value other
    than None comes back only one way: the request was sent, the reply had
    status 200, and the value is the decoded body; nothing is printed
    then.  Every other path prints and returns None. *)
Theorem transcription_is_the_reply_or_none
        (key : pystr) (w : world) (audio_path model : pystr) :
  let r := transcribe_audio_with key w audio_path model in
  (fst r = PNone
   /\ printed (snd r) <> []
   /\ (posts (snd r) = []
       \/ posts (snd r) = [transcription_request key audio_path model]))
  \/ (snd r = [Post (transcription_request key audio_path model)]
      /\ exists reply,
           post w = PostReturned reply
           /\ status_code reply = 200%Z
           /\ json reply = Ok (fst r)).
Proof.
  unfold transcribe_audio_with.
  destruct (PyStr.eqb key PLACEHOLDER);
    [left; repeat split; [discriminate|now left]|].
  destruct (path_exists w audio_path); cbn [negb];
    [|left; repeat split; [discriminate|now left]].
  destruct (open_ok w); cbn [negb];
    [|left; repeat split; [discriminate|now left]].
  destruct (post w) as [e|reply] eqn:Hp.
  - destruct e; left; repeat split; try discriminate; now right.
  - destruct (Z.eqb_spec (status_code reply) 200) as [Hs|Hs].
    + destruct (json reply) as [v|e] eqn:Hj.
      * right. split; [reflexivity|]. now exists reply.
      * left; repeat split; [discriminate|now right].
    + left; repeat split; [discriminate|now right].
Qed.




(** Up to a file whose reply is true and no dict, the folder loop tries
    every file; at that file an AttributeError leaves it. *)
Lemma transcribe_each_stops (key model : pystr) (total : N)
      (before : list wav_file) (f : wav_file) (after : list wav_file) :
  forall i results,
    Forall (fun g =>
              let u := fst (transcribe_audio_with
                              key (call g) (path g) model) in
              truthy u = true -> exists d, u = PDict d) before ->
    truthy (fst (transcribe_audio_with key (call f) (path f) model)) = true ->
    no_dict (fst (transcribe_audio_with key (call f) (path f) model)) ->
    let r := transcribe_each key model total i (before ++ f :: after)
                             results in
    fst r = Err AttributeError
    /\ posts (snd r)
       = flat_map (fun g => posts (snd (transcribe_audio_with
                                          key (call g) (path g) model)))
                  (before ++ [f]).
Proof.
  induction before as [|g before IH]; intros i results Hb Ht Hn;
    cbn [app transcribe_each flat_map].
  - destruct (transcribe_audio_with key (call f) (path f) model)
      as [v e1] eqn:Hv. cbn [fst snd] in *. rewrite Ht.
    destruct v; try destruct Hn; cbn [get fst snd];
      (split; [reflexivity|]);
      change (?h :: e1) with ([h] ++ e1); rewrite posts_app;
      cbn [posts flat_map app]; now rewrite app_nil_r.
  - inversion_clear Hb as [|? ? Hg Hb'].
    specialize (IH (i + 1)%N).
    destruct (transcribe_audio_with key (call g) (path g) model)
      as [u e1] eqn:Hu. cbn [fst snd] in *.
    destruct (truthy u) eqn:Htu.
    + destruct (Hg eq_refl) as [d ->]. cbn [get].
      specialize (IH (results
                        ++ [text_record (name g)
                              match lookup (py "text") d with
                              | Some x => x
                              | None => PStr []
                              end]) Hb' Ht Hn).
      cbv zeta in IH.
      destruct (transcribe_each key model total (i + 1)
                                (before ++ f :: after) _) as [r e2].
      cbn [fst snd] in *. destruct IH as [-> IH]. split; [reflexivity|].
      change (?h :: e1 ++ ?p :: e2) with ([h] ++ e1 ++ [p] ++ e2).
      rewrite !posts_app, IH. reflexivity.
    + specialize (IH (results ++ [failed_record (name g)]) Hb' Ht Hn).
      cbv zeta in IH.
      destruct (transcribe_each key model total (i + 1)
                                (before ++ f :: after) _) as [r e2].
      cbn [fst snd] in *. destruct IH as [-> IH]. split; [reflexivity|].
      change (?h :: e1 ++ ?p :: e2) with ([h] ++ e1 ++ [p] ++ e2).
      rewrite !posts_app, IH. reflexivity.
Qed.

(** X19: A reply that is true and no dict (a JSON array, string or
    number with status 200) makes [transcribe_folder] raise
    AttributeError at that file: the files after it are not sent, and no
    list is returned. *)
Theorem folder_stops_at_a_reply_that_is_no_dict
        (key : pystr) (fd : folder) (folder_path model : pystr)
        (before : list wav_file) (f : wav_file) (after : list wav_file) :
  folder_exists fd = true ->
  wav_files fd = before ++ f :: after ->
  Forall (fun g =>
            let u := fst (transcribe_audio_with
                            key (call g) (path g) model) in
            truthy u = true -> exists d, u = PDict d) before ->
  truthy (fst (transcribe_audio_with key (call f) (path f) model)) = true ->
  no_dict (fst (transcribe_audio_with key (call f) (path f) model)) ->
  let r := transcribe_folder_with key fd folder_path model in
  fst r = Err AttributeError
  /\ posts (snd r)
     = flat_map (fun g => posts (snd (transcribe_audio_with
                                        key (call g) (path g) model)))
                (before ++ [f]).
Proof.
  intros He Hw Hb Ht Hn. unfold transcribe_folder_with.
  rewrite He, Hw. cbn [negb].
  destruct (before ++ f :: after) as [|f0 files] eqn:Hl;
    [now destruct before|]. rewrite <- Hl.
  destruct (transcribe_each_stops key model
              (N.of_nat (length (before ++ f :: after)))
              before f after 1%N [] Hb Ht Hn) as [H1 H2].
  destruct (transcribe_each key model _ 1 (before ++ f :: after) [])
    as [r e1]. cbn [fst snd] in H1, H2. subst r. cbn [fst snd].
  split; [reflexivity|]. rewrite posts_app, H2. reflexivity.
Qed.

End SttFacts.

Lemma transcription_is_the_reply_or_none_witness :
  TestGroqStt.transcribe_audio
    (ScriptExamples.replying (ScriptExamples.said "hey bob"))
    (py "samples/a.wav") TestGroqStt.DEFAULT_MODEL
  = (ScriptExamples.said "hey bob",
     [Post (TestGroqStt.transcription_request
              TestGroqStt.GROQ_API_KEY (py "samples/a.wav")
              TestGroqStt.DEFAULT_MODEL)]).
Proof.
  destruct (transcription_is_the_reply_or_none
              TestGroqStt.GROQ_API_KEY
              (ScriptExamples.replying (ScriptExamples.said "hey bob"))
              (py "samples/a.wav") TestGroqStt.DEFAULT_MODEL)
    as [[H _]|[H (reply & Hp & _ & Hj)]].
  - discriminate H.
  - reflexivity.
Defined.


Lemma folder_stops_at_a_reply_that_is_no_dict_witness :
  fst (SttScript.transcribe_folder ScriptExamples.odd_reply (py "samples")
                                   TestGroqStt.DEFAULT_MODEL)
  = Err AttributeError
  /\ length (posts (snd (SttScript.transcribe_folder
                           ScriptExamples.odd_reply (py "samples")
                           TestGroqStt.DEFAULT_MODEL))) = 2%nat.
Proof.
  pose proof (folder_stops_at_a_reply_that_is_no_dict
              TestGroqStt.GROQ_API_KEY ScriptExamples.odd_reply
              (py "samples") TestGroqStt.DEFAULT_MODEL
              [ScriptExamples.recording
                 "a.wav" (ScriptExamples.replying
                            (ScriptExamples.said "hey bob"))]
              (ScriptExamples.recording
                 "b.wav" (ScriptExamples.replying
                            (PList [PStr (py "hey bob")])))
              [ScriptExamples.recording
                 "c.wav" (ScriptExamples.replying
                            (ScriptExamples.said "noise"))]
              eq_refl eq_refl) as H.
  cbv zeta in H. destruct H as [H1 H2].
  - repeat constructor. intros _. now eexists.
  - reflexivity.
  - exact I.
  - split; [exact H1|]. unfold SttScript.transcribe_folder.
    rewrite H2. reflexivity.
Defined.

(* ================================================================== *)
(** * [test_voice_pipeline.py]: from the recording to the actions *)
(* ================================================================== *)

Section PipelineFacts.

Import TestVoicePipeline.
Import PipelineScript.




(** X20: A text [transcribe_audio] returns has no whitespace at either
    end: it is the stripped [text] field of a reply with status 200 whose
    body is a dict, or the empty text when the body has no such field.  A
    body that is no dict, or a field that is no string, gives None. *)
Theorem heard_text_is_the_stripped_reply
        (key : pystr) (w : studio) (audio_path t : pystr) :
  fst (transcribe_audio key w audio_path) = Some t ->
  strip t = t
  /\ exists reply d,
       heard w = PostReturned reply
       /\ status_code reply = 200%Z
       /\ json reply = Ok (PDict d)
       /\ match lookup (py "text") d with
          | Some (PStr s) => t = strip s
          | Some _ => False
          | None => t = []
          end.
Proof.
  unfold transcribe_audio.
  destruct (path_exists w audio_path); cbn [negb]; [|discriminate].
  destruct (open_ok w); cbn [negb]; [|discriminate].
  destruct (heard w) as [e|reply] eqn:Hw; [discriminate|].
  destruct (Z.eqb_spec (status_code reply) 200) as [Hs|Hs]; [|discriminate].
  destruct (json reply) as [body|e] eqn:Hj; cbn [bind]; [|discriminate].
  destruct body as [| | | | |l|d]; cbn [get bind]; try discriminate.
  destruct (lookup (py "text") d) as [[| | | |s| |]|] eqn:Hl;
    cbn [str_strip]; try discriminate; intros [= <-].
  - split; [apply strip_strip|]. exists reply, d. now rewrite Hl.
  - split; [reflexivity|]. exists reply, d. now rewrite Hl.
Qed.





Lemma number_or_false_ac_temp (v : pyval) :
  number_or_false v = true -> exists temp, ac_temp v = Ok temp.
Proof.
  intros Hn. unfold ac_temp. destruct (truthy v) eqn:Ht; [|now eexists].
  unfold min_int, max_int.
  destruct v as [|b|z|x|s|l|d]; cbn [number_or_false] in Hn;
    try (rewrite Ht in Hn; discriminate Hn); try discriminate Ht;
    cbn [lt_int bind].
  - destruct ((if b then 1 else 0) <? 30)%Z; cbn [gt_int bind]; now eexists.
  - destruct (z <? 30)%Z; cbn [gt_int bind]; now eexists.
  - destruct (PyFloat.lt_int x 30); cbn [gt_int bind]; now eexists.
Qed.

Lemma plain_action_executes (a : pyval) :
  plain_action a -> exists line, execute_action a = Ok line.
Proof.
  destruct a as [| | | | | |d]; try (intros H; exact (False_ind _ H)).
  cbn [plain_action]. intros H. unfold execute_action. cbn [get bind].
  destruct (lookup (py "type") d) as [ty|] eqn:Hty.
  - destruct (eq_str ty (py "ac_on")); [now eexists|].
    destruct (eq_str ty (py "ac_off")); [now eexists|].
    destruct (eq_str ty (py "ac_temp")) eqn:Ht.
    + assert (ty = PStr (py "ac_temp")) as ->.
      { destruct ty; try discriminate. cbn [eq_str] in Ht.
        apply eqb_eq in Ht. now subst. }
      destruct (number_or_false_ac_temp _ (H eq_refl)) as [temp ->].
      now eexists.
    + destruct (eq_str ty (py "ac_mode")); [now eexists|].
      destruct (eq_str ty (py "light_on")); [now eexists|].
      destruct (eq_str ty (py "light_off")); [now eexists|].
      destruct (eq_str ty (py "ir_send")); now eexists.
  - now eexists.
Qed.

Lemma plain_actions_execute (acts : list pyval) :
  Forall plain_action acts ->
  exists lines, Forall2 (fun a l => execute_action a = Ok l) acts lines.
Proof.
  induction 1 as [|a acts Ha _ [lines IH]]; [exists []; constructor|].
  destruct (plain_action_executes a Ha) as [line Hl].
  exists (line :: lines). now constructor.
Qed.


(** X25: An action that is no dict (a string in the list of actions, for
    one) stops [execute_actions] with an AttributeError: the actions
    before it have been carried out, those after it are not. *)
Theorem action_that_is_no_dict_stops_the_run
        (intent : list (pystr * pyval)) (before after : list pyval)
        (bad : pyval) :
  lookup (py "actions") intent = Some (PList (before ++ bad :: after)) ->
  Forall plain_action before -> no_dict bad ->
  exists lines,
    Forall2 (fun a l => execute_action a = Ok l) before lines
    /\ execute_actions (PDict intent)
       = (Raised AttributeError,
          Print [Lit (py "[3/3] Executing actions...")] :: map Print lines).
Proof.
  intros Hl Hall Hbad.
  destruct (plain_actions_execute before Hall) as [lines Hlines].
  exists lines. split; [exact Hlines|].
  rewrite (execute_actions_runs intent _ Hl) by (now destruct before).
  rewrite (run_actions_app before (bad :: after) lines Hlines).
  assert (Hb : execute_action bad = Err AttributeError)
    by (destruct bad; try destruct Hbad; reflexivity).
  cbn [run_actions]. rewrite Hb. cbn [fst snd]. now rewrite app_nil_r.
Qed.


End PipelineFacts.

Lemma heard_text_is_the_stripped_reply_witness :
  fst (PipelineScript.transcribe_audio
         (py "gsk_test")
         (ScriptExamples.hearing (ScriptExamples.said "  turn on the AC  "))
         (py "samples/a.wav"))
  = Some (py "turn on the AC")
  /\ strip (py "turn on the AC") = py "turn on the AC".
Proof.
  split; [reflexivity|].
  exact (proj1 (heard_text_is_the_stripped_reply
                  (py "gsk_test")
                  (ScriptExamples.hearing
                     (ScriptExamples.said "  turn on the AC  "))
                  (py "samples/a.wav") (py "turn on the AC") eq_refl)).
Defined.




Lemma action_that_is_no_dict_stops_the_run_witness :
  TestVoicePipeline.execute_actions
    (PDict [(py "actions",
             PList [PDict [(py "type", PStr (py "ac_on"))];
                    PStr (py "ac_off");
                    PDict [(py "type", PStr (py "light_off"))]])])
  = (TestVoicePipeline.Raised AttributeError,
     [Print [Lit (py "[3/3] Executing actions...")];
      Print [Lit (py "      -> AC: Turning ON")]]).
Proof.
  destruct (action_that_is_no_dict_stops_the_run
              [(py "actions",
                PList [PDict [(py "type", PStr (py "ac_on"))];
                       PStr (py "ac_off");
                       PDict [(py "type", PStr (py "light_off"))]])]
              [PDict [(py "type", PStr (py "ac_on"))]]
              [PDict [(py "type", PStr (py "light_off"))]]
              (PStr (py "ac_off")) eq_refl) as (lines & _ & H).
  - repeat constructor; vm_compute; intros; discriminate.
  - exact I.
  - reflexivity.
Defined.

Lemma last_label_wins_witness :
  CaptureScript.parse_args
    ScriptExamples.ascii_int
    [py "hey_bob"; py "twice"; py "noise"; py "COUNT"] None 1 None
  = CaptureScript.Settings (Some (py "noise")) 1 None.
Proof.
  apply (last_label_wins ScriptExamples.ascii_int
           [py "hey_bob"; py "twice"; py "noise"; py "COUNT"] None 1 None).
  repeat constructor.
Defined.
